(** * basalt: the TTY lock screen (testcode.py)

    A shallow embedding of the authentication orchestrator and of the
    terminal animation engine, with the properties of its specification.

    Conventions of the embedding.
    - Python [float] values (times, easing fractions, durations) are exact
      rationals [Q]; [int(x)] is truncation toward zero.  Where the number
      of frames is taken, [int(duration * fps)], the product is rounded to
      the nearest double as the interpreter does.  Inside a frame the
      arithmetic stays exact: the row of a single frame can differ by one
      from the interpreter's where a product falls next to an integer.
    - Python [int] values are [Z]; [//] and [%] are [Z.div] and [Z.modulo]
      (floor division, the sign of the remainder follows the divisor).
    - [threading.Event] is a [bool] cell; the code only ever calls [set] and
      [is_set] on the unlock event.  Calls made by the worker threads while
      the main thread is inside a loop are an explicit interference input.
    - The threads interleave at the grain of one call: [PopupManager.show]
      is one step, and Ctrl-C reaches the main thread where it waits for a
      key.
    - Terminal output, process launch and exit are recorded as a trace of
      effects; exceptions are explicit results. *)

From Stdlib Require Import ZArith QArith Qminmax Qround Lia Lqa Bool List String
  Ascii DecimalString.
Import ListNotations.
Open Scope string_scope.
Open Scope list_scope.
Open Scope Z_scope.

(** ** Python values used throughout *)

(** Truthiness of a [str]. *)
Definition truthy (s : string) : bool := negb (String.eqb s "").

(** [len(s)] *)
Definition len (s : string) : Z := Z.of_nat (String.length s).

(** [int(x)] on a float: truncation toward zero. *)
Definition py_int (x : Q) : Z := Z.quot (Qnum x) (Zpos (Qden x)).

(** [x in l] for a list of strings. *)
Definition str_in (x : string) (l : list string) : bool :=
  existsb (String.eqb x) l.

(** [l.index(x)]: the first position of [x]; [None] stands for ValueError. *)
Fixpoint list_index (x : string) (l : list string) : option Z :=
  match l with
  | [] => None
  | y :: l' =>
      if String.eqb y x then Some 0
      else option_map Z.succ (list_index x l')
  end.

(** [l[i]]: negative positions count from the end; [None] stands for
    IndexError. *)
Definition list_get (l : list string) (i : Z) : option string :=
  let n := Z.of_nat (List.length l) in
  if i <? 0
  then (if i + n <? 0 then None else nth_error l (Z.to_nat (i + n)))
  else nth_error l (Z.to_nat i).

(** [d.get(k)] on a dict kept in insertion order. *)
Fixpoint dict_get (d : list (string * string)) (k : string) : option string :=
  match d with
  | [] => None
  | (k', v) :: d' => if String.eqb k' k then Some v else dict_get d' k
  end.

(** [list(d.keys())] *)
Definition dict_keys (d : list (string * string)) : list string := map fst d.

(** The exceptions that travel through the modelled code. *)
Inductive Exc : Type :=
| TypeError (msg : string)
| IndexError (msg : string)
| SystemExit (code : Z).

(** curses attributes and key codes (values from curses.h). *)
Inductive Attr : Type := A_BOLD | A_NORMAL | A_DIM.

Definition KEY_LEFT : Z := 260.
Definition KEY_RIGHT : Z := 261.
Definition KEY_BACKSPACE : Z := 263.

(** What the core does to the outside world. *)
Inductive Effect : Type :=
| Erase
| Refresh
| Sleep (seconds : Q)
| AddStr (y x : Z) (s : string) (attr : Attr)
| DrawLinesMask (y x : Z) (lines : list string) (vis : Q) (attr : Attr)
| PasswordPanel (h w : Z) (stars : Z) (msg : string)
| MainScreen (h w : Z) (lines : list string) (session : option string)
| CursSet (visibility : Z)
| EndWin
| StartWorkers
| StopWorkers
| PrintErr (s : string)
| PrintOut (s : string)
| Popen (argv : list string).

(** The terminal window: [stdscr.getmaxyx()]. *)
Record Window : Type := { maxy : Z; maxx : Z }.

(** ** threading.Event *)

Definition Event : Type := bool.
Definition Event_new : Event := false.
Definition Event_set (e : Event) : Event := true.
Definition is_set (e : Event) : bool := e.

(** A worker thread that succeeded calls [set] on the shared event. *)
Definition interfere (fired : bool) (e : Event) : Event :=
  if fired then Event_set e else e.

(** ** Configuration and module-level constants *)

Definition Encoding : Type := list Q.

Record Config : Type := {
  ANIM_ENABLED : bool;
  ANIM_DURATION_IN : Q;
  ANIM_DURATION_OUT : Q;
  ANIM_IN_STYLE : string;
  ANIM_OUT_STYLE : string;
  ENABLE_FACE : bool;
  ENABLE_FINGERPRINT : bool;
  SHAKE_AMPLITUDE : Z;
  TOLERANCE : Q;
  default_session : string;
  hint_text : string;
  USERNAME : string;
  (** the dict literal of lines 108-114, before the filter of line 115 *)
  UNLOCK_COMMANDS_raw : list (string * string);
  (** external verifiers *)
  verify_password : string -> bool;
  face_match : Encoding -> Encoding -> Q -> bool
}.

(** [UNLOCK_COMMANDS = {k: v for k, v in UNLOCK_COMMANDS.items() if v}] *)
Definition UNLOCK_COMMANDS (cfg : Config) : list (string * string) :=
  filter (fun kv => truthy (snd kv)) (UNLOCK_COMMANDS_raw cfg).

(** The dict literal itself, from what [shutil.which] finds; the falsy
    [None] of an absent kde command is the empty string here. *)
Definition kde_command (which : string -> bool) : string :=
  if which "startplasma-wayland"
  then "dbus-run-session env XDG_SESSION_TYPE=wayland startplasma-wayland"
  else if which "startplasma-x11"
  then "dbus-run-session env XDG_SESSION_TYPE=x11 startplasma-x11"
  else if which "startkde" then "dbus-run-session startkde"
  else "".

Definition unlock_commands_literal (which : string -> bool)
  : list (string * string) :=
  [ ("gnome-wayland",
     "dbus-run-session env XDG_SESSION_TYPE=wayland gnome-session");
    ("gnome-x11",
     "dbus-run-session env XDG_SESSION_TYPE=x11 gnome-session");
    ("kde", kde_command which) ].

(** ** PopupManager *)

Module PopupManager.

Record t : Type := {
  message : option string;
  start_time : option Q
}.

(** [__init__] *)
Definition init : t := {| message := None; start_time := None |}.

(** [show(msg)]; [now] is what [time.time()] returns.  The two assignments
    are one step here; a [render] that runs between them on the main thread
    meets a message without a time stamp, the TypeError case of [render]. *)
Definition show (p : t) (msg : string) (now : Q) : t :=
  {| message := Some msg; start_time := Some now |}.

(** [render(stdscr)]; [now1] and [now2] are the two readings of the clock
    (lines 67 and 68).  The drawing is attempted with [addstr], whose
    [curses.error] is swallowed. *)
Definition render (p : t) (stdscr : Window) (now1 now2 : Q)
  : t * list Effect * option Exc :=
  match message p with
  | None => (p, [], None)
  | Some m =>
      if negb (truthy m) then (p, [], None)
      else
        match start_time p with
        | None =>
            (p, [], Some (TypeError "unsupported operand type(s) for -"))
        | Some t0 =>
            if Qlt_le_dec 1 (now1 - t0)
            then ({| message := None; start_time := start_time p |}, [], None)
            else
              let elapsed := (now2 - t0)%Q in
              let attr :=
                if Qlt_le_dec elapsed (2 # 10) then A_DIM
                else if Qlt_le_dec (7 # 10) elapsed then A_DIM
                else A_NORMAL in
              let x := maxx stdscr / 2 - len m / 2 in
              let y := maxy stdscr - 3 in
              (p, [AddStr y x m attr], None)
        end
  end.

End PopupManager.

(** ** Animation helpers *)

Module Easing.
Local Open Scope Q_scope.

(** [max(0.0, min(1.0, t))] *)
Definition clamp01 (t : Q) : Q := Qmax 0 (Qmin 1 t).

(** [_ease_out_cubic] *)
Definition _ease_out_cubic (t : Q) : Q :=
  let t := clamp01 t in
  1 - (1 - t) ^ 3.

Definition n1 : Q := 75625 # 10000.
Definition d1 : Q := 275 # 100.

(** [_ease_out_bounce] *)
Definition _ease_out_bounce (t : Q) : Q :=
  let t := clamp01 t in
  if Qlt_le_dec t (1 / d1) then n1 * t * t
  else if Qlt_le_dec t (2 / d1) then
    let t := t - (15 # 10) / d1 in n1 * t * t + (75 # 100)
  else if Qlt_le_dec t ((25 # 10) / d1) then
    let t := t - (225 # 100) / d1 in n1 * t * t + (9375 # 10000)
  else
    let t := t - (2625 # 1000) / d1 in n1 * t * t + (984375 # 1000000).

End Easing.
Import Easing.

(** [_compute_center]: [(y, x, text_h, text_w)]; [h] and [w] are read off
    the window again by the callers that need them. *)
Definition _compute_center (stdscr : Window) (lines : list string)
  : Z * Z * Z * Z :=
  let h := maxy stdscr in
  let w := maxx stdscr in
  let text_h := Z.of_nat (List.length lines) in
  let text_w := fold_right Z.max 0 (map len lines) in
  let y := Z.max 0 ((h - text_h) / 2) in
  let x := Z.max 0 ((w - text_w) / 2) in
  (y, x, text_h, text_w).

(** [_attr_for_fade] *)
Definition _attr_for_fade (t : Q) : Attr :=
  if Qlt_le_dec t (33 # 100) then A_BOLD
  else if Qlt_le_dec t (66 # 100) then A_NORMAL
  else A_DIM.

(** Binary64 rounding, for magnitudes in the normal range of a double:
    [pow2 e] is 2 to the [e], [floor_log2 x] the exponent of a positive [x],
    and [round_double x] the double nearest to [x], ties to the even
    mantissa of 53 bits. *)
Definition pow2 (e : Z) : Q :=
  if 0 <=? e then inject_Z (2 ^ e) else (1 # Z.to_pos (2 ^ (- e)))%Q.

Definition floor_log2 (x : Q) : Z :=
  let k := Z.log2 (Qnum x) - Z.log2 (Zpos (Qden x)) in
  if Qle_bool (pow2 k) x then k else k - 1.

Definition round_half_even (x : Q) : Z :=
  let f := Qfloor x in
  match Qcompare (x - inject_Z f) (1 # 2) with
  | Lt => f
  | Gt => f + 1
  | Eq => if Z.even f then f else f + 1
  end.

Definition round_double (x : Q) : Q :=
  match Qcompare x 0 with
  | Eq => 0%Q
  | Gt =>
      let e := floor_log2 x - 52 in
      (inject_Z (round_half_even (x / pow2 e)) * pow2 e)%Q
  | Lt =>
      let e := floor_log2 (- x) - 52 in
      (- (inject_Z (round_half_even (- x / pow2 e)) * pow2 e))%Q
  end.

(** [a * b] on floats: the operands as doubles ([float(..)] of a setting,
    an [int] converted), the product rounded. *)
Definition float_mul (a b : Q) : Q :=
  round_double (round_double a * round_double b).

(** [max(1, int(duration * fps))] *)
Definition frame_count (duration : Q) (fps : Z) : Z :=
  Z.max 1 (py_int (float_mul duration (inject_Z fps))).

(** [range(n)] *)
Definition range (n : Z) : list nat := seq 0 (Z.to_nat n).

(** The body of a [for i in range(..)] loop that starts with
    [if unlocked_event.is_set(): return].  [workers i] tells whether a worker
    thread called [on_success] since the previous test. *)
Fixpoint frame_loop (body : nat -> list Effect) (workers : nat -> bool)
  (unlocked_event : Event) (indices : list nat) : Event * list Effect :=
  match indices with
  | [] => (unlocked_event, [])
  | i :: rest =>
      let unlocked_event := interfere (workers i) unlocked_event in
      if is_set unlocked_event then (unlocked_event, [])
      else
        let '(ev, tr) := frame_loop body workers unlocked_event rest in
        (ev, body i ++ tr)
  end.

(** One frame of [anim_slide] (lines 294-304). *)
Definition slide_frame (stdscr : Window) (lines : list string)
  (duration : Q) (fps : Z) (i : nat) : list Effect :=
  let '(y0, x0, th, tw) := _compute_center stdscr lines in
  let frames := frame_count duration fps in
  let dist := y0 + th + 2 in
  let dx := 0 in
  let dy := -1 in
  let t := (inject_Z (Z.of_nat i) / inject_Z frames)%Q in
  let e := _ease_out_cubic t in
  let off := py_int (inject_Z dist * e) in
  let x := x0 + dx * off in
  let y := y0 + dy * off in
  let vis := (1 - t)%Q in
  let attr := _attr_for_fade t in
  [Erase; DrawLinesMask y x lines vis attr; Refresh;
   Sleep (1 / inject_Z fps)].

(** [anim_slide] *)
Definition anim_slide (cfg : Config) (stdscr : Window) (lines : list string)
  (unlocked_event : Event) (workers : nat -> bool)
  (duration : Q) (fps : Z) (mode : string) : Event * list Effect :=
  if negb (ANIM_ENABLED cfg) then (unlocked_event, [])
  else
    let frames := frame_count duration fps in
    if String.eqb mode "slide-up-out"
    then frame_loop (slide_frame stdscr lines duration fps) workers
           unlocked_event (range (frames + 1))
    else (unlocked_event, []).

(** One frame of [anim_bounce_in] (lines 317-325). *)
Definition bounce_frame (stdscr : Window) (lines : list string)
  (duration : Q) (fps : Z) (i : nat) : list Effect :=
  let '(y0, x0, th, tw) := _compute_center stdscr lines in
  let frames := frame_count duration fps in
  let start_y := - th - 2 in
  let span := y0 - start_y in
  let t := (inject_Z (Z.of_nat i) / inject_Z frames)%Q in
  let e := _ease_out_bounce t in
  let y := py_int (inject_Z start_y + inject_Z span * e) in
  let vis := Qmin 1 ((25 # 100) + t) in
  let attr := _attr_for_fade (1 - t) in
  [Erase; DrawLinesMask y x0 lines vis attr; Refresh;
   Sleep (1 / inject_Z fps)].

(** [anim_bounce_in] *)
Definition anim_bounce_in (cfg : Config) (stdscr : Window)
  (lines : list string) (unlocked_event : Event) (workers : nat -> bool)
  (duration : Q) (fps : Z) : Event * list Effect :=
  if negb (ANIM_ENABLED cfg) then (unlocked_event, [])
  else
    let frames := frame_count duration fps in
    frame_loop (bounce_frame stdscr lines duration fps) workers
      unlocked_event (range (frames + 1)).

(** [play_anim]; the [style] argument is not looked at by the code. *)
Definition play_anim (cfg : Config) (stdscr : Window) (style : string)
  (lines : list string) (unlocked_event : Event) (workers : nat -> bool)
  (entering : bool) (duration : Q) (fps : Z) : Event * list Effect :=
  if negb (ANIM_ENABLED cfg) then (unlocked_event, [])
  else if negb entering
  then anim_slide cfg stdscr lines unlocked_event workers duration fps
         "slide-up-out"
  else anim_bounce_in cfg stdscr lines unlocked_event workers duration fps.

(** ** shake_panel and its call site *)

(** [pattern = [0, amplitude, -amplitude, amplitude // 2, -amplitude // 2, 0]] *)
Definition shake_pattern (amplitude : Z) : list Z :=
  [0; amplitude; - amplitude; amplitude / 2; (- amplitude) / 2; 0].

(** One frame of [shake_panel] (lines 346-350). *)
Definition shake_frame (draw_fn : Z -> Z -> list Effect)
  (amplitude fps : Z) (i : nat) : list Effect :=
  let pattern := shake_pattern amplitude in
  let dx :=
    nth (Z.to_nat (Z.of_nat i mod Z.of_nat (List.length pattern))) pattern 0 in
  [Erase] ++ draw_fn dx 0 ++ [Refresh; Sleep (1 / inject_Z fps)].

(** [shake_panel]; [unlocked_event] defaults to [None], and then no test is
    made ([if unlocked_event and unlocked_event.is_set()]). *)
Definition shake_panel (cfg : Config) (draw_fn : Z -> Z -> list Effect)
  (cycles amplitude fps : Z) (unlocked_event : option Event)
  (workers : nat -> bool) : option Event * list Effect :=
  if negb (ANIM_ENABLED cfg) then (unlocked_event, draw_fn 0 0)
  else
    match unlocked_event with
    | Some ev =>
        let '(ev', tr) :=
          frame_loop (shake_frame draw_fn amplitude fps) workers ev
            (range cycles) in
        (Some ev', tr)
    | None =>
        (None, flat_map (shake_frame draw_fn amplitude fps) (range cycles))
    end.

(** Keyword arguments of a call, as Python binds them. *)
Inductive PyArg : Type :=
| ArgInt (z : Z)
| ArgEvent (e : Event).

(** [def shake_panel(stdscr, draw_fn, cycles=10, amplitude=2, fps=60,
    unlocked_event=None)] *)
Definition shake_panel_params : list string :=
  ["stdscr"; "draw_fn"; "cycles"; "amplitude"; "fps"; "unlocked_event"].

(** The first keyword that names no parameter of the callee. *)
Definition unexpected_keyword (params : list string)
  (kwargs : list (string * PyArg)) : option string :=
  option_map fst (find (fun kv => negb (str_in (fst kv) params)) kwargs).

Fixpoint kw_lookup (name : string) (kwargs : list (string * PyArg))
  : option PyArg :=
  match kwargs with
  | [] => None
  | (k, v) :: rest => if String.eqb k name then Some v else kw_lookup name rest
  end.

Definition kw_int (name : string) (default : Z)
  (kwargs : list (string * PyArg)) : Z :=
  match kw_lookup name kwargs with
  | Some (ArgInt z) => z
  | _ => default
  end.

Definition kw_event (name : string) (kwargs : list (string * PyArg))
  : option Event :=
  match kw_lookup name kwargs with
  | Some (ArgEvent e) => Some e
  | _ => None
  end.

(** A call [shake_panel(stdscr, draw_fn, **kwargs)]: a keyword that is not a
    parameter raises TypeError before the body runs. *)
Definition call_shake_panel (cfg : Config) (draw_fn : Z -> Z -> list Effect)
  (kwargs : list (string * PyArg)) (workers : nat -> bool)
  : option Event * list Effect * option Exc :=
  match unexpected_keyword shake_panel_params kwargs with
  | Some k =>
      (None, [],
       Some (TypeError
               (String.append
                  "shake_panel() got an unexpected keyword argument '"
                  (String.append k "'"))))
  | None =>
      let '(ev, tr) :=
        shake_panel cfg draw_fn (kw_int "cycles" 10 kwargs)
          (kw_int "amplitude" 2 kwargs) (kw_int "fps" 60 kwargs)
          (kw_event "unlocked_event" kwargs) workers in
      (ev, tr, None)
  end.

(** ** TTYSafeLock, the lock screen controller *)

(** What the surroundings supply to the main thread: the window, the
    clock lines of [draw_clock()], the worker successes that land during an
    animation, and whether the join of the fingerprint thread in
    [stop_workers] raises (see there). *)
Record Ambient : Type := {
  stdscr : Window;
  clock : list string;
  worker_auth : nat -> bool;
  fprint_join_raises : bool
}.

(** The two things a worker thread does to the controller it was given:
    [self.popup.show(msg)] and [self.on_success(method, identity)]. *)
Inductive Action : Type :=
| Show (msg : string) (now : Q)
| OnSuccess (method identity : string).

(** [stdscr.getch()] in no-delay mode, or Ctrl-C while waiting. *)
Inductive Key : Type :=
| Getch (ch : Z)
| CtrlC.

(** How a piece of code ended, when it did. *)
Inductive Completion : Type :=
| Running
| Returned
| Raised (e : Exc).

(** [str(n)] *)
Definition str_of_int (n : Z) : string := NilZero.string_of_int (Z.to_int n).

Module TTYSafeLock.

Record t : Type := {
  unlocked_event : Event;
  desktop_choices : list string;
  desktop_index : Z;
  password_mode : bool;
  password_buffer : string;
  message : string;
  popup : PopupManager.t
}.

Definition with_event (st : t) (e : Event) : t :=
  {| unlocked_event := e; desktop_choices := desktop_choices st;
     desktop_index := desktop_index st; password_mode := password_mode st;
     password_buffer := password_buffer st; message := message st;
     popup := popup st |}.

Definition with_index (st : t) (i : Z) : t :=
  {| unlocked_event := unlocked_event st;
     desktop_choices := desktop_choices st;
     desktop_index := i; password_mode := password_mode st;
     password_buffer := password_buffer st; message := message st;
     popup := popup st |}.

Definition with_entry (st : t) (mode : bool) (buffer msg : string) : t :=
  {| unlocked_event := unlocked_event st;
     desktop_choices := desktop_choices st;
     desktop_index := desktop_index st; password_mode := mode;
     password_buffer := buffer; message := msg; popup := popup st |}.

Definition with_popup (st : t) (p : PopupManager.t) : t :=
  {| unlocked_event := unlocked_event st;
     desktop_choices := desktop_choices st;
     desktop_index := desktop_index st; password_mode := password_mode st;
     password_buffer := password_buffer st; message := message st;
     popup := p |}.

(** [__init__] *)
Definition init (cfg : Config) : t :=
  let desktop_choices := dict_keys (UNLOCK_COMMANDS cfg) in
  let desktop_index :=
    if str_in (default_session cfg) desktop_choices
    then match list_index (default_session cfg) desktop_choices with
         | Some i => i
         | None => 0
         end
    else 0 in
  {| unlocked_event := Event_new;
     desktop_choices := desktop_choices;
     desktop_index := desktop_index;
     password_mode := false;
     password_buffer := "";
     message := "";
     popup := PopupManager.init |}.

(** [_on_auth_success(method, identity)] *)
Definition _on_auth_success (st : t) (method identity : string) : t :=
  with_event st (Event_set (unlocked_event st)).

(** A worker's write to the controller. *)
Definition perform (st : t) (a : Action) : t :=
  match a with
  | Show msg now => with_popup st (PopupManager.show (popup st) msg now)
  | OnSuccess method identity => _on_auth_success st method identity
  end.

(** [draw_password_panel]; every curses error inside is swallowed. *)
Definition draw_password_panel (st : t) (h w : Z) : list Effect :=
  [PasswordPanel h w (len (password_buffer st)) (message st)].

(** [draw_main_screen]; the session text indexes the choices outside of any
    [try]. *)
Definition draw_main_screen (st : t) (lines : list string) (h w : Z)
  : list Effect * option Exc :=
  match desktop_choices st with
  | [] => ([MainScreen h w lines None], None)
  | _ :: _ =>
      match list_get (desktop_choices st) (desktop_index st) with
      | Some k => ([MainScreen h w lines (Some k)], None)
      | None => ([], Some (IndexError "list index out of range"))
      end
  end.

(** [handle_main_input] *)
Definition handle_main_input (cfg : Config) (st : t) (ch : Z) (amb : Ambient)
  : t * list Effect * option Exc :=
  if ch =? 32 then
    let '(ev, tr) :=
      play_anim cfg (stdscr amb) (ANIM_OUT_STYLE cfg) (clock amb)
        (unlocked_event st) (worker_auth amb) false
        (ANIM_DURATION_OUT cfg) 50 in
    (with_entry (with_event st ev) true "" "", tr ++ [CursSet 1], None)
  else if ch =? KEY_LEFT then
    (with_index st
       (match desktop_choices st with
        | [] => 0
        | _ :: _ =>
            (desktop_index st - 1)
              mod Z.of_nat (List.length (desktop_choices st))
        end), [], None)
  else if ch =? KEY_RIGHT then
    (with_index st
       (match desktop_choices st with
        | [] => 0
        | _ :: _ =>
            (desktop_index st + 1)
              mod Z.of_nat (List.length (desktop_choices st))
        end), [], None)
  else (st, [], None).

(** [s[:-1]] *)
Fixpoint drop_last (s : string) : string :=
  match s with
  | EmptyString => EmptyString
  | String c EmptyString => EmptyString
  | String c rest => String c (drop_last rest)
  end.

(** [chr(ch)] for [32 <= ch < 256] *)
Definition chr (ch : Z) : string :=
  String (ascii_of_N (Z.to_N ch)) EmptyString.

(** [handle_password_input] *)
Definition handle_password_input (cfg : Config) (st : t) (ch : Z)
  (amb : Ambient) : t * list Effect * option Exc :=
  if ch =? 27 then
    let st := with_entry st false "" "" in
    let '(ev, tr) :=
      play_anim cfg (stdscr amb) (ANIM_IN_STYLE cfg) (clock amb)
        (unlocked_event st) (worker_auth amb) true
        (ANIM_DURATION_IN cfg) 50 in
    (with_event st ev, [CursSet 0] ++ tr, None)
  else if (ch =? 10) || (ch =? 13) then
    if verify_password cfg (password_buffer st)
    then (_on_auth_success st "password" (USERNAME cfg), [], None)
    else
      let st := with_entry st (password_mode st) (password_buffer st)
                  "Incorrect password" in
      let h := maxy (stdscr amb) in
      let w := maxx (stdscr amb) in
      match
        call_shake_panel cfg (fun dx dy => draw_password_panel st h w)
          [("a", ArgInt (SHAKE_AMPLITUDE cfg));
           ("e", ArgEvent (unlocked_event st))]
          (worker_auth amb)
      with
      | (_, tr, Some exc) => (st, tr, Some exc)
      | (ev, tr, None) =>
          let st :=
            match ev with
            | Some e => with_event st e
            | None => st
            end in
          (with_entry st (password_mode st) "" (message st), tr, None)
      end
  else if (ch =? KEY_BACKSPACE) || (ch =? 127) || (ch =? 8) then
    (with_entry st (password_mode st) (drop_last (password_buffer st))
       (message st), [], None)
  else if (32 <=? ch) && (ch <? 256) then
    (with_entry st (password_mode st)
       (String.append (password_buffer st) (chr ch)) (message st), [], None)
  else (st, [], None).

(** [handle_input] *)
Definition handle_input (cfg : Config) (st : t) (ch : Z) (amb : Ambient)
  : t * list Effect * option Exc :=
  if password_mode st then handle_password_input cfg st ch amb
  else handle_main_input cfg st ch amb.

(** One pass of the render loop gets: the writes of the worker threads since
    the previous test of the event, the two clock readings of the popup, the
    key, and the surroundings of the key handler. *)
Record Tick : Type := {
  worker_actions : list Action;
  now1 : Q;
  now2 : Q;
  key : Key;
  amb : Ambient
}.

(** The [while not self.unlocked_event.is_set()] loop of [run]; the list of
    ticks is what the surroundings have supplied so far.  Ctrl-C is taken
    where the loop waits, at [getch] inside the [try] of lines 394-397; a
    KeyboardInterrupt delivered at another point of [run] is not among the
    ticks. *)
Fixpoint run_loop (cfg : Config) (st : t) (ticks : list Tick)
  : t * list Effect * Completion :=
  if is_set (unlocked_event st) then (st, [], Returned)
  else
    match ticks with
    | [] => (st, [], Running)
    | tk :: rest =>
        let st := fold_left perform (worker_actions tk) st in
        let h := maxy (stdscr (amb tk)) in
        let w := maxx (stdscr (amb tk)) in
        let '(panel, exc) :=
          if password_mode st then (draw_password_panel st h w, None)
          else draw_main_screen st (clock (amb tk)) h w in
        match exc with
        | Some e => (st, [Erase] ++ panel, Raised e)
        | None =>
            let '(p, ptr, pexc) :=
              PopupManager.render (popup st) (stdscr (amb tk))
                (now1 tk) (now2 tk) in
            let st := with_popup st p in
            match pexc with
            | Some e => (st, [Erase] ++ panel ++ ptr, Raised e)
            | None =>
                let tr := [Erase] ++ panel ++ ptr ++ [Refresh] in
                match key tk with
                | CtrlC => (st, tr, Returned)
                | Getch ch =>
                    if ch =? -1 then
                      let '(st', tr', c) := run_loop cfg st rest in
                      (st', tr ++ [Sleep (5 # 100)] ++ tr', c)
                    else
                      let '(st, htr, hexc) :=
                        handle_input cfg st ch (amb tk) in
                      match hexc with
                      | Some e => (st, tr ++ htr, Raised e)
                      | None =>
                          let '(st', tr', c) := run_loop cfg st rest in
                          (st', tr ++ htr ++ tr', c)
                      end
                end
            end
        end
    end.

End TTYSafeLock.
Import TTYSafeLock.

(** [launch_and_exit]; it always leaves through [sys.exit]. *)
Definition launch_and_exit (cfg : Config) (choice_key : string)
  : list Effect * Exc :=
  match dict_get (UNLOCK_COMMANDS cfg) choice_key with
  | Some cmd =>
      if truthy cmd then
        ([EndWin;
          PrintOut (String.append "Authenticated. Launching: "
                      (String.append choice_key "..."));
          Popen ["/bin/sh"; "-c"; cmd]],
         SystemExit 0)
      else
        ([EndWin;
          PrintErr (String.append "Error: Command for '"
                      (String.append choice_key "' not found."))],
         SystemExit 1)
  | None =>
      ([EndWin;
        PrintErr (String.append "Error: Command for '"
                    (String.append choice_key "' not found."))],
       SystemExit 1)
  end.

(** The TypeError of calling an [Event]. *)
Definition join_error : Exc := TypeError "'Event' object is not callable".

(** [stop_workers] (lines 371-373): both stop flags are set and both
    threads are joined with a timeout.  [FingerprintWorker] keeps its flag
    in [self._stop], which hides the method [Thread._stop]; [Thread.join] of
    CPython up to 3.12 calls [self._stop()] once it finds the thread ended,
    and with the flag in its place that call raises TypeError.
    [join_raises] tells whether this happens: on such an interpreter, when
    the fingerprint thread has ended or ends within the timeout. *)
Definition stop_workers (join_raises : bool) : list Effect * option Exc :=
  if join_raises then ([StopWorkers], Some join_error)
  else ([StopWorkers], None).

(** The tail of [run] (lines 398-401), entered when the loop is left. *)
Definition unlocking (cfg : Config) (st : TTYSafeLock.t)
  (join_raises : bool) : list Effect * Completion :=
  if is_set (unlocked_event st) then
    match stop_workers join_raises with
    | (str, Some e) => (str, Raised e)
    | (str, None) =>
        match desktop_choices st with
        | _ :: _ =>
            match list_get (desktop_choices st) (desktop_index st) with
            | Some k =>
                let '(tr, e) := launch_and_exit cfg k in
                (str ++ tr, Raised e)
            | None =>
                (str, Raised (IndexError "list index out of range"))
            end
        | [] =>
            (str ++ [EndWin; PrintErr "Auth OK, but no sessions found."],
             Raised (SystemExit 0))
        end
    end
  else ([], Returned).

(** [TTYSafeLock.run]; [intro] is what surrounds the opening animation and
    the join of the workers.  Ctrl-C is taken where the loop waits, at
    [getch]. *)
Definition run (cfg : Config) (st : TTYSafeLock.t) (intro : Ambient)
  (ticks : list Tick) : TTYSafeLock.t * list Effect * Completion :=
  let '(ev, atr) :=
    play_anim cfg (stdscr intro) (ANIM_IN_STYLE cfg) (clock intro)
      (unlocked_event st) (worker_auth intro) true
      (ANIM_DURATION_IN cfg) 50 in
  let st := with_event st ev in
  let '(st, ltr, c) := run_loop cfg st ticks in
  match c with
  | Returned =>
      let '(utr, c) := unlocking cfg st (fprint_join_raises intro) in
      (st, [CursSet 0; StartWorkers] ++ atr ++ ltr ++ utr, c)
  | _ => (st, [CursSet 0; StartWorkers] ++ atr ++ ltr, c)
  end.

(** [main]: the effects and the exit status of the process, once it has
    ended.  [curses.wrapper] restores the terminal on the way out. *)
Definition main (cfg : Config) (intro : Ambient) (ticks : list Tick)
  : list Effect * option Z :=
  match UNLOCK_COMMANDS cfg with
  | [] =>
      ([PrintErr "Error: No launchable desktop sessions found."], Some 1)
  | _ :: _ =>
      let '(_, tr, c) := run cfg (TTYSafeLock.init cfg) intro ticks in
      match c with
      | Running => (tr, None)
      | Returned => (tr ++ [EndWin], Some 0)
      | Raised (SystemExit code) =>
          (tr ++ [EndWin] ++
             (if code =? 0 then []
              else [PrintErr (String.append "Exited with code "
                                (str_of_int code))]),
           Some 0)
      | Raised (TypeError msg) | Raised (IndexError msg) =>
          (tr ++ [EndWin; EndWin;
                  PrintErr (String.append "An unexpected error occurred: "
                              msg)],
           Some 0)
      end
  end.

(** ** The authentication workers *)

(** What a worker thread does, in order. *)
Inductive WorkerStep : Type :=
| OpenCamera
| ReleaseCamera
| WSleep (seconds : Q)
| Act (a : Action).

(** The writes to the controller among the steps of a worker. *)
Fixpoint actions (tr : list WorkerStep) : list Action :=
  match tr with
  | [] => []
  | Act a :: rest => a :: actions rest
  | _ :: rest => actions rest
  end.

(** How often [popup.show(msg)] was called. *)
Fixpoint shows (msg : string) (tr : list WorkerStep) : nat :=
  match tr with
  | [] => O
  | Act (Show m _) :: rest =>
      if String.eqb m msg then S (shows msg rest) else shows msg rest
  | _ :: rest => shows msg rest
  end.

(** How often [on_success] was called. *)
Fixpoint successes (tr : list WorkerStep) : nat :=
  match tr with
  | [] => O
  | Act (OnSuccess _ _) :: rest => S (successes rest)
  | _ :: rest => successes rest
  end.

Inductive Flow : Type := Continue | Return.

Module FaceWorker.

Record t : Type := {
  _stop_event : Event;
  _shown : bool
}.

(** [__init__] *)
Definition init : t := {| _stop_event := Event_new; _shown := false |}.

(** [stop] *)
Definition stop (w : t) : t :=
  {| _stop_event := Event_set (_stop_event w); _shown := _shown w |}.

(** What one pass of the loop meets: whether [stop()] was called since the
    previous test, the result of [cap.read()], the encodings found in the
    frame, and the clock. *)
Record Iteration : Type := {
  stop_called : bool;
  ret : bool;
  encs : list Encoding;
  now : Q
}.

(** [face_recognition.compare_faces(known, enc, tolerance)] *)
Definition compare_faces (cfg : Config) (known : list Encoding)
  (enc : Encoding) : list bool :=
  map (fun k => face_match cfg k enc (TOLERANCE cfg)) known.

(** The body of the [while] loop (lines 165-173); [encodings] is
    [face_db.encodings]. *)
Definition body (cfg : Config) (encodings : list Encoding) (w : t)
  (it : Iteration) : t * list WorkerStep * Flow :=
  if negb (ret it) then (w, [WSleep (1 # 10)], Continue)
  else
    match encodings with
    | _ :: _ =>
        match encs it with
        | enc :: _ =>
            if existsb (fun b => b) (compare_faces cfg encodings enc)
            then (w, [Act (OnSuccess "face" (USERNAME cfg))], Return)
            else (w, [WSleep (5 # 100)], Continue)
        | [] => (w, [WSleep (5 # 100)], Continue)
        end
    | [] =>
        if negb (_shown w)
        then ({| _stop_event := _stop_event w; _shown := true |},
              [Act (Show "No known faces configured" (now it));
               WSleep (5 # 100)], Continue)
        else (w, [WSleep (5 # 100)], Continue)
    end.

(** [while not self._stop_event.is_set(): ...]; the flag tells whether the
    loop has been left. *)
Fixpoint loop (cfg : Config) (encodings : list Encoding) (w : t)
  (iters : list Iteration) : t * list WorkerStep * bool :=
  match iters with
  | [] => (w, [], false)
  | it :: rest =>
      let w := {| _stop_event := interfere (stop_called it) (_stop_event w);
                  _shown := _shown w |} in
      if is_set (_stop_event w) then (w, [], true)
      else
        let '(w, tr, flow) := body cfg encodings w it in
        match flow with
        | Return => (w, tr, true)
        | Continue =>
            let '(w', tr', done) := loop cfg encodings w rest in
            (w', tr ++ tr', done)
        end
  end.

(** [run]; [opened] is [self.cap.isOpened()]. *)
Definition run (cfg : Config) (encodings : list Encoding) (opened : bool)
  (w : t) (iters : list Iteration) : t * list WorkerStep * bool :=
  if negb (ENABLE_FACE cfg) then (w, [], true)
  else if negb opened then (w, [OpenCamera], true)
  else
    let '(w, tr, done) := loop cfg encodings w iters in
    (w, [OpenCamera] ++ tr ++ (if done then [ReleaseCamera] else []), done).

End FaceWorker.

Module FingerprintWorker.

Record t : Type := {
  _stop : Event;
  _shown : bool
}.

(** [__init__] *)
Definition init : t := {| _stop := Event_new; _shown := false |}.

(** [stop] *)
Definition stop (w : t) : t :=
  {| _stop := Event_set (_stop w); _shown := _shown w |}.

(** One pass: whether [stop()] was called, what [fingerprint_verify]
    answered, and the clock. *)
Record Iteration : Type := {
  stop_called : bool;
  verified : bool;
  now : Q
}.

(** The body of the [while] loop (lines 189-192). *)
Definition body (cfg : Config) (w : t) (it : Iteration)
  : t * list WorkerStep * Flow :=
  if verified it
  then (w, [Act (OnSuccess "fingerprint" (USERNAME cfg))], Return)
  else if negb (_shown w)
  then ({| _stop := _stop w; _shown := true |},
        [Act (Show "Use fingerprint or press Space" (now it)); WSleep 1],
        Continue)
  else (w, [WSleep 1], Continue).

Fixpoint loop (cfg : Config) (w : t) (iters : list Iteration)
  : t * list WorkerStep * bool :=
  match iters with
  | [] => (w, [], false)
  | it :: rest =>
      let w := {| _stop := interfere (stop_called it) (_stop w);
                  _shown := _shown w |} in
      if is_set (_stop w) then (w, [], true)
      else
        let '(w, tr, flow) := body cfg w it in
        match flow with
        | Return => (w, tr, true)
        | Continue =>
            let '(w', tr', done) := loop cfg w rest in
            (w', tr ++ tr', done)
        end
  end.

(** [run] *)
Definition run (cfg : Config) (w : t) (iters : list Iteration)
  : t * list WorkerStep * bool :=
  if negb (ENABLE_FINGERPRINT cfg) then (w, [], true)
  else loop cfg w iters.

End FingerprintWorker.

(** ** The core as a transition system

    One transition is one operation of the main thread or one write of a
    worker thread; the threads interleave at this grain. *)
Inductive step (cfg : Config) : TTYSafeLock.t -> TTYSafeLock.t -> Prop :=
| step_worker (st : TTYSafeLock.t) (a : Action) :
    step cfg st (perform st a)
| step_key (st : TTYSafeLock.t) (ch : Z) (amb : Ambient) :
    step cfg st (fst (fst (handle_input cfg st ch amb)))
| step_render (st : TTYSafeLock.t) (win : Window) (now1 now2 : Q) :
    step cfg st
      (with_popup st
         (fst (fst (PopupManager.render (popup st) win now1 now2))))
| step_anim (st : TTYSafeLock.t) (amb : Ambient) (style : string)
    (entering : bool) (duration : Q) (fps : Z) :
    step cfg st
      (with_event st
         (fst (play_anim cfg (stdscr amb) style (clock amb)
                 (unlocked_event st) (worker_auth amb) entering
                 duration fps))).

(** The states the controller can be in. *)
Inductive reachable (cfg : Config) : TTYSafeLock.t -> Prop :=
| reach_init : reachable cfg (TTYSafeLock.init cfg)
| reach_step (st st' : TTYSafeLock.t) :
    reachable cfg st -> step cfg st st' -> reachable cfg st'.

(** A configuration to compute with: the defaults of [load_config], two
    sessions, the password "a". *)
Definition sample_config : Config :=
  {| ANIM_ENABLED := true;
     ANIM_DURATION_IN := 55 # 100;
     ANIM_DURATION_OUT := 60 # 100;
     ANIM_IN_STYLE := "bounce";
     ANIM_OUT_STYLE := "slide-up";
     ENABLE_FACE := true;
     ENABLE_FINGERPRINT := true;
     SHAKE_AMPLITUDE := 3;
     TOLERANCE := 6 # 10;
     default_session := "auto";
     hint_text := "Space for password.";
     USERNAME := "alice";
     UNLOCK_COMMANDS_raw := unlock_commands_literal (fun _ => false);
     verify_password := String.eqb "a";
     face_match := fun _ _ _ => false |}.

(** The same with no session at all. *)
Definition no_session_config : Config :=
  {| ANIM_ENABLED := true;
     ANIM_DURATION_IN := 55 # 100;
     ANIM_DURATION_OUT := 60 # 100;
     ANIM_IN_STYLE := "bounce";
     ANIM_OUT_STYLE := "slide-up";
     ENABLE_FACE := true;
     ENABLE_FINGERPRINT := true;
     SHAKE_AMPLITUDE := 3;
     TOLERANCE := 6 # 10;
     default_session := "auto";
     hint_text := "Space for password.";
     USERNAME := "alice";
     UNLOCK_COMMANDS_raw := [];
     verify_password := String.eqb "a";
     face_match := fun _ _ _ => false |}.

Definition sample_window : Window := {| maxy := 24; maxx := 80 |}.

Definition quiet : Ambient :=
  {| stdscr := sample_window; clock := ["12:34"];
     worker_auth := fun _ => false; fprint_join_raises := false |}.

(** The same when the fingerprint thread has ended by the time it is
    joined. *)
Definition fingerprint_thread_over : Ambient :=
  {| stdscr := sample_window; clock := ["12:34"];
     worker_auth := fun _ => false; fprint_join_raises := true |}.

(** The reflexive and transitive closure of [step]. *)
Inductive steps (cfg : Config) : TTYSafeLock.t -> TTYSafeLock.t -> Prop :=
| steps_refl (st : TTYSafeLock.t) : steps cfg st st
| steps_cons (st st' st'' : TTYSafeLock.t) :
    step cfg st st' -> steps cfg st' st'' -> steps cfg st st''.

(** [n] presses of the same key, one after the other. *)
Fixpoint presses (cfg : Config) (ch : Z) (amb : Ambient) (n : nat)
  (st : TTYSafeLock.t) : TTYSafeLock.t :=
  match n with
  | O => st
  | S n' => presses cfg ch amb n' (fst (fst (handle_input cfg st ch amb)))
  end.

(** The value of the unlock event at a test, after the worker successes of
    the [k] tests that start at index [a]. *)
Definition seen (workers : nat -> bool) (ev : Event) (a k : nat) : bool :=
  ev || existsb workers (seq a k).

(** Whether the face worker gets a frame before it sees a stop request. *)
Fixpoint captured (iters : list FaceWorker.Iteration) : bool :=
  match iters with
  | [] => false
  | it :: rest =>
      if FaceWorker.stop_called it then false
      else if FaceWorker.ret it then true
      else captured rest
  end.

(** The session choice of a controller is in order: the choices are the
    keys of the session table, and the index is a position of the list, or 0
    when the list is empty. *)
Definition session_ok (cfg : Config) (st : TTYSafeLock.t) : Prop :=
  desktop_choices st = dict_keys (UNLOCK_COMMANDS cfg) /\
  (desktop_choices st = [] -> desktop_index st = 0) /\
  (desktop_choices st <> [] ->
   0 <= desktop_index st < Z.of_nat (List.length (desktop_choices st))).

(** The defaults with "gnome-x11" as the default session. *)
Definition x11_config : Config :=
  {| ANIM_ENABLED := true;
     ANIM_DURATION_IN := 55 # 100;
     ANIM_DURATION_OUT := 60 # 100;
     ANIM_IN_STYLE := "bounce";
     ANIM_OUT_STYLE := "slide-up";
     ENABLE_FACE := true;
     ENABLE_FINGERPRINT := true;
     SHAKE_AMPLITUDE := 3;
     TOLERANCE := 6 # 10;
     default_session := "gnome-x11";
     hint_text := "Space for password.";
     USERNAME := "alice";
     UNLOCK_COMMANDS_raw := unlock_commands_literal (fun _ => true);
     verify_password := String.eqb "a";
     face_match := fun _ _ _ => false |}.

(** A camera read that fails, and one that delivers a frame with no face. *)
Definition blind : FaceWorker.Iteration :=
  {| FaceWorker.stop_called := false; FaceWorker.ret := false;
     FaceWorker.encs := []; FaceWorker.now := 0 |}.

Definition sighted : FaceWorker.Iteration :=
  {| FaceWorker.stop_called := false; FaceWorker.ret := true;
     FaceWorker.encs := []; FaceWorker.now := 0 |}.

(** The text of the face worker's popup. *)
Definition no_faces_message : string := "No known faces configured".

(** A pass of the render loop with no key, in which a worker thread does
    [a]; and a pass in which the key [ch] is read. *)
Definition tick_with (a : Action) : Tick :=
  {| worker_actions := [a]; now1 := 0; now2 := 0; key := Getch (-1);
     amb := quiet |}.

Definition tick_key (ch : Z) : Tick :=
  {| worker_actions := []; now1 := 0; now2 := 0; key := Getch ch;
     amb := quiet |}.

(** The controller after space and the letter x: PasswordEntry with the
    buffer "x". *)
Definition typed_x : TTYSafeLock.t :=
  fst (fst (handle_input sample_config
              (fst (fst (handle_input sample_config
                           (TTYSafeLock.init sample_config) 32 quiet)))
              120 quiet)).

(** ** Drawing with a visibility mask *)

(** [s[k:]] and [s[:k]] for [k >= 0]. *)
Fixpoint str_drop (k : nat) (s : string) : string :=
  match k, s with
  | O, _ => s
  | S k', EmptyString => EmptyString
  | S k', String _ rest => str_drop k' rest
  end.

Fixpoint str_take (k : nat) (s : string) : string :=
  match k, s with
  | O, _ => EmptyString
  | S k', EmptyString => EmptyString
  | S k', String ch rest => String ch (str_take k' rest)
  end.

(** [_noise01] *)
Definition _noise01 (r c : Z) : Q :=
  let v := Z.lxor (Z.lxor (r * 73856093) (c * 19349663)) 2654435769 in
  let v := Z.land v 4294967295 in
  (inject_Z v / inject_Z 4294967295)%Q.

(** [''.join(ch if visible_fn(r, c) else ' ' for c, ch in enumerate(ln))],
    from column [c] on. *)
Fixpoint mask_line (visible : Z -> bool) (c : Z) (ln : string) : string :=
  match ln with
  | EmptyString => EmptyString
  | String ch rest =>
      String (if visible c then ch else " "%char)
        (mask_line visible (c + 1) rest)
  end.

(** One pass of the loop of [_draw_lines_mask] (lines 250-273): what is
    handed to [addstr] for line [r], if anything. *)
Definition draw_line_mask (stdscr : Window) (y x : Z)
  (visible_fn : Z -> Z -> bool) (attr : Attr) (r : Z) (ln : string)
  : list Effect :=
  let h := maxy stdscr in
  let w := maxx stdscr in
  let yy := y + r in
  if negb ((0 <=? yy) && (yy <? h)) then []
  else
    let seg := mask_line (visible_fn r) 0 ln in
    let seg := if x <? 0 then str_drop (Z.to_nat (- x)) seg else seg in
    let xx := if x <? 0 then 0 else x in
    if w <=? xx then []
    else
      let seg := str_take (Z.to_nat (Z.max 0 (w - xx))) seg in
      if truthy seg then [AddStr yy xx seg attr] else [].

(** [for r, ln in enumerate(lines)], from row [r] on. *)
Fixpoint draw_lines_from (stdscr : Window) (y x : Z)
  (visible_fn : Z -> Z -> bool) (attr : Attr) (r : Z) (lines : list string)
  : list Effect :=
  match lines with
  | [] => []
  | ln :: rest =>
      draw_line_mask stdscr y x visible_fn attr r ln
      ++ draw_lines_from stdscr y x visible_fn attr (r + 1) rest
  end.

(** [_draw_lines_mask]; a [curses.error] of [addstr] is swallowed. *)
Definition _draw_lines_mask (stdscr : Window) (y x : Z)
  (lines : list string) (visible_fn : Z -> Z -> bool) (attr : Attr)
  : list Effect :=
  draw_lines_from stdscr y x visible_fn attr 0 lines.

(** The mask of the animations: [lambda r, c: _noise01(r, c) < vis]. *)
Definition noise_mask (vis : Q) (r c : Z) : bool :=
  if Qlt_le_dec (_noise01 r c) vis then true else false.

(** What a frame of an animation hands to [addstr]: its call of
    [_draw_lines_mask], written out. *)
Definition addstr_calls (stdscr : Window) (e : Effect) : list Effect :=
  match e with
  | DrawLinesMask y x lines vis attr =>
      _draw_lines_mask stdscr y x lines (noise_mask vis) attr
  | _ => []
  end.



(** A popup whose message, when there is one, has a time stamp. *)
Definition popup_ok (p : PopupManager.t) : Prop :=
  PopupManager.message p <> None -> PopupManager.start_time p <> None.

(** The rows [_draw_lines_mask] draws for a block that needs no clipping. *)
Definition rows_at (y x : Z) (attr : Attr) (lines : list string)
  : list Effect :=
  map (fun rl => AddStr (y + Z.of_nat (fst rl)) x (snd rl) attr)
    (combine (seq 0 (List.length lines)) lines).

(** ** What a run does and does not *)

(** Whether a trace starts a process. *)
Definition is_popen (e : Effect) : bool :=
  match e with
  | Popen _ => true
  | _ => false
  end.

Definition launches (tr : list Effect) : bool := existsb is_popen tr.

(** Worker writes among which there is no success, and surroundings in
    which no worker succeeds during an animation. *)
Definition no_success (acts : list Action) : bool :=
  forallb (fun a => match a with OnSuccess _ _ => false | Show _ _ => true end)
    acts.

Definition silent (amb : Ambient) : Prop :=
  forall i : nat, worker_auth amb i = false.

Definition calm (tk : Tick) : Prop :=
  no_success (worker_actions tk) = true /\ silent (amb tk).

(** The message of the TypeError of line 447. *)
Definition line_447_error : Exc :=
  TypeError "shake_panel() got an unexpected keyword argument 'a'".

(** The defaults with a verifier that rejects every password. *)
Definition strict_config : Config :=
  {| ANIM_ENABLED := true;
     ANIM_DURATION_IN := 55 # 100;
     ANIM_DURATION_OUT := 60 # 100;
     ANIM_IN_STYLE := "bounce";
     ANIM_OUT_STYLE := "slide-up";
     ENABLE_FACE := true;
     ENABLE_FINGERPRINT := true;
     SHAKE_AMPLITUDE := 3;
     TOLERANCE := 6 # 10;
     default_session := "auto";
     hint_text := "Space for password.";
     USERNAME := "alice";
     UNLOCK_COMMANDS_raw := unlock_commands_literal (fun _ => false);
     verify_password := fun _ => false;
     face_match := fun _ _ _ => false |}.

(** A pass of the render loop in which Ctrl-C arrives. *)
Definition tick_interrupt : Tick :=
  {| worker_actions := []; now1 := 0; now2 := 0; key := CtrlC;
     amb := quiet |}.

(** How often the camera is released. *)
Fixpoint releases (tr : list WorkerStep) : nat :=
  match tr with
  | [] => O
  | ReleaseCamera :: rest => S (releases rest)
  | _ :: rest => releases rest
  end.

(** The text of the fingerprint worker's popup. *)
Definition fingerprint_hint : string := "Use fingerprint or press Space".

(** A stop request, a frame that shows a known face, and a fingerprint that
    is refused. *)
Definition halt : FaceWorker.Iteration :=
  {| FaceWorker.stop_called := true; FaceWorker.ret := true;
     FaceWorker.encs := []; FaceWorker.now := 0 |}.

Definition known_face : FaceWorker.Iteration :=
  {| FaceWorker.stop_called := false; FaceWorker.ret := true;
     FaceWorker.encs := [[1%Q]]; FaceWorker.now := 0 |}.

Definition refused : FingerprintWorker.Iteration :=
  {| FingerprintWorker.stop_called := false;
     FingerprintWorker.verified := false; FingerprintWorker.now := 0 |}.

Definition accepted : FingerprintWorker.Iteration :=
  {| FingerprintWorker.stop_called := false;
     FingerprintWorker.verified := true; FingerprintWorker.now := 0 |}.

(** The defaults with a face matcher that accepts every face. *)
Definition lenient_config : Config :=
  {| ANIM_ENABLED := true;
     ANIM_DURATION_IN := 55 # 100;
     ANIM_DURATION_OUT := 60 # 100;
     ANIM_IN_STYLE := "bounce";
     ANIM_OUT_STYLE := "slide-up";
     ENABLE_FACE := true;
     ENABLE_FINGERPRINT := true;
     SHAKE_AMPLITUDE := 3;
     TOLERANCE := 6 # 10;
     default_session := "auto";
     hint_text := "Space for password.";
     USERNAME := "alice";
     UNLOCK_COMMANDS_raw := unlock_commands_literal (fun _ => false);
     verify_password := String.eqb "a";
     face_match := fun _ _ _ => true |}.

(** ** Reading the configuration *)

(** The JSON values of the configuration. *)
Inductive Json : Type :=
| JInt (z : Z)
| JNum (q : Q)
| JBool (b : bool)
| JStr (s : string)
| JNull.

(** What [CONFIG_FILE] holds: nothing, text that [json.load] rejects with
    JSONDecodeError, a JSON object, or another JSON value. *)
Inductive ConfigFile : Type :=
| Missing
| Malformed
| Object (d : list (string * Json))
| NotObject (v : Json).

(** What [load_config] gives: a dict, or the AttributeError of calling
    [setdefault] on a value that is no dict, which the [except] clause of
    line 50 does not name. *)
Inductive Loaded : Type :=
| Settings (d : list (string * Json))
| AttributeError.

(** [d.get(k)] and [d.setdefault(k, v)] on a dict in insertion order. *)
Fixpoint json_get (d : list (string * Json)) (k : string) : option Json :=
  match d with
  | [] => None
  | (k', v) :: d' => if String.eqb k' k then Some v else json_get d' k
  end.

Definition setdefault (d : list (string * Json)) (k : string) (v : Json)
  : list (string * Json) :=
  match json_get d k with
  | Some _ => d
  | None => d ++ [(k, v)]
  end.

(** The [defaults] of lines 26-40; the two arrows of the hint text, U+2190
    and U+2192, are written "<-" and "->". *)
Definition defaults : list (string * Json) :=
  [ ("camera_index", JInt 0);
    ("tolerance", JNum (6 # 10));
    ("enable_animations", JBool true);
    ("anim_duration_in", JNum (55 # 100));
    ("anim_duration_out", JNum (60 # 100));
    ("anim_in_style", JStr "bounce");
    ("anim_out_style", JStr "slide-up");
    ("enable_face_recognition", JBool true);
    ("enable_fingerprint", JBool true);
    ("clock_font", JStr "digital");
    ("hint_text", JStr "Use <-/-> to change session. Space for password.");
    ("shake_intensity", JInt 3);
    ("default_session", JStr "auto") ].

(** [for key, value in defaults.items(): config.setdefault(key, value)] *)
Definition fill_defaults (config : list (string * Json))
  (items : list (string * Json)) : list (string * Json) :=
  fold_left (fun c kv => setdefault c (fst kv) (snd kv)) items config.

(** [load_config] *)
Definition load_config (file : ConfigFile) : Loaded :=
  match file with
  | Missing => Settings defaults
  | Malformed => Settings defaults
  | Object config => Settings (fill_defaults config defaults)
  | NotObject _ => AttributeError
  end.

(** ** Checking a password against the password file *)

(** [str.isspace] on the characters below 256. *)
Definition is_space (c : ascii) : bool :=
  let n := nat_of_ascii c in
  ((9 <=? n) && (n <=? 13))%nat || ((28 <=? n) && (n <=? 32))%nat
  || (n =? 133)%nat || (n =? 160)%nat.

Fixpoint lstrip (s : string) : string :=
  match s with
  | EmptyString => EmptyString
  | String c rest => if is_space c then lstrip rest else s
  end.

Fixpoint rstrip (s : string) : string :=
  match s with
  | EmptyString => EmptyString
  | String c rest =>
      match rstrip rest with
      | EmptyString => if is_space c then EmptyString
                       else String c EmptyString
      | r => String c r
      end
  end.

(** [s.strip()] *)
Definition strip (s : string) : string := rstrip (lstrip s).

(** [s.split(":")] *)
Fixpoint split_colon (s : string) : list string :=
  match s with
  | EmptyString => [EmptyString]
  | String c rest =>
      if Ascii.eqb c ":"%char then EmptyString :: split_colon rest
      else
        match split_colon rest with
        | h :: t => String c h :: t
        | [] => [String c EmptyString]
        end
  end.

(** What [PASS_FILE] holds: nothing, something that cannot be read, or
    text. *)
Inductive PassFile : Type :=
| NoPassFile
| Unreadable
| PassText (content : string).

(** [verify_password]; [sha256_hex s] is
    [hashlib.sha256(s.encode()).hexdigest()], and [pam] is [_pam_auth_fn]
    when there is one. *)
Definition verify_password_file (sha256_hex : string -> string)
  (pass_file : PassFile) (pam : option (string -> string -> bool))
  (username password : string) : bool :=
  match pass_file with
  | PassText content =>
      match split_colon (strip content) with
      | [salt; saved_hash] =>
          String.eqb (sha256_hex (String.append salt password)) saved_hash
      | _ => false
      end
  | Unreadable => false
  | NoPassFile =>
      match pam with
      | Some auth => auth username password
      | None => false
      end
  end.

(** What [set_password] of the settings program writes (test.py, line
    297): [f"{salt}:{hashed}"]. *)
Definition pass_file_text (sha256_hex : string -> string)
  (salt new_pass : string) : string :=
  String.append salt
    (String.append ":" (sha256_hex (String.append salt new_pass))).

(** Lower-case hexadecimal text, as [token_hex] and [hexdigest] give. *)
Definition is_hex_digit (c : ascii) : bool :=
  let n := nat_of_ascii c in
  ((48 <=? n) && (n <=? 57))%nat || ((97 <=? n) && (n <=? 102))%nat.

Fixpoint is_hex (s : string) : bool :=
  match s with
  | EmptyString => true
  | String c rest => is_hex_digit c && is_hex rest
  end.

(** ** The big clock *)

(** [BIG_DIGITS], with '#' standing for the block character U+2588. *)
Definition BIG_DIGITS (ch : ascii) : option (list string) :=
  match ch with
  | "0"%char => Some [" ### "; "#   #"; "#   #"; "#   #"; " ### "]
  | "1"%char => Some ["  #  "; " ##  "; "  #  "; "  #  "; " ### "]
  | "2"%char => Some [" ### "; "#   #"; "  ## "; " #   "; "#####"]
  | "3"%char => Some [" ### "; "#   #"; "  ## "; "#   #"; " ### "]
  | "4"%char => Some ["#  # "; "#  # "; "#####"; "   # "; "   # "]
  | "5"%char => Some ["#####"; "#    "; "#### "; "    #"; "#### "]
  | "6"%char => Some [" ### "; "#    "; "#### "; "#   #"; " ### "]
  | "7"%char => Some ["#####"; "    #"; "   # "; "  #  "; "  #  "]
  | "8"%char => Some [" ### "; "#   #"; " ### "; "#   #"; " ### "]
  | "9"%char => Some [" ### "; "#   #"; " ####"; "    #"; " ### "]
  | ":"%char => Some ["     "; "  #  "; "     "; "  #  "; "     "]
  | _ => None
  end.

(** [BIG_DIGITS.get(ch, ["     "] * 5)] *)
Definition big_glyph (ch : ascii) : list string :=
  match BIG_DIGITS ch with
  | Some rows => rows
  | None => repeat "     " 5
  end.

(** [for i, part in enumerate(parts): lines[i] += part + "  "]; there are
    never more parts than lines. *)
Fixpoint add_parts (lines parts : list string) : list string :=
  match lines, parts with
  | l :: ls, p :: ps =>
      String.append l (String.append p "  ") :: add_parts ls ps
  | _, _ => lines
  end.

(** [render_big_time] *)
Fixpoint render_onto (lines : list string) (timestr : string)
  : list string :=
  match timestr with
  | EmptyString => lines
  | String ch rest => render_onto (add_parts lines (big_glyph ch)) rest
  end.

Definition render_big_time (timestr : string) : list string :=
  render_onto (repeat "" 5) timestr.

(** A stand-in for the hash, to compute with. *)
Definition toy_hash (s : string) : string :=
  if String.eqb s "5fsecret" then "ab" else "ba".

(** Text without a blank character, and the number of colons of a text. *)
Fixpoint solid (s : string) : bool :=
  match s with
  | EmptyString => true
  | String c rest => negb (is_space c) && solid rest
  end.

Fixpoint colons (s : string) : nat :=
  match s with
  | EmptyString => O
  | String c rest =>
      if Ascii.eqb c ":"%char then S (colons rest) else colons rest
  end.

(** Where a frame of an animation puts the block: the row and the column of
    its call of [_draw_lines_mask]. *)
Fixpoint frame_position (frame : list Effect) : option (Z * Z) :=
  match frame with
  | [] => None
  | DrawLinesMask y x _ _ _ :: _ => Some (y, x)
  | _ :: rest => frame_position rest
  end.

(** * Properties *)

(** ** Easing *)

Section EasingFacts.
Local Open Scope Q_scope.

Lemma clamp01_range (t : Q) : 0 <= clamp01 t /\ clamp01 t <= 1.
Proof.
  unfold clamp01. split.
  - apply Q.le_max_l.
  - apply Q.max_lub; [lra | apply Q.le_min_l].
Qed.

Lemma clamp01_id (t : Q) : 0 <= t -> t <= 1 -> clamp01 t == t.
Proof.
  intros H0 H1. unfold clamp01.
  rewrite (Q.min_r 1 t) by exact H1.
  apply Q.max_r. exact H0.
Qed.

Lemma clamp01_mono (s t : Q) : s <= t -> clamp01 s <= clamp01 t.
Proof.
  intros Hst. unfold clamp01.
  apply Q.max_le_compat_l. apply Q.min_le_compat_l. exact Hst.
Qed.

(** The four parabolas of the bounce stay inside [0, 1]. *)
Lemma bounce_segments (u : Q) :
  0 <= u -> u <= 1 ->
  0 <= (if Qlt_le_dec u (1 / d1) then n1 * u * u
        else if Qlt_le_dec u (2 / d1) then
          let t := u - (15 # 10) / d1 in n1 * t * t + (75 # 100)
        else if Qlt_le_dec u ((25 # 10) / d1) then
          let t := u - (225 # 100) / d1 in n1 * t * t + (9375 # 10000)
        else
          let t := u - (2625 # 1000) / d1 in
          n1 * t * t + (984375 # 1000000)) <= 1.
Proof.
  intros H0 H1.
  assert (E1 : 1 / d1 == 4 # 11) by reflexivity.
  assert (E2 : 2 / d1 == 8 # 11) by reflexivity.
  assert (E3 : (25 # 10) / d1 == 10 # 11) by reflexivity.
  assert (E4 : (15 # 10) / d1 == 6 # 11) by reflexivity.
  assert (E5 : (225 # 100) / d1 == 9 # 11) by reflexivity.
  assert (E6 : (2625 # 1000) / d1 == 21 # 22) by reflexivity.
  unfold n1.
  destruct (Qlt_le_dec u (1 / d1)) as [L1|L1].
  - rewrite E1 in L1. split; nra.
  - destruct (Qlt_le_dec u (2 / d1)) as [L2|L2].
    + cbv zeta. rewrite E1 in L1. rewrite E2 in L2. rewrite E4. split; nra.
    + destruct (Qlt_le_dec u ((25 # 10) / d1)) as [L3|L3].
      * cbv zeta. rewrite E2 in L2. rewrite E3 in L3. rewrite E5.
        split; nra.
      * cbv zeta. rewrite E3 in L3. rewrite E6. split; nra.
Qed.

Lemma bounce_unit_interval (t : Q) :
  0 <= _ease_out_bounce t /\ _ease_out_bounce t <= 1.
Proof.
  unfold _ease_out_bounce. cbv zeta.
  destruct (clamp01_range t) as [H0 H1].
  exact (bounce_segments (clamp01 t) H0 H1).
Qed.

Lemma cubic_mono_clamped (a b : Q) :
  0 <= a -> a <= b -> b <= 1 -> 1 - (1 - a) ^ 3 <= 1 - (1 - b) ^ 3.
Proof.
  intros Ha Hab Hb.
  assert (Hx : 0 <= 1 - b) by lra.
  assert (Hy : 1 - b <= 1 - a) by lra.
  set (x := 1 - b) in *. set (y := 1 - a) in *.
  assert (H3 : x ^ 3 <= y ^ 3).
  { simpl.
    assert (Hxx : x * x <= y * y) by nra.
    assert (Hy0 : 0 <= y) by lra.
    nra. }
  lra.
Qed.

Lemma cubic_mono (s t : Q) :
  s <= t -> _ease_out_cubic s <= _ease_out_cubic t.
Proof.
  intros Hst. unfold _ease_out_cubic. cbv zeta.
  apply cubic_mono_clamped.
  - apply clamp01_range.
  - apply clamp01_mono. exact Hst.
  - apply clamp01_range.
Qed.

(** C6. The bounce easing is 0 at t = 0 and 1 at t = 1; for s <= t in
    [0, 1] the bounce value at t is non-negative and at most 1.01 (it never
    exceeds 1), and the cubic easing at s is at most the one at t. *)
Theorem easing_endpoints_bounds_monotone (s t : Q)
  (Hs : 0 <= s) (Hst : s <= t) (Ht : t <= 1) :
  _ease_out_bounce 0 == 0 /\
  _ease_out_bounce 1 == 1 /\
  0 <= _ease_out_bounce t /\
  _ease_out_bounce t <= 101 # 100 /\
  _ease_out_cubic s <= _ease_out_cubic t.
Proof.
  split; [reflexivity|].
  split; [reflexivity|].
  destruct (bounce_unit_interval t) as [B0 B1].
  split; [exact B0|].
  split; [lra|].
  apply cubic_mono. exact Hst.
Qed.

Lemma easing_endpoints_bounds_monotone_witness :
  _ease_out_bounce 0 == 0 /\
  _ease_out_bounce 1 == 1 /\
  0 <= _ease_out_bounce (3 # 4) /\
  _ease_out_bounce (3 # 4) <= 101 # 100 /\
  _ease_out_cubic (1 # 4) <= _ease_out_cubic (3 # 4).
Proof.
  apply (easing_endpoints_bounds_monotone (1 # 4) (3 # 4)); lra.
Defined.

End EasingFacts.

(** ** Popup notifier *)

Section PopupFacts.
Import PopupManager.

Lemma render_without_message (p : PopupManager.t) (win : Window)
  (a b : Q) :
  message p = None -> render p win a b = (p, [], None).
Proof.
  intros Hm. unfold render. rewrite Hm. reflexivity.
Qed.

Lemma render_expired (p : PopupManager.t) (win : Window) (t0 a b : Q) :
  start_time p = Some t0 -> (1 < a - t0)%Q ->
  snd (fst (render p win a b)) = [] /\
  snd (render p win a b) = None /\
  forall (win' : Window) (a' b' : Q),
    snd (fst (render (fst (fst (render p win a b))) win' a' b')) = [].
Proof.
  intros Hs Hlate. unfold render at 1 2 4. rewrite Hs.
  destruct (message p) as [m|] eqn:Hm.
  - destruct (truthy m) eqn:Hn; simpl.
    + destruct (Qlt_le_dec 1 (a - t0)) as [_|Hle]; [|lra].
      simpl. repeat split; intros; reflexivity.
    + repeat split. intros. unfold render. rewrite Hm, Hn. reflexivity.
  - repeat split. intros. rewrite render_without_message by exact Hm.
    reflexivity.
Qed.

Lemma render_live (p : PopupManager.t) (win : Window) (m : string)
  (t0 a b : Q) :
  message p = Some m -> truthy m = true -> start_time p = Some t0 ->
  (a - t0 <= 1)%Q ->
  exists attr : Attr,
    render p win a b =
    (p, [AddStr (maxy win - 3) (maxx win / 2 - len m / 2) m attr], None).
Proof.
  intros Hm Hn Hs Hin. unfold render. rewrite Hm, Hn, Hs. simpl.
  destruct (Qlt_le_dec 1 (a - t0)) as [Hlt|_]; [lra|].
  eexists. reflexivity.
Qed.

(** C9. The notifier has one message field: [show] replaces whatever was
    there by the new text and stamps it with the current time, whatever the
    state before; once the time read by [render] is more than 1.0 after the
    stamp, [render] draws nothing and raises nothing, and no later [render]
    draws anything either, without any call that clears the message. *)
Theorem popup_show_replaces_and_expires (p : PopupManager.t)
  (text : string) (t0 a b : Q) (win : Window) (Hlate : (1 < a - t0)%Q) :
  let p1 := show p text t0 in
  message p1 = Some text /\
  start_time p1 = Some t0 /\
  snd (fst (render p1 win a b)) = [] /\
  snd (render p1 win a b) = None /\
  forall (win' : Window) (a' b' : Q),
    snd (fst (render (fst (fst (render p1 win a b))) win' a' b')) = [].
Proof.
  intros p1.
  split; [reflexivity|]. split; [reflexivity|].
  apply (render_expired p1 win t0 a b); [reflexivity | exact Hlate].
Qed.

Lemma popup_show_replaces_and_expires_witness :
  let p1 := show (show init "old" 0) "new" (1 # 2) in
  message p1 = Some "new" /\
  start_time p1 = Some (1 # 2) /\
  snd (fst (render p1 sample_window 2 2)) = [] /\
  snd (render p1 sample_window 2 2) = None /\
  forall (win' : Window) (a' b' : Q),
    snd (fst (render (fst (fst (render p1 sample_window 2 2)))
                win' a' b')) = [].
Proof.
  apply (popup_show_replaces_and_expires (show init "old" 0) "new"
           (1 # 2) 2 2 sample_window).
  reflexivity.
Defined.

End PopupFacts.

(** ** Session choice *)

Section SessionFacts.

Lemma list_index_found (x : string) (l : list string) :
  str_in x l = true ->
  exists i : Z,
    list_index x l = Some i /\
    0 <= i < Z.of_nat (List.length l) /\
    nth_error l (Z.to_nat i) = Some x.
Proof.
  induction l as [|y l IH]; simpl; [discriminate|].
  intros Hin. rewrite String.eqb_sym in Hin.
  destruct (String.eqb y x) eqn:Hyx.
  - apply String.eqb_eq in Hyx. subst y.
    exists 0. repeat split; lia.
  - simpl in Hin. destruct (IH Hin) as (i & Hi & Hr & Hn).
    exists (Z.succ i). rewrite Hi. simpl.
    split; [reflexivity|]. split; [lia|].
    replace (Z.to_nat (Z.succ i)) with (S (Z.to_nat i)) by lia.
    exact Hn.
Qed.

Lemma list_get_nonneg (l : list string) (i : Z) :
  0 <= i -> list_get l i = nth_error l (Z.to_nat i).
Proof.
  intros Hi. unfold list_get.
  destruct (i <? 0) eqn:Hneg; [apply Z.ltb_lt in Hneg; lia | reflexivity].
Qed.

Lemma list_get_valid (l : list string) (i : Z) :
  0 <= i < Z.of_nat (List.length l) -> exists k, list_get l i = Some k.
Proof.
  intros Hi. rewrite list_get_nonneg by lia.
  destruct (nth_error l (Z.to_nat i)) as [k|] eqn:Hn; [eauto|].
  apply nth_error_None in Hn. lia.
Qed.

Lemma init_choices (cfg : Config) :
  desktop_choices (TTYSafeLock.init cfg) = dict_keys (UNLOCK_COMMANDS cfg).
Proof. reflexivity. Qed.

Lemma init_index_found (cfg : Config) :
  str_in (default_session cfg) (dict_keys (UNLOCK_COMMANDS cfg)) = true ->
  list_index (default_session cfg) (dict_keys (UNLOCK_COMMANDS cfg))
    = Some (desktop_index (TTYSafeLock.init cfg)) /\
  0 <= desktop_index (TTYSafeLock.init cfg)
    < Z.of_nat (List.length (dict_keys (UNLOCK_COMMANDS cfg))) /\
  list_get (dict_keys (UNLOCK_COMMANDS cfg))
    (desktop_index (TTYSafeLock.init cfg)) = Some (default_session cfg).
Proof.
  intros Hin. unfold TTYSafeLock.init. simpl. rewrite Hin.
  destruct (list_index_found _ _ Hin) as (i & Hi & Hr & Hn).
  rewrite Hi. split; [reflexivity|]. split; [exact Hr|].
  rewrite list_get_nonneg by lia. exact Hn.
Qed.

Lemma init_index_other (cfg : Config) :
  str_in (default_session cfg) (dict_keys (UNLOCK_COMMANDS cfg)) = false ->
  desktop_index (TTYSafeLock.init cfg) = 0.
Proof.
  intros Hout. unfold TTYSafeLock.init. simpl. rewrite Hout. reflexivity.
Qed.

Lemma init_index_valid (cfg : Config) :
  dict_keys (UNLOCK_COMMANDS cfg) <> [] ->
  0 <= desktop_index (TTYSafeLock.init cfg)
    < Z.of_nat (List.length (dict_keys (UNLOCK_COMMANDS cfg))).
Proof.
  intros Hne.
  destruct (str_in (default_session cfg) (dict_keys (UNLOCK_COMMANDS cfg)))
    eqn:Hin.
  - exact (proj1 (proj2 (init_index_found cfg Hin))).
  - rewrite (init_index_other cfg Hin).
    destruct (dict_keys (UNLOCK_COMMANDS cfg)); [contradiction|].
    simpl. lia.
Qed.

(** "auto" is no key of the session table of lines 108-114. *)
Lemma auto_is_no_session (which : string -> bool) :
  str_in "auto"
    (dict_keys (filter (fun kv => truthy (snd kv))
                  (unlock_commands_literal which))) = false.
Proof.
  unfold unlock_commands_literal. simpl.
  destruct (truthy (kde_command which)); reflexivity.
Qed.

(** C10. A fresh controller starts at the first position of the configured
    default session when that key is among the discovered ones, and at 0
    for every other value; "auto" is no key of the session table of the
    source, so it gives 0; the starting index is a valid position as soon
    as there is a session. *)
Theorem init_session_index (cfg : Config) :
  let st := TTYSafeLock.init cfg in
  desktop_choices st = dict_keys (UNLOCK_COMMANDS cfg) /\
  (str_in (default_session cfg) (desktop_choices st) = true ->
   list_index (default_session cfg) (desktop_choices st)
     = Some (desktop_index st) /\
   list_get (desktop_choices st) (desktop_index st)
     = Some (default_session cfg)) /\
  (str_in (default_session cfg) (desktop_choices st) = false ->
   desktop_index st = 0) /\
  (forall which : string -> bool,
     UNLOCK_COMMANDS_raw cfg = unlock_commands_literal which ->
     default_session cfg = "auto" -> desktop_index st = 0) /\
  (desktop_choices st <> [] ->
   0 <= desktop_index st < Z.of_nat (List.length (desktop_choices st))).
Proof.
  intros st. subst st. rewrite init_choices.
  split; [reflexivity|]. split.
  { intros Hin. destruct (init_index_found cfg Hin) as (Hi & _ & Hg).
    split; assumption. }
  split; [exact (init_index_other cfg)|]. split.
  { intros which Hraw Hauto. apply init_index_other.
    unfold UNLOCK_COMMANDS. rewrite Hraw, Hauto.
    apply auto_is_no_session. }
  exact (init_index_valid cfg).
Qed.

Lemma init_session_index_witness :
  desktop_choices (TTYSafeLock.init x11_config)
    = ["gnome-wayland"; "gnome-x11"; "kde"] /\
  desktop_index (TTYSafeLock.init x11_config) = 1 /\
  list_get (desktop_choices (TTYSafeLock.init x11_config))
    (desktop_index (TTYSafeLock.init x11_config)) = Some "gnome-x11" /\
  desktop_index (TTYSafeLock.init sample_config) = 0 /\
  0 <= desktop_index (TTYSafeLock.init x11_config) < 3.
Proof.
  destruct (init_session_index x11_config) as (Hc & Hin & _ & _ & Hv).
  destruct (init_session_index sample_config) as (_ & _ & _ & Hauto & _).
  split; [exact Hc|].
  destruct (Hin eq_refl) as [Hi Hg].
  split; [reflexivity|].
  split; [exact Hg|].
  split; [exact (Hauto (fun _ => false) eq_refl eq_refl)|].
  apply Hv. discriminate.
Defined.

End SessionFacts.

(** ** The controller keeps its session choice in order *)

Section ControllerFacts.
Variable cfg : Config.

Lemma handle_password_input_session (st : TTYSafeLock.t) (ch : Z)
  (amb : Ambient) :
  let st' := fst (fst (handle_password_input cfg st ch amb)) in
  desktop_choices st' = desktop_choices st /\
  desktop_index st' = desktop_index st.
Proof.
  unfold handle_password_input.
  destruct (ch =? 27).
  { destruct (play_anim _ _ _ _ _ _ _ _ _) as [ev tr]. simpl. auto. }
  destruct ((ch =? 10) || (ch =? 13)).
  { destruct (verify_password cfg (password_buffer st)); [simpl; auto|].
    destruct (call_shake_panel _ _ _ _) as [[ev tr] [e|]]; [simpl; auto|].
    destruct ev; simpl; auto. }
  destruct ((ch =? KEY_BACKSPACE) || (ch =? 127) || (ch =? 8));
    [simpl; auto|].
  destruct ((32 <=? ch) && (ch <? 256)); simpl; auto.
Qed.

Lemma handle_main_input_choices (st : TTYSafeLock.t) (ch : Z)
  (amb : Ambient) :
  desktop_choices (fst (fst (handle_main_input cfg st ch amb)))
  = desktop_choices st.
Proof.
  unfold handle_main_input.
  destruct (ch =? 32).
  { destruct (play_anim _ _ _ _ _ _ _ _ _) as [ev tr]. reflexivity. }
  destruct (ch =? KEY_LEFT); [reflexivity|].
  destruct (ch =? KEY_RIGHT); reflexivity.
Qed.

Lemma handle_main_input_left (st : TTYSafeLock.t) (amb : Ambient) :
  handle_main_input cfg st KEY_LEFT amb =
  (with_index st
     (match desktop_choices st with
      | [] => 0
      | _ :: _ =>
          (desktop_index st - 1)
            mod Z.of_nat (List.length (desktop_choices st))
      end), [], None).
Proof. reflexivity. Qed.

Lemma handle_main_input_right (st : TTYSafeLock.t) (amb : Ambient) :
  handle_main_input cfg st KEY_RIGHT amb =
  (with_index st
     (match desktop_choices st with
      | [] => 0
      | _ :: _ =>
          (desktop_index st + 1)
            mod Z.of_nat (List.length (desktop_choices st))
      end), [], None).
Proof. reflexivity. Qed.

Lemma handle_main_input_session (st : TTYSafeLock.t) (ch : Z)
  (amb : Ambient) :
  session_ok cfg st ->
  session_ok cfg (fst (fst (handle_main_input cfg st ch amb))).
Proof.
  intros (Hk & H0 & Hv). unfold handle_main_input.
  destruct (ch =? 32).
  { destruct (play_anim _ _ _ _ _ _ _ _ _) as [ev tr]. simpl.
    split; [exact Hk|]. split; [exact H0 | exact Hv]. }
  assert (Hmove : forall d : Z,
    session_ok cfg
      (with_index st
         (match desktop_choices st with
          | [] => 0
          | _ :: _ =>
              (desktop_index st + d)
                mod Z.of_nat (List.length (desktop_choices st))
          end))).
  { intros d. unfold session_ok. simpl.
    destruct (desktop_choices st) as [|k ks] eqn:Hc.
    - repeat split; auto; contradiction.
    - split; [exact Hk|]. split; [discriminate|].
      intros _. apply Z.mod_pos_bound. simpl. lia. }
  destruct (ch =? KEY_LEFT); [exact (Hmove (-1))|].
  destruct (ch =? KEY_RIGHT); [exact (Hmove 1)|].
  simpl. split; [exact Hk|]. split; [exact H0 | exact Hv].
Qed.

Lemma step_session (st st' : TTYSafeLock.t) :
  step cfg st st' -> session_ok cfg st -> session_ok cfg st'.
Proof.
  intros Hstep Hok. destruct Hstep as [st a|st ch amb|st win a b|st amb sty en d f].
  - destruct a; exact Hok.
  - unfold handle_input. destruct (password_mode st).
    + destruct (handle_password_input_session st ch amb) as [Hc Hi].
      unfold session_ok. rewrite Hc, Hi. exact Hok.
    + apply handle_main_input_session. exact Hok.
  - exact Hok.
  - exact Hok.
Qed.

Lemma init_session_ok : session_ok cfg (TTYSafeLock.init cfg).
Proof.
  unfold session_ok. rewrite init_choices.
  split; [reflexivity|]. split; [|exact (init_index_valid cfg)].
  intros Hnil. apply init_index_other. rewrite Hnil. reflexivity.
Qed.

Lemma reachable_session_ok (st : TTYSafeLock.t) :
  reachable cfg st -> session_ok cfg st.
Proof.
  induction 1 as [|st st' _ IH Hstep].
  - exact init_session_ok.
  - exact (step_session st st' Hstep IH).
Qed.

(** One press of left or right in MainScreen, with a valid index. *)
Lemma press_move (st : TTYSafeLock.t) (amb : Ambient) (ch d : Z) :
  (ch = KEY_LEFT /\ d = -1) \/ (ch = KEY_RIGHT /\ d = 1) ->
  password_mode st = false ->
  0 <= desktop_index st < Z.of_nat (List.length (desktop_choices st)) ->
  let st' := fst (fst (handle_input cfg st ch amb)) in
  password_mode st' = false /\
  desktop_choices st' = desktop_choices st /\
  desktop_index st'
    = (desktop_index st + d)
        mod Z.of_nat (List.length (desktop_choices st)).
Proof.
  intros Hch Hm Hv. unfold handle_input. rewrite Hm.
  destruct (desktop_choices st) as [|k ks] eqn:Hc; [simpl in Hv; lia|].
  destruct Hch as [[-> ->]|[-> ->]].
  - rewrite handle_main_input_left, Hc. simpl. rewrite Hc. auto.
  - rewrite handle_main_input_right, Hc. simpl. rewrite Hc. auto.
Qed.

Lemma presses_move (amb : Ambient) (ch d : Z) (n : nat) :
  (ch = KEY_LEFT /\ d = -1) \/ (ch = KEY_RIGHT /\ d = 1) ->
  forall st : TTYSafeLock.t,
    password_mode st = false ->
    0 <= desktop_index st < Z.of_nat (List.length (desktop_choices st)) ->
    desktop_index (presses cfg ch amb n st)
    = (desktop_index st + d * Z.of_nat n)
        mod Z.of_nat (List.length (desktop_choices st)).
Proof.
  intros Hch. induction n as [|n IH]; intros st Hm Hv.
  - simpl. rewrite Z.mul_0_r, Z.add_0_r. symmetry.
    apply Z.mod_small. exact Hv.
  - cbn [presses].
    destruct (press_move st amb ch d Hch Hm Hv) as (Hm' & Hc' & Hi').
    rewrite IH; [| exact Hm' | rewrite Hc', Hi'; apply Z.mod_pos_bound; lia].
    rewrite Hc', Hi'.
    rewrite Zplus_mod_idemp_l. f_equal. lia.
Qed.

(** C5. In MainScreen, a left or right key leaves the session index of a
    controller with no session as it is; with N sessions and a valid index
    it moves the index by minus or plus one modulo N and stays in
    MainScreen, so N presses of the same key bring the index back. *)
Theorem session_navigation_wraps (st : TTYSafeLock.t) (amb : Ambient)
  (Hmain : password_mode st = false) :
  let N := Z.of_nat (List.length (desktop_choices st)) in
  let left := fst (fst (handle_input cfg st KEY_LEFT amb)) in
  let right := fst (fst (handle_input cfg st KEY_RIGHT amb)) in
  password_mode left = false /\
  password_mode right = false /\
  (reachable cfg st -> desktop_choices st = [] ->
   desktop_index left = desktop_index st /\
   desktop_index right = desktop_index st) /\
  (0 <= desktop_index st < N ->
   desktop_index left = (desktop_index st - 1) mod N /\
   desktop_index right = (desktop_index st + 1) mod N /\
   desktop_index (presses cfg KEY_LEFT amb (Z.to_nat N) st)
     = desktop_index st /\
   desktop_index (presses cfg KEY_RIGHT amb (Z.to_nat N) st)
     = desktop_index st).
Proof.
  intros N left right. subst left right. unfold handle_input.
  rewrite Hmain, handle_main_input_left, handle_main_input_right. simpl.
  split; [exact Hmain|]. split; [exact Hmain|]. split.
  - intros Hreach Hnil.
    destruct (reachable_session_ok st Hreach) as (_ & H0 & _).
    rewrite Hnil. rewrite (H0 Hnil). auto.
  - intros Hv.
    assert (HL : (KEY_LEFT = KEY_LEFT /\ -1 = -1) \/
                 (KEY_LEFT = KEY_RIGHT /\ -1 = 1)) by (left; auto).
    assert (HR : (KEY_RIGHT = KEY_LEFT /\ 1 = -1) \/
                 (KEY_RIGHT = KEY_RIGHT /\ 1 = 1)) by (right; auto).
    destruct (desktop_choices st) as [|k ks] eqn:Hc;
      [subst N; simpl in Hv; lia|].
    fold N. split; [reflexivity|]. split; [reflexivity|].
    pose proof (presses_move amb KEY_LEFT (-1) (Z.to_nat N) HL st Hmain)
      as PL.
    pose proof (presses_move amb KEY_RIGHT 1 (Z.to_nat N) HR st Hmain)
      as PR.
    rewrite Hc in PL, PR. fold N in PL, PR.
    rewrite PL by exact Hv. rewrite PR by exact Hv.
    rewrite Z2Nat.id by lia.
    split.
    + replace (desktop_index st + -1 * N) with (desktop_index st + (-1) * N)
        by lia.
      rewrite Z.mod_add by lia. apply Z.mod_small. exact Hv.
    + rewrite Z.mod_add by lia. apply Z.mod_small. exact Hv.
Qed.

End ControllerFacts.

Lemma session_navigation_wraps_witness :
  let st := TTYSafeLock.init sample_config in
  let N := Z.of_nat (List.length (desktop_choices st)) in
  let left := fst (fst (handle_input sample_config st KEY_LEFT quiet)) in
  let right := fst (fst (handle_input sample_config st KEY_RIGHT quiet)) in
  password_mode left = false /\
  password_mode right = false /\
  (reachable sample_config st -> desktop_choices st = [] ->
   desktop_index left = desktop_index st /\
   desktop_index right = desktop_index st) /\
  (0 <= desktop_index st < N ->
   desktop_index left = (desktop_index st - 1) mod N /\
   desktop_index right = (desktop_index st + 1) mod N /\
   desktop_index (presses sample_config KEY_LEFT quiet (Z.to_nat N) st)
     = desktop_index st /\
   desktop_index (presses sample_config KEY_RIGHT quiet (Z.to_nat N) st)
     = desktop_index st).
Proof.
  exact (session_navigation_wraps sample_config
           (TTYSafeLock.init sample_config) quiet eq_refl).
Defined.

(** ** Animations and the unlock event *)

Section AnimationFacts.

Lemma frame_loop_prefix (body : nat -> list Effect) (workers : nat -> bool)
  (n : nat) :
  forall (a : nat) (ev : Event),
  exists k : nat,
    (k <= n)%nat /\
    snd (frame_loop body workers ev (seq a n)) = flat_map body (seq a k) /\
    (forall i : nat, (i < k)%nat -> seen workers ev a (S i) = false) /\
    ((k < n)%nat -> seen workers ev a (S k) = true).
Proof.
  induction n as [|n IH]; intros a ev.
  - exists O. simpl. repeat split; intros; lia.
  - cbn [seq frame_loop].
    destruct (is_set (interfere (workers a) ev)) eqn:Hset.
    + exists O. simpl. split; [lia|]. split; [reflexivity|].
      split; [intros; lia|].
      intros _. unfold seen. simpl.
        unfold interfere, is_set, Event_set in Hset.
        destruct (workers a); destruct ev; simpl in *; congruence.
    + assert (Hev : ev = false /\ workers a = false).
      { unfold interfere, is_set, Event_set in Hset.
        destruct (workers a); destruct ev; simpl in *; auto; discriminate. }
      destruct Hev as [Hev Hw].
      destruct (IH (S a) (interfere (workers a) ev)) as (k & Hk & Htr & Hlo & Hhi).
      exists (S k).
      destruct (frame_loop body workers (interfere (workers a) ev)
                  (seq (S a) n)) as [ev' tr] eqn:Hloop.
      simpl in Htr. simpl.
      assert (Hshift : forall j : nat,
                seen workers ev a (S (S j))
                = seen workers (interfere (workers a) ev) (S a) (S j)).
      { intros j. unfold seen. rewrite Hev. cbn [seq existsb].
        rewrite Hw. reflexivity. }
      repeat split.
      * lia.
      * rewrite Htr. reflexivity.
      * intros i Hi. destruct i as [|i].
        { unfold seen. cbn [seq existsb]. rewrite Hev, Hw. reflexivity. }
        { rewrite Hshift. apply Hlo. lia. }
      * intros Hlt. rewrite Hshift. apply Hhi. lia.
Qed.

Lemma frame_loop_preset (body : nat -> list Effect) (workers : nat -> bool)
  (ev : Event) (indices : list nat) :
  is_set ev = true -> frame_loop body workers ev indices = (true, []).
Proof.
  unfold is_set. intros ->. destruct indices as [|i rest]; [reflexivity|].
  simpl. unfold interfere. destruct (workers i); reflexivity.
Qed.

(** C7. Both animations test the unlock event before each frame: what they
    render is the frames 0 .. k-1 for some k, the event was clear at each of
    the tests 0 .. k-1, and when frames are left over (k is not past the
    last one, animations being enabled) the event was set at test k.  With
    the event set beforehand no frame at all is rendered. *)
Theorem animations_abort_on_unlock (cfg : Config) (win : Window)
  (lines : list string) (ev : Event) (workers : nat -> bool)
  (duration : Q) (fps : Z) :
  let n := Z.to_nat (frame_count duration fps + 1) in
  (exists k : nat,
     (k <= n)%nat /\
     snd (anim_slide cfg win lines ev workers duration fps "slide-up-out")
       = flat_map (slide_frame win lines duration fps) (seq 0 k) /\
     (forall i : nat, (i < k)%nat -> seen workers ev 0 (S i) = false) /\
     (ANIM_ENABLED cfg = true -> (k < n)%nat ->
      seen workers ev 0 (S k) = true)) /\
  (exists k : nat,
     (k <= n)%nat /\
     snd (anim_bounce_in cfg win lines ev workers duration fps)
       = flat_map (bounce_frame win lines duration fps) (seq 0 k) /\
     (forall i : nat, (i < k)%nat -> seen workers ev 0 (S i) = false) /\
     (ANIM_ENABLED cfg = true -> (k < n)%nat ->
      seen workers ev 0 (S k) = true)) /\
  (is_set ev = true ->
   anim_slide cfg win lines ev workers duration fps "slide-up-out"
     = (ev, []) /\
   anim_bounce_in cfg win lines ev workers duration fps = (ev, [])).
Proof.
  intros n. unfold anim_slide, anim_bounce_in, range. fold n.
  destruct (ANIM_ENABLED cfg) eqn:Hon; simpl.
  - split; [|split].
    + destruct (frame_loop_prefix (slide_frame win lines duration fps)
                  workers n O ev) as (k & Hk & Htr & Hlo & Hhi).
      exists k. auto.
    + destruct (frame_loop_prefix (bounce_frame win lines duration fps)
                  workers n O ev) as (k & Hk & Htr & Hlo & Hhi).
      exists k. auto.
    + intros Hset. rewrite !frame_loop_preset by exact Hset.
      unfold is_set in Hset. rewrite Hset. auto.
  - split; [|split].
    + exists O. simpl. repeat split; intros; try lia; discriminate.
    + exists O. simpl. repeat split; intros; try lia; discriminate.
    + auto.
Qed.

(** On a 24 x 80 window, a worker that succeeds just before the fourth test
    leaves three frames of the entry animation on the screen; with the event
    set beforehand there is none. *)
Lemma animations_abort_on_unlock_witness :
  List.length
    (snd (anim_bounce_in sample_config sample_window ["12:34"] false
            (fun i => Nat.eqb i 3) (55 # 100) 50)) = 12%nat /\
  anim_slide sample_config sample_window ["12:34"] true (fun _ => false)
    (55 # 100) 50 "slide-up-out" = (true, []) /\
  anim_bounce_in sample_config sample_window ["12:34"] true (fun _ => false)
    (55 # 100) 50 = (true, []).
Proof.
  split; [vm_compute; reflexivity|].
  destruct (animations_abort_on_unlock sample_config sample_window
              ["12:34"] true (fun _ => false) (55 # 100) 50)
    as (_ & _ & Hpreset).
  exact (Hpreset eq_refl).
Defined.

End AnimationFacts.

(** ** The face worker with no reference face *)

Section FaceWorkerFacts.
Variable cfg : Config.

Lemma shows_app (m : string) (tr1 tr2 : list WorkerStep) :
  shows m (tr1 ++ tr2) = (shows m tr1 + shows m tr2)%nat.
Proof.
  induction tr1 as [|s tr1 IH]; [reflexivity|].
  destruct s as [| |q|[m' t|me idn]]; simpl; try exact IH.
  destruct (String.eqb m' m); simpl; rewrite IH; reflexivity.
Qed.

Lemma successes_app (tr1 tr2 : list WorkerStep) :
  successes (tr1 ++ tr2) = (successes tr1 + successes tr2)%nat.
Proof.
  induction tr1 as [|s tr1 IH]; [reflexivity|].
  destruct s as [| |q|[m' t|me idn]]; simpl; try exact IH.
  rewrite IH. reflexivity.
Qed.

(** Without a call of [on_success] the unlock event is not written. *)
Lemma no_success_no_write (tr : list WorkerStep) :
  successes tr = O ->
  forall st : TTYSafeLock.t,
    unlocked_event (fold_left perform (actions tr) st) = unlocked_event st.
Proof.
  induction tr as [|s tr IH]; intros Hz st; [reflexivity|].
  destruct s as [| |q|[m' t|me idn]]; simpl in *; try (apply IH; exact Hz).
  - rewrite IH by exact Hz. reflexivity.
  - discriminate.
Qed.

Lemma loop_empty_database (iters : list FaceWorker.Iteration) :
  forall w : FaceWorker.t,
    FaceWorker._stop_event w = false ->
    let tr := snd (fst (FaceWorker.loop cfg [] w iters)) in
    successes tr = O /\
    shows no_faces_message tr
    = (if negb (FaceWorker._shown w) && captured iters then 1 else 0)%nat.
Proof.
  induction iters as [|it rest IH]; intros w Hstop.
  - simpl. rewrite andb_false_r. auto.
  - cbn [FaceWorker.loop captured]. rewrite Hstop.
    destruct (FaceWorker.stop_called it) eqn:Hcall; simpl.
    { rewrite andb_false_r. auto. }
    unfold FaceWorker.body.
    destruct (FaceWorker.ret it) eqn:Hret; simpl.
    + destruct (FaceWorker._shown w) eqn:Hshown; simpl.
      * specialize (IH {| FaceWorker._stop_event := false;
                          FaceWorker._shown := true |} eq_refl).
        destruct (FaceWorker.loop cfg [] _ rest) as [[w' tr'] fin].
        simpl in *. exact IH.
      * specialize (IH {| FaceWorker._stop_event := false;
                          FaceWorker._shown := true |} eq_refl).
        destruct (FaceWorker.loop cfg [] _ rest) as [[w' tr'] fin].
        simpl in *. destruct IH as [IH1 IH2]. rewrite IH2. auto.
    + specialize (IH {| FaceWorker._stop_event := false;
                        FaceWorker._shown := FaceWorker._shown w |} eq_refl).
      destruct (FaceWorker.loop cfg [] _ rest) as [[w' tr'] fin].
      simpl in *. exact IH.
Qed.

(** C8, as the code has it.  In one run of the face worker with an empty
    reference database the "No known faces configured" popup is posted at
    most once, however many passes of the loop there are; it is posted
    exactly once when the face factor is enabled, the camera opened, and
    some pass obtains a frame before a stop request is seen, and not at all
    otherwise; the worker never calls [on_success], so the unlock event of
    the controller is left as it was. *)
Theorem face_worker_empty_database (opened : bool)
  (iters : list FaceWorker.Iteration) :
  let tr :=
    snd (fst (FaceWorker.run cfg [] opened FaceWorker.init iters)) in
  (shows no_faces_message tr <= 1)%nat /\
  shows no_faces_message tr
  = (if ENABLE_FACE cfg && opened && captured iters then 1 else 0)%nat /\
  successes tr = O /\
  forall st : TTYSafeLock.t,
    unlocked_event (fold_left perform (actions tr) st) = unlocked_event st.
Proof.
  intros tr.
  assert (H : shows no_faces_message tr
              = (if ENABLE_FACE cfg && opened && captured iters
                 then 1 else 0)%nat /\ successes tr = O).
  { subst tr. unfold FaceWorker.run.
    destruct (ENABLE_FACE cfg); simpl; [|auto].
    destruct opened; simpl; [|auto].
    destruct (loop_empty_database iters FaceWorker.init eq_refl)
      as [Hs Hc].
    destruct (FaceWorker.loop cfg [] FaceWorker.init iters)
      as [[w' tr'] fin].
    simpl in *.
    rewrite shows_app, successes_app, Hs, Hc.
    destruct fin; simpl; split; lia. }
  destruct H as [Hshow Hsucc].
  split; [rewrite Hshow; destruct (_ && _); lia|].
  split; [exact Hshow|].
  split; [exact Hsucc|].
  apply no_success_no_write. exact Hsucc.
Qed.

End FaceWorkerFacts.

(** Three passes whose camera reads all fail post no popup at all, where C8
    as written promises exactly one. *)
Lemma face_worker_popup_not_always_posted :
  shows no_faces_message
    (snd (fst (FaceWorker.run sample_config [] true FaceWorker.init
                 [blind; blind; blind]))) <> 1%nat.
Proof.
  vm_compute. discriminate.
Qed.

(** Failing reads first, then frames: one popup for four passes. *)
Example face_worker_popup_once :
  shows no_faces_message
    (snd (fst (FaceWorker.run sample_config [] true FaceWorker.init
                 [blind; sighted; sighted; sighted]))) = 1%nat.
Proof. reflexivity. Qed.

(** ** The unlock event *)

Section UnlockEventFacts.
Variable cfg : Config.

(** The call written at line 447 names no parameter of [shake_panel]. *)
Lemma call_shake_panel_line_447 (draw_fn : Z -> Z -> list Effect)
  (amplitude : Z) (ev : Event) (workers : nat -> bool) :
  call_shake_panel cfg draw_fn
    [("a", ArgInt amplitude); ("e", ArgEvent ev)] workers
  = (None, [],
     Some (TypeError "shake_panel() got an unexpected keyword argument 'a'")).
Proof. reflexivity. Qed.

Lemma frame_loop_keeps_set (body : nat -> list Effect)
  (workers : nat -> bool) (ev : Event) (indices : list nat) :
  is_set ev = true ->
  is_set (fst (frame_loop body workers ev indices)) = true.
Proof.
  intros Hset. rewrite frame_loop_preset by exact Hset. reflexivity.
Qed.

Lemma play_anim_keeps_set (win : Window) (style : string)
  (lines : list string) (ev : Event) (workers : nat -> bool)
  (entering : bool) (duration : Q) (fps : Z) :
  is_set ev = true ->
  is_set (fst (play_anim cfg win style lines ev workers entering
                 duration fps)) = true.
Proof.
  intros Hset. unfold play_anim, anim_slide, anim_bounce_in.
  destruct (ANIM_ENABLED cfg); simpl; [|exact Hset].
  destruct entering; simpl; apply frame_loop_keeps_set; exact Hset.
Qed.

Lemma handle_input_keeps_set (st : TTYSafeLock.t) (ch : Z) (amb : Ambient) :
  is_set (unlocked_event st) = true ->
  is_set (unlocked_event (fst (fst (handle_input cfg st ch amb)))) = true.
Proof.
  intros Hset. unfold handle_input.
  destruct (password_mode st).
  - unfold handle_password_input.
    destruct (ch =? 27).
    { pose proof (play_anim_keeps_set (stdscr amb) (ANIM_IN_STYLE cfg)
                    (clock amb) (unlocked_event st) (worker_auth amb) true
                    (ANIM_DURATION_IN cfg) 50 Hset) as Hkeep.
      simpl. destruct (play_anim _ _ _ _ _ _ _ _ _) as [ev tr].
      exact Hkeep. }
    destruct ((ch =? 10) || (ch =? 13)).
    { destruct (verify_password cfg (password_buffer st));
        [reflexivity|].
      rewrite call_shake_panel_line_447. exact Hset. }
    destruct ((ch =? KEY_BACKSPACE) || (ch =? 127) || (ch =? 8));
      [exact Hset|].
    destruct ((32 <=? ch) && (ch <? 256)); exact Hset.
  - unfold handle_main_input.
    destruct (ch =? 32).
    { pose proof (play_anim_keeps_set (stdscr amb) (ANIM_OUT_STYLE cfg)
                    (clock amb) (unlocked_event st) (worker_auth amb) false
                    (ANIM_DURATION_OUT cfg) 50 Hset) as Hkeep.
      destruct (play_anim _ _ _ _ _ _ _ _ _) as [ev tr].
      exact Hkeep. }
    destruct (ch =? KEY_LEFT); [exact Hset|].
    destruct (ch =? KEY_RIGHT); exact Hset.
Qed.

Lemma step_keeps_set (st st' : TTYSafeLock.t) :
  step cfg st st' ->
  is_set (unlocked_event st) = true -> is_set (unlocked_event st') = true.
Proof.
  intros Hstep Hset.
  destruct Hstep as [st a|st ch amb|st win a b|st amb sty en d f].
  - destruct a; [exact Hset | reflexivity].
  - apply handle_input_keeps_set. exact Hset.
  - exact Hset.
  - apply play_anim_keeps_set. exact Hset.
Qed.

Lemma run_loop_when_set (st : TTYSafeLock.t) (ticks : list Tick) :
  is_set (unlocked_event st) = true ->
  run_loop cfg st ticks = (st, [], Returned).
Proof.
  intros Hset. destruct ticks; simpl; rewrite Hset; reflexivity.
Qed.

(** C3. The unlock event of a fresh controller is clear.  Once it is set,
    every sequence of operations of the core (worker writes, key handling,
    popup rendering, animations) leaves it set: each later test reads it
    set, and the render loop leaves at its next test. *)
Theorem unlock_event_is_terminal (st st' : TTYSafeLock.t)
  (Hset : is_set (unlocked_event st) = true) (Hsteps : steps cfg st st') :
  is_set (unlocked_event (TTYSafeLock.init cfg)) = false /\
  is_set (unlocked_event st') = true /\
  (forall a : Action, is_set (unlocked_event (perform st' a)) = true) /\
  (forall ticks : list Tick, run_loop cfg st' ticks = (st', [], Returned)).
Proof.
  split; [reflexivity|].
  assert (Hkeep : is_set (unlocked_event st') = true).
  { induction Hsteps as [st|st mid st' Hstep _ IH]; [exact Hset|].
    apply IH. exact (step_keeps_set st mid Hstep Hset). }
  split; [exact Hkeep|]. split.
  - intros a. exact (step_keeps_set st' _ (step_worker cfg st' a) Hkeep).
  - intros ticks. apply run_loop_when_set. exact Hkeep.
Qed.

End UnlockEventFacts.

(** After a face match, a popup of the fingerprint worker and a key press
    do not undo the unlock. *)
Lemma unlock_event_is_terminal_witness :
  let st := perform (TTYSafeLock.init sample_config)
              (OnSuccess "face" "alice") in
  let st' :=
    fst (fst (handle_input sample_config
                (perform st (Show "Use fingerprint or press Space" 1))
                KEY_LEFT quiet)) in
  is_set (unlocked_event (TTYSafeLock.init sample_config)) = false /\
  is_set (unlocked_event st') = true /\
  (forall a : Action, is_set (unlocked_event (perform st' a)) = true) /\
  (forall ticks : list Tick,
     run_loop sample_config st' ticks = (st', [], Returned)).
Proof.
  intros st st'.
  apply (unlock_event_is_terminal sample_config st st').
  - reflexivity.
  - eapply steps_cons.
    + exact (step_worker sample_config st
               (Show "Use fingerprint or press Space" 1)).
    + eapply steps_cons.
      * exact (step_key sample_config _ KEY_LEFT quiet).
      * apply steps_refl.
Defined.

(** ** Unlocking *)

Section UnlockingFacts.
Variable cfg : Config.

Lemma dict_get_key (d : list (string * string)) (k : string) :
  In k (dict_keys d) -> exists v : string, dict_get d k = Some v.
Proof.
  induction d as [|[k' v'] d IH]; simpl; [contradiction|].
  intros Hin. destruct (String.eqb k' k) eqn:Hk; [eauto|].
  destruct Hin as [Heq|Hin]; [|exact (IH Hin)].
  subst k'. rewrite String.eqb_refl in Hk. discriminate.
Qed.

Lemma dict_get_in (d : list (string * string)) (k v : string) :
  dict_get d k = Some v -> In (k, v) d.
Proof.
  induction d as [|[k' v'] d IH]; simpl; [discriminate|].
  destruct (String.eqb k' k) eqn:Hk.
  - intros Hv. injection Hv as ->. apply String.eqb_eq in Hk. subst k'.
    left. reflexivity.
  - intros Hv. right. exact (IH Hv).
Qed.

(** Line 115 leaves only commands that are truthy. *)
Lemma unlock_command_truthy (k v : string) :
  dict_get (UNLOCK_COMMANDS cfg) k = Some v -> truthy v = true.
Proof.
  intros Hget. apply dict_get_in in Hget.
  unfold UNLOCK_COMMANDS in Hget. apply filter_In in Hget.
  exact (proj2 Hget).
Qed.

(** C1, as the code has it.  Every successful factor ends in
    [_on_auth_success], which sets the unlock event, also one that was clear,
    and changes nothing else, whatever method and identity it is given: the
    worker threads through [on_success], the password through the enter key.
    On unlock of a controller with at least one session, once [stop_workers]
    has returned, the launcher is started with the command of the chosen
    session key, and the process exits with 0. *)
Theorem unlock_sets_event_and_launches_choice (st : TTYSafeLock.t)
  (method identity : string) (amb : Ambient)
  (Hreach : reachable cfg st)
  (Hsome : desktop_choices st <> []) :
  _on_auth_success st method identity = with_event st true /\
  is_set (unlocked_event (_on_auth_success st method identity)) = true /\
  perform st (OnSuccess method identity) = with_event st true /\
  (password_mode st = true ->
   verify_password cfg (password_buffer st) = true ->
   handle_input cfg st 10 amb = (with_event st true, [], None)) /\
  exists key cmd : string,
    list_get (desktop_choices st) (desktop_index st) = Some key /\
    dict_get (UNLOCK_COMMANDS cfg) key = Some cmd /\
    unlocking cfg (_on_auth_success st method identity) false =
    ([StopWorkers; EndWin;
      PrintOut (String.append "Authenticated. Launching: "
                  (String.append key "..."));
      Popen ["/bin/sh"; "-c"; cmd]],
     Raised (SystemExit 0)).
Proof.
  split; [reflexivity|]. split; [reflexivity|]. split; [reflexivity|]. split.
  { intros Hmode Hok. unfold handle_input, handle_password_input.
    rewrite Hmode, Hok. reflexivity. }
  destruct (reachable_session_ok cfg st Hreach) as (Hkeys & _ & Hvalid).
  specialize (Hvalid Hsome).
  destruct (list_get_valid _ _ Hvalid) as [key Hkey].
  assert (Hin : In key (dict_keys (UNLOCK_COMMANDS cfg))).
  { rewrite <- Hkeys. rewrite list_get_nonneg in Hkey by lia.
    exact (nth_error_In _ _ Hkey). }
  destruct (dict_get_key _ _ Hin) as [cmd Hcmd].
  exists key, cmd. split; [exact Hkey|]. split; [exact Hcmd|].
  unfold unlocking, stop_workers, _on_auth_success. cbn.
  destruct (desktop_choices st) as [|k ks] eqn:Hc; [contradiction|].
  rewrite Hkey. unfold launch_and_exit.
  rewrite Hcmd, (unlock_command_truthy key cmd Hcmd). reflexivity.
Qed.

(** The branch of line 401, for a controller without a session. *)
Lemma unlocking_no_choice (st : TTYSafeLock.t) :
  is_set (unlocked_event st) = true -> desktop_choices st = [] ->
  unlocking cfg st false =
  ([StopWorkers; EndWin; PrintErr "Auth OK, but no sessions found."],
   Raised (SystemExit 0)).
Proof.
  intros Hset Hnone. unfold unlocking, stop_workers.
  rewrite Hset, Hnone. reflexivity.
Qed.

(** With no session at all, [main] stops before a controller exists. *)
Lemma main_without_session (intro : Ambient) (ticks : list Tick) :
  UNLOCK_COMMANDS cfg = [] ->
  main cfg intro ticks =
  ([PrintErr "Error: No launchable desktop sessions found."], Some 1).
Proof.
  intros Hnone. unfold main. rewrite Hnone. reflexivity.
Qed.

(** A rejected password at the enter key: the message is set, the call of
    line 447 raises, and nothing after it is executed. *)
Lemma rejected_password_raises (st : TTYSafeLock.t) (ch : Z)
  (amb : Ambient) :
  password_mode st = true -> ch = 10 \/ ch = 13 ->
  verify_password cfg (password_buffer st) = false ->
  handle_input cfg st ch amb =
  (with_entry st true (password_buffer st) "Incorrect password", [],
   Some (TypeError "shake_panel() got an unexpected keyword argument 'a'")).
Proof.
  intros Hmode Hch Hbad. unfold handle_input, handle_password_input.
  rewrite Hmode, Hbad.
  destruct Hch as [-> | ->]; reflexivity.
Qed.

End UnlockingFacts.

Lemma unlock_sets_event_and_launches_choice_witness :
  let st := TTYSafeLock.init sample_config in
  is_set (unlocked_event st) = false /\
  (_on_auth_success st "face" "alice" = with_event st true /\
   is_set (unlocked_event (_on_auth_success st "face" "alice")) = true /\
   perform st (OnSuccess "face" "alice") = with_event st true /\
   (password_mode st = true ->
    verify_password sample_config (password_buffer st) = true ->
    handle_input sample_config st 10 quiet = (with_event st true, [], None)) /\
   exists key cmd : string,
     list_get (desktop_choices st) (desktop_index st) = Some key /\
     dict_get (UNLOCK_COMMANDS sample_config) key = Some cmd /\
     unlocking sample_config (_on_auth_success st "face" "alice") false =
     ([StopWorkers; EndWin;
       PrintOut (String.append "Authenticated. Launching: "
                   (String.append key "..."));
       Popen ["/bin/sh"; "-c"; cmd]],
      Raised (SystemExit 0))).
Proof.
  intros st. split; [reflexivity|].
  apply (unlock_sets_event_and_launches_choice sample_config st
           "face" "alice" quiet).
  - apply reach_init.
  - discriminate.
Defined.

(** The keys of a password unlock: space, the letter a, enter. *)
Example password_unlock_keys :
  map key [tick_key 32; tick_key 97; tick_key 10]
  = [Getch 32; Getch 97; Getch 10].
Proof. reflexivity. Qed.

(** A face unlock and a password unlock leave the same controller, and the
    launcher is given the same in both runs, the shell command of the
    session: nothing can read the winning method or identity back, against
    C1 as written. *)
Lemma unlock_event_forgets_method :
  let st := TTYSafeLock.init sample_config in
  _on_auth_success st "face" "alice"
  = _on_auth_success st "password" "alice" /\
  filter is_popen
    (snd (fst (run sample_config st quiet
                 [tick_with (OnSuccess "face" "alice")])))
  = [Popen ["/bin/sh"; "-c";
            "dbus-run-session env XDG_SESSION_TYPE=wayland gnome-session"]] /\
  filter is_popen
    (snd (fst (run sample_config st quiet
                 [tick_key 32; tick_key 97; tick_key 10])))
  = [Popen ["/bin/sh"; "-c";
            "dbus-run-session env XDG_SESSION_TYPE=wayland gnome-session"]] /\
  ~ (exists recorded : TTYSafeLock.t -> string * string,
       recorded (_on_auth_success st "face" "alice") = ("face", "alice") /\
       recorded (_on_auth_success st "password" "alice")
       = ("password", "alice")).
Proof.
  intros st. split; [reflexivity|].
  split; [vm_compute; reflexivity|].
  split; [vm_compute; reflexivity|].
  intros [recorded [H1 H2]].
  unfold _on_auth_success in H1, H2. rewrite H1 in H2. discriminate.
Qed.

(** What the launcher gets in the run of a face unlock, the fingerprint
    thread being still at its reader when it is joined. *)
Example run_launches_session_command :
  let '(_, tr, c) :=
    run sample_config (TTYSafeLock.init sample_config) quiet
      [tick_with (OnSuccess "face" "alice")] in
  c = Raised (SystemExit 0) /\
  filter (fun e => match e with Popen _ => true | _ => false end) tr
  = [Popen ["/bin/sh"; "-c";
            "dbus-run-session env XDG_SESSION_TYPE=wayland gnome-session"]].
Proof. vm_compute. split; reflexivity. Qed.

(** C2 on the code.  In PasswordEntry with the buffer "x", which the
    verifier rejects, the enter key sets the message and then raises
    TypeError at the call of [shake_panel]: no shake frame is drawn, the
    buffer still holds "x", and [main] reports the error and ends the
    process instead of staying in PasswordEntry. *)
Theorem wrong_password_enter_raises :
  password_mode typed_x = true /\
  password_buffer typed_x = "x" /\
  verify_password sample_config (password_buffer typed_x) = false /\
  handle_input sample_config typed_x 10 quiet =
  (with_entry typed_x true "x" "Incorrect password", [],
   Some (TypeError "shake_panel() got an unexpected keyword argument 'a'")) /\
  snd (main sample_config quiet [tick_key 32; tick_key 120; tick_key 10])
  = Some 0 /\
  last (fst (main sample_config quiet
               [tick_key 32; tick_key 120; tick_key 10])) Erase
  = PrintErr
      "An unexpected error occurred: shake_panel() got an unexpected keyword argument 'a'".
Proof.
  split; [reflexivity|]. split; [reflexivity|]. split; [reflexivity|].
  split; [reflexivity|]. split; vm_compute; reflexivity.
Qed.

(** The same call with the names of the parameters shakes the panel: ten
    frames with the offsets 0, 3, -3, 1, -2, 0, 0, 3, -3, 1. *)
Example shake_with_parameter_names :
  let '(ev, tr, exc) :=
    call_shake_panel sample_config
      (fun dx dy => [AddStr dy dx "panel" A_NORMAL])
      [("amplitude", ArgInt 3); ("unlocked_event", ArgEvent false)]
      (fun _ => false) in
  ev = Some false /\ exc = None /\
  filter (fun e => match e with AddStr _ _ _ _ => true | _ => false end) tr
  = map (fun dx => AddStr 0 dx "panel" A_NORMAL)
      [0; 3; -3; 1; -2; 0; 0; 3; -3; 1].
Proof. vm_compute. repeat split; reflexivity. Qed.

(** * Further properties of the code *)

(** ** The session table *)

Section SessionTableFacts.

Lemma main_status (cfg : Config) (intro : Ambient) (ticks : list Tick) :
  UNLOCK_COMMANDS cfg <> [] ->
  snd (main cfg intro ticks) = None \/ snd (main cfg intro ticks) = Some 0.
Proof.
  intros Hsome. unfold main.
  destruct (UNLOCK_COMMANDS cfg) as [|kv rest]; [contradiction|].
  destruct (run cfg (TTYSafeLock.init cfg) intro ticks) as [[st tr] c].
  destruct c as [| |[msg|msg|code]]; simpl; auto.
Qed.

(** X1. The session table of lines 108-115 always holds the two gnome
    sessions, in this order, and "kde" after them exactly when one of the
    three plasma or kde binaries is found; so the list of choices is never
    empty, and the exit with status 1 at the start of [main] cannot occur. *)
Theorem literal_sessions_never_empty (cfg : Config)
  (which : string -> bool)
  (Hraw : UNLOCK_COMMANDS_raw cfg = unlock_commands_literal which) :
  let found :=
    which "startplasma-wayland" || which "startplasma-x11"
    || which "startkde" in
  dict_keys (UNLOCK_COMMANDS cfg)
    = (if found then ["gnome-wayland"; "gnome-x11"; "kde"]
       else ["gnome-wayland"; "gnome-x11"]) /\
  dict_get (UNLOCK_COMMANDS cfg) "kde"
    = (if found then Some (kde_command which) else None) /\
  desktop_choices (TTYSafeLock.init cfg) <> [] /\
  forall (intro : Ambient) (ticks : list Tick),
    snd (main cfg intro ticks) <> Some 1.
Proof.
  intros found.
  assert (Hkeys : dict_keys (UNLOCK_COMMANDS cfg)
                  = (if found then ["gnome-wayland"; "gnome-x11"; "kde"]
                     else ["gnome-wayland"; "gnome-x11"]) /\
                  dict_get (UNLOCK_COMMANDS cfg) "kde"
                  = (if found then Some (kde_command which) else None)).
  { subst found. unfold UNLOCK_COMMANDS. rewrite Hraw.
    unfold unlock_commands_literal, kde_command. simpl.
    destruct (which "startplasma-wayland"); simpl; [auto|].
    destruct (which "startplasma-x11"); simpl; [auto|].
    destruct (which "startkde"); simpl; auto. }
  destruct Hkeys as [Hkeys Hkde].
  split; [exact Hkeys|]. split; [exact Hkde|].
  assert (Hne : dict_keys (UNLOCK_COMMANDS cfg) <> []).
  { rewrite Hkeys. destruct found; discriminate. }
  split; [rewrite init_choices; exact Hne|].
  intros intro ticks.
  assert (Hcmds : UNLOCK_COMMANDS cfg <> []).
  { intros Hnil. apply Hne. rewrite Hnil. reflexivity. }
  destruct (main_status cfg intro ticks Hcmds) as [H|H]; rewrite H;
    discriminate.
Qed.

Lemma literal_sessions_never_empty_witness :
  dict_keys (UNLOCK_COMMANDS x11_config)
    = ["gnome-wayland"; "gnome-x11"; "kde"] /\
  dict_get (UNLOCK_COMMANDS x11_config) "kde"
    = Some "dbus-run-session env XDG_SESSION_TYPE=wayland startplasma-wayland" /\
  desktop_choices (TTYSafeLock.init x11_config) <> [] /\
  forall (intro : Ambient) (ticks : list Tick),
    snd (main x11_config intro ticks) <> Some 1.
Proof.
  exact (literal_sessions_never_empty x11_config (fun _ => true) eq_refl).
Defined.

(** X2. [main] ends with status 1 exactly when the session table is empty,
    and the error line is then all it does.  Past that check, what [run]
    raises as [SystemExit], whatever its code, or as TypeError or IndexError
    is caught: the terminal is restored, a code other than 0 or the message
    of the exception is written to stderr, and the status is 0.  A [run]
    that returns ends with status 0 as well. *)
Theorem main_caught_endings (cfg : Config) (intro : Ambient)
  (ticks : list Tick) :
  (snd (main cfg intro ticks) = Some 1 <-> UNLOCK_COMMANDS cfg = []) /\
  (UNLOCK_COMMANDS cfg = [] ->
   main cfg intro ticks =
   ([PrintErr "Error: No launchable desktop sessions found."], Some 1)) /\
  (UNLOCK_COMMANDS cfg <> [] ->
   let '(_, tr, c) := run cfg (TTYSafeLock.init cfg) intro ticks in
   (forall code : Z,
      c = Raised (SystemExit code) ->
      main cfg intro ticks =
      (tr ++ [EndWin] ++
         (if code =? 0 then []
          else [PrintErr (String.append "Exited with code "
                            (str_of_int code))]),
       Some 0)) /\
   (forall msg : string,
      c = Raised (TypeError msg) \/ c = Raised (IndexError msg) ->
      main cfg intro ticks =
      (tr ++ [EndWin; EndWin;
              PrintErr (String.append "An unexpected error occurred: " msg)],
       Some 0)) /\
   (c = Returned -> main cfg intro ticks = (tr ++ [EndWin], Some 0)) /\
   (c = Running -> main cfg intro ticks = (tr, None))).
Proof.
  split; [|split].
  - split.
    + intros Hone. destruct (UNLOCK_COMMANDS cfg) as [|kv rest] eqn:Hc;
        [reflexivity|]. exfalso.
      assert (Hsome : UNLOCK_COMMANDS cfg <> []) by (rewrite Hc; discriminate).
      destruct (main_status cfg intro ticks Hsome) as [H|H];
        rewrite H in Hone; discriminate.
    + intros Hnil. unfold main. rewrite Hnil. reflexivity.
  - intros Hnil. unfold main. rewrite Hnil. reflexivity.
  - intros Hsome. unfold main.
    destruct (UNLOCK_COMMANDS cfg) as [|kv rest]; [contradiction|].
    destruct (run cfg (TTYSafeLock.init cfg) intro ticks) as [[st tr] c].
    split; [|split; [|split]].
    + intros code ->. reflexivity.
    + intros msg [-> | ->]; reflexivity.
    + intros ->. reflexivity.
    + intros ->. reflexivity.
Qed.

Lemma main_caught_endings_witness :
  main no_session_config quiet [] =
  ([PrintErr "Error: No launchable desktop sessions found."], Some 1) /\
  main sample_config quiet [tick_key 32; tick_key 120; tick_key 10] =
  (snd (fst (run sample_config (TTYSafeLock.init sample_config) quiet
               [tick_key 32; tick_key 120; tick_key 10])) ++
   [EndWin; EndWin;
    PrintErr "An unexpected error occurred: shake_panel() got an unexpected keyword argument 'a'"],
   Some 0).
Proof.
  destruct (main_caught_endings no_session_config quiet []) as (_ & H1 & _).
  split; [exact (H1 eq_refl)|].
  destruct (main_caught_endings sample_config quiet
              [tick_key 32; tick_key 120; tick_key 10]) as (_ & _ & H2).
  assert (Hsome : UNLOCK_COMMANDS sample_config <> []) by discriminate.
  specialize (H2 Hsome).
  destruct (run sample_config (TTYSafeLock.init sample_config) quiet
              [tick_key 32; tick_key 120; tick_key 10])
    as [[st tr] c] eqn:Hr.
  destruct H2 as (_ & H2 & _). cbn [fst snd].
  apply (H2 "shake_panel() got an unexpected keyword argument 'a'").
  left.
  replace c with (snd (run sample_config (TTYSafeLock.init sample_config)
                         quiet [tick_key 32; tick_key 120; tick_key 10]))
    by (rewrite Hr; reflexivity).
  vm_compute. reflexivity.
Defined.

End SessionTableFacts.

(** ** More on the popup notifier *)

Section PopupInvariant.
Import PopupManager.

Lemma render_keeps_popup_ok (p : PopupManager.t) (win : Window) (a b : Q) :
  popup_ok p ->
  popup_ok (fst (fst (render p win a b))) /\ snd (render p win a b) = None.
Proof.
  intros Hok. unfold render.
  destruct (message p) as [m|] eqn:Hm; [|split; [exact Hok | reflexivity]].
  destruct (truthy m); simpl; [|split; [exact Hok | reflexivity]].
  destruct (start_time p) as [t0|] eqn:Ht.
  - destruct (Qlt_le_dec 1 (a - t0)); simpl.
    + split; [intros H; contradiction | reflexivity].
    + split; [exact Hok | reflexivity].
  - exfalso. apply Hok; [rewrite Hm; discriminate | exact Ht].
Qed.

(** X3. A popup that came from [__init__] by [show] and [render] has a time
    stamp whenever it has a message: [init] and [show] give such a popup,
    [render] keeps it so, and on such a popup [render] never raises. *)
Theorem popup_render_never_raises (p : PopupManager.t) (win : Window)
  (a b : Q) (Hok : popup_ok p) :
  popup_ok init /\
  (forall (m : string) (t0 : Q), popup_ok (show p m t0)) /\
  popup_ok (fst (fst (render p win a b))) /\
  snd (render p win a b) = None.
Proof.
  split; [intros H; contradiction|].
  split; [intros m t0 _; discriminate|].
  exact (render_keeps_popup_ok p win a b Hok).
Qed.

Lemma popup_render_never_raises_witness :
  popup_ok init /\
  (forall (m : string) (t0 : Q), popup_ok (show (show init "hint" 0) m t0)) /\
  popup_ok (fst (fst (render (show init "hint" 0) sample_window 2 2))) /\
  snd (render (show init "hint" 0) sample_window 2 2) = None.
Proof.
  apply (popup_render_never_raises (show init "hint" 0) sample_window 2 2).
  intros _. discriminate.
Defined.

(** X4. Within the display window, a non-empty message is drawn once per
    [render], on the third row from the bottom, with its middle within one
    column of the middle of the window; it is dim in the first 0.2 and
    after 0.7 of the window and normal in between; the popup is left as it
    is. *)
Theorem popup_render_live (p : PopupManager.t) (win : Window) (m : string)
  (t0 a b : Q)
  (Hm : message p = Some m) (Hne : truthy m = true)
  (Ht : start_time p = Some t0) (Hin : (a - t0 <= 1)%Q) :
  exists (x : Z) (attr : Attr),
    render p win a b = (p, [AddStr (maxy win - 3) x m attr], None) /\
    -1 <= 2 * x + len m - maxx win <= 1 /\
    ((b - t0 < 2 # 10)%Q \/ (7 # 10 < b - t0)%Q -> attr = A_DIM) /\
    ((2 # 10 <= b - t0)%Q /\ (b - t0 <= 7 # 10)%Q -> attr = A_NORMAL).
Proof.
  unfold render. rewrite Hm, Hne, Ht. cbn [negb].
  destruct (Qlt_le_dec 1 (a - t0)) as [Hlt|_]; [lra|].
  eexists. eexists. split; [reflexivity|]. split.
  - pose proof (Z.div_mod (maxx win) 2 ltac:(lia)) as Hw.
    pose proof (Z.mod_pos_bound (maxx win) 2 ltac:(lia)) as Hwb.
    pose proof (Z.div_mod (len m) 2 ltac:(lia)) as Hl.
    pose proof (Z.mod_pos_bound (len m) 2 ltac:(lia)) as Hlb.
    lia.
  - split.
    + intros [Hd|Hd].
      * destruct (Qlt_le_dec (b - t0) (2 # 10)); [reflexivity | lra].
      * destruct (Qlt_le_dec (b - t0) (2 # 10)); [reflexivity|].
        destruct (Qlt_le_dec (7 # 10) (b - t0)); [reflexivity | lra].
    + intros [Hlo Hhi].
      destruct (Qlt_le_dec (b - t0) (2 # 10)); [lra|].
      destruct (Qlt_le_dec (7 # 10) (b - t0)); [lra | reflexivity].
Qed.

Lemma popup_render_live_witness :
  exists (x : Z) (attr : Attr),
    render (show init "hint" 0) sample_window (1 # 2) (1 # 2)
    = (show init "hint" 0, [AddStr (maxy sample_window - 3) x "hint" attr],
       None) /\
    -1 <= 2 * x + len "hint" - maxx sample_window <= 1 /\
    (((1 # 2) - 0 < 2 # 10)%Q \/ (7 # 10 < (1 # 2) - 0)%Q ->
     attr = A_DIM) /\
    ((2 # 10 <= (1 # 2) - 0)%Q /\ ((1 # 2) - 0 <= 7 # 10)%Q ->
     attr = A_NORMAL).
Proof.
  apply (popup_render_live (show init "hint" 0) sample_window "hint" 0
           (1 # 2) (1 # 2)); try reflexivity.
  vm_compute. discriminate.
Defined.

End PopupInvariant.

(** ** More on the easing functions *)

Section EasingClamp.
Local Open Scope Q_scope.

Lemma clamp01_low (t : Q) : t <= 0 -> clamp01 t == 0.
Proof.
  intros Ht. unfold clamp01.
  rewrite (Q.min_r 1 t) by lra. apply Q.max_l. exact Ht.
Qed.

Lemma clamp01_high (t : Q) : 1 <= t -> clamp01 t == 1.
Proof.
  intros Ht. unfold clamp01.
  rewrite (Q.min_l 1 t) by exact Ht. apply Q.max_r. lra.
Qed.

Lemma cubic_of (u : Q) :
  (u == 0 -> 1 - (1 - u) ^ 3 == 0) /\ (u == 1 -> 1 - (1 - u) ^ 3 == 1).
Proof.
  split; intros Hu; rewrite Hu; reflexivity.
Qed.

Lemma bounce_of (u : Q) :
  let v := if Qlt_le_dec u (1 / d1) then n1 * u * u
           else if Qlt_le_dec u (2 / d1) then
             let t := u - (15 # 10) / d1 in n1 * t * t + (75 # 100)
           else if Qlt_le_dec u ((25 # 10) / d1) then
             let t := u - (225 # 100) / d1 in n1 * t * t + (9375 # 10000)
           else
             let t := u - (2625 # 1000) / d1 in
             n1 * t * t + (984375 # 1000000) in
  (u == 0 -> v == 0) /\ (u == 1 -> v == 1).
Proof.
  assert (E1 : 1 / d1 == 4 # 11) by reflexivity.
  assert (E2 : 2 / d1 == 8 # 11) by reflexivity.
  assert (E3 : (25 # 10) / d1 == 10 # 11) by reflexivity.
  assert (E6 : (2625 # 1000) / d1 == 21 # 22) by reflexivity.
  cbv zeta. split; intros Hu.
  - destruct (Qlt_le_dec u (1 / d1)) as [L|L].
    + rewrite Hu. reflexivity.
    + rewrite E1 in L. lra.
  - destruct (Qlt_le_dec u (1 / d1)) as [L|L]; [rewrite E1 in L; lra|].
    destruct (Qlt_le_dec u (2 / d1)) as [L2|L2]; [rewrite E2 in L2; lra|].
    destruct (Qlt_le_dec u ((25 # 10) / d1)) as [L3|L3];
      [rewrite E3 in L3; lra|].
    rewrite Hu. reflexivity.
Qed.

Lemma cubic_unit_interval (t : Q) :
  0 <= _ease_out_cubic t /\ _ease_out_cubic t <= 1.
Proof.
  destruct (clamp01_range t) as [H0 H1]. split.
  - unfold _ease_out_cubic. cbv zeta.
    pose proof (cubic_mono_clamped 0 (clamp01 t)) as Hm.
    assert (Hz : 1 - (1 - 0) ^ 3 == 0) by reflexivity.
    rewrite <- Hz. apply Hm; lra.
  - unfold _ease_out_cubic. cbv zeta.
    pose proof (cubic_mono_clamped (clamp01 t) 1) as Hm.
    assert (Hz : 1 - (1 - 1) ^ 3 == 1) by reflexivity.
    rewrite <- Hz at 2. apply Hm; lra.
Qed.

Lemma easing_at_ends (t : Q) :
  (t <= 0 -> _ease_out_cubic t == 0 /\ _ease_out_bounce t == 0) /\
  (1 <= t -> _ease_out_cubic t == 1 /\ _ease_out_bounce t == 1).
Proof.
  split.
  - intros Ht. pose proof (clamp01_low t Ht) as Hu. split.
    + exact (proj1 (cubic_of (clamp01 t)) Hu).
    + exact (proj1 (bounce_of (clamp01 t)) Hu).
  - intros Ht. pose proof (clamp01_high t Ht) as Hu. split.
    + exact (proj2 (cubic_of (clamp01 t)) Hu).
    + exact (proj2 (bounce_of (clamp01 t)) Hu).
Qed.

(** X5. Both easings clamp their argument: at and below 0 they give 0, at
    and above 1 they give 1, and the cubic stays within [0, 1] for every
    argument. *)
Theorem easing_clamps (t : Q) :
  0 <= _ease_out_cubic t /\ _ease_out_cubic t <= 1 /\
  (t <= 0 -> _ease_out_cubic t == 0 /\ _ease_out_bounce t == 0) /\
  (1 <= t -> _ease_out_cubic t == 1 /\ _ease_out_bounce t == 1).
Proof.
  split; [|split; [|split]].
  - exact (proj1 (cubic_unit_interval t)).
  - exact (proj2 (cubic_unit_interval t)).
  - exact (proj1 (easing_at_ends t)).
  - exact (proj2 (easing_at_ends t)).
Qed.

Lemma easing_clamps_witness :
  (_ease_out_cubic (-3) == 0 /\ _ease_out_bounce (-3) == 0) /\
  (_ease_out_cubic 7 == 1 /\ _ease_out_bounce 7 == 1).
Proof.
  destruct (easing_clamps (-3)) as (_ & _ & Hlow & _).
  destruct (easing_clamps 7) as (_ & _ & _ & Hhigh).
  split; [apply Hlow | apply Hhigh]; lra.
Defined.

End EasingClamp.

(** ** Centering and clipped drawing *)

Section DrawingFacts.

Lemma max_len_bound (lines : list string) (ln : string) :
  In ln lines -> len ln <= fold_right Z.max 0 (map len lines).
Proof.
  induction lines as [|l lines IH]; simpl; [contradiction|].
  intros [->|Hin]; [lia|]. specialize (IH Hin). lia.
Qed.

Lemma compute_center_height (win : Window) (lines : list string) :
  let '(_, _, text_h, _) := _compute_center win lines in
  text_h = Z.of_nat (List.length lines).
Proof. reflexivity. Qed.

(** X6. [_compute_center] gives offsets that are never negative and a text
    width that bounds every line; when the block is not higher than the
    window it lies inside it with the lower margin equal to the upper one or
    one more, and the same holds across for the width. *)
Theorem compute_center_centers (win : Window) (lines : list string) :
  let '(y, x, text_h, text_w) := _compute_center win lines in
  0 <= y /\ 0 <= x /\
  text_h = Z.of_nat (List.length lines) /\
  (forall ln : string, In ln lines -> len ln <= text_w) /\
  (text_h <= maxy win ->
   y + text_h <= maxy win /\ 0 <= (maxy win - (y + text_h)) - y <= 1) /\
  (text_w <= maxx win ->
   x + text_w <= maxx win /\ 0 <= (maxx win - (x + text_w)) - x <= 1).
Proof.
  unfold _compute_center. cbv zeta.
  set (th := Z.of_nat (List.length lines)).
  set (tw := fold_right Z.max 0 (map len lines)).
  split; [lia|]. split; [lia|]. split; [reflexivity|].
  split; [intros ln Hin; apply max_len_bound; exact Hin|].
  split; intros Hfit.
  - pose proof (Z.div_mod (maxy win - th) 2 ltac:(lia)) as Hd.
    pose proof (Z.mod_pos_bound (maxy win - th) 2 ltac:(lia)) as Hb.
    assert (0 <= (maxy win - th) / 2) by (apply Z.div_pos; lia).
    lia.
  - pose proof (Z.div_mod (maxx win - tw) 2 ltac:(lia)) as Hd.
    pose proof (Z.mod_pos_bound (maxx win - tw) 2 ltac:(lia)) as Hb.
    assert (0 <= (maxx win - tw) / 2) by (apply Z.div_pos; lia).
    lia.
Qed.

Lemma compute_center_centers_witness :
  let '(y, x, text_h, text_w) :=
    _compute_center sample_window ["ab"; "abcde"; "abc"] in
  (y = 10 /\ x = 37 /\ text_h = 3 /\ text_w = 5) /\
  (text_h <= maxy sample_window ->
   y + text_h <= maxy sample_window /\
   0 <= (maxy sample_window - (y + text_h)) - y <= 1).
Proof.
  pose proof (compute_center_centers sample_window ["ab"; "abcde"; "abc"])
    as H.
  cbv beta iota zeta delta [_compute_center] in H |- *.
  destruct H as (_ & _ & _ & _ & Hh & _).
  split; [repeat split; reflexivity | exact Hh].
Defined.

(** X7. [_noise01] lies in [0, 1] for all integers, negative ones included.
    The upper end is reached (at row 3976805118, column 0), so the result is
    not always below 1. *)
Theorem noise01_range (r c : Z) :
  (0 <= _noise01 r c)%Q /\ (_noise01 r c <= 1)%Q /\
  (_noise01 3976805118 0 == 1)%Q.
Proof.
  unfold _noise01. cbv zeta.
  set (v := Z.lxor (Z.lxor (r * 73856093) (c * 19349663)) 2654435769).
  assert (Hv : 0 <= Z.land v 4294967295 <= 4294967295).
  { change 4294967295 with (Z.ones 32). rewrite Z.land_ones by lia.
    pose proof (Z.mod_pos_bound v (2 ^ 32) ltac:(lia)) as Hb.
    change (Z.ones 32) with (2 ^ 32 - 1). lia. }
  split; [|split].
  - apply Qle_shift_div_l; [reflexivity|].
    rewrite Qmult_0_l. rewrite <- (Zle_Qle 0). lia.
  - apply Qle_shift_div_r; [reflexivity|].
    rewrite Qmult_1_l. rewrite <- Zle_Qle. lia.
  - reflexivity.
Qed.

Lemma str_take_length (k : nat) (s : string) :
  String.length (str_take k s) = Nat.min k (String.length s).
Proof.
  revert s. induction k as [|k IH]; intros s; [reflexivity|].
  destruct s as [|ch rest]; simpl; [reflexivity|].
  rewrite IH. reflexivity.
Qed.

Lemma str_take_all (k : nat) (s : string) :
  (String.length s <= k)%nat -> str_take k s = s.
Proof.
  revert s. induction k as [|k IH]; intros s Hk.
  - destruct s; [reflexivity | simpl in Hk; lia].
  - destruct s as [|ch rest]; simpl; [reflexivity|].
    rewrite IH by (simpl in Hk; lia). reflexivity.
Qed.

Lemma truthy_length (s : string) :
  truthy s = true <-> (0 < String.length s)%nat.
Proof.
  destruct s; simpl; split; intros H; try lia; try discriminate;
    reflexivity.
Qed.

Lemma mask_line_visible (visible : Z -> bool) (ln : string) :
  forall c : Z,
    (forall i : Z, visible i = true) -> mask_line visible c ln = ln.
Proof.
  induction ln as [|ch rest IH]; intros c Hall; simpl; [reflexivity|].
  rewrite Hall, IH by exact Hall. reflexivity.
Qed.

Lemma draw_line_mask_clipped (win : Window) (y x : Z)
  (visible_fn : Z -> Z -> bool) (attr : Attr) (r : Z) (ln : string)
  (e : Effect) :
  In e (draw_line_mask win y x visible_fn attr r ln) ->
  exists (xx : Z) (seg : string),
    e = AddStr (y + r) xx seg attr /\
    0 <= y + r < maxy win /\
    0 <= xx < maxx win /\
    0 < len seg /\ xx + len seg <= maxx win.
Proof.
  unfold draw_line_mask.
  destruct ((0 <=? y + r) && (y + r <? maxy win)) eqn:Hrow; simpl;
    [|contradiction].
  apply andb_prop in Hrow. destruct Hrow as [Hr0 Hr1].
  apply Z.leb_le in Hr0. apply Z.ltb_lt in Hr1.
  set (xx := if x <? 0 then 0 else x).
  destruct (maxx win <=? xx) eqn:Hcol; [contradiction|].
  apply Z.leb_gt in Hcol.
  set (seg0 := if x <? 0 then str_drop _ _ else _).
  destruct (truthy (str_take (Z.to_nat (Z.max 0 (maxx win - xx))) seg0))
    eqn:Hseg; [|contradiction].
  intros [<-|[]].
  exists xx, (str_take (Z.to_nat (Z.max 0 (maxx win - xx))) seg0).
  split; [reflexivity|]. split; [lia|].
  assert (Hxx : 0 <= xx) by (subst xx; destruct (x <? 0) eqn:Hx;
                             [lia | apply Z.ltb_ge in Hx; exact Hx]).
  split; [lia|].
  apply truthy_length in Hseg. unfold len.
  rewrite str_take_length in *. lia.
Qed.

(** X8. [_draw_lines_mask] never writes outside the window: each call of
    [addstr] is on a row of the window that belongs to the block, starts at
    a column of the window, has a non-empty text, and ends at the right
    border or before it, whatever the position, the lines and the mask. *)
Theorem draw_lines_mask_stays_inside (win : Window) (y x : Z)
  (lines : list string) (visible_fn : Z -> Z -> bool) (attr : Attr)
  (e : Effect) (Hin : In e (_draw_lines_mask win y x lines visible_fn attr)) :
  exists (yy xx : Z) (seg : string),
    e = AddStr yy xx seg attr /\
    0 <= yy < maxy win /\
    y <= yy < y + Z.of_nat (List.length lines) /\
    0 <= xx < maxx win /\
    0 < len seg /\ xx + len seg <= maxx win.
Proof.
  unfold _draw_lines_mask in Hin.
  assert (Hgen : forall (ls : list string) (r : Z), 0 <= r ->
            In e (draw_lines_from win y x visible_fn attr r ls) ->
            exists (yy xx : Z) (seg : string),
              e = AddStr yy xx seg attr /\
              0 <= yy < maxy win /\
              y + r <= yy < y + r + Z.of_nat (List.length ls) /\
              0 <= xx < maxx win /\
              0 < len seg /\ xx + len seg <= maxx win).
  { induction ls as [|ln rest IH]; intros r Hr Hine; [contradiction|].
    cbn [draw_lines_from] in Hine. apply in_app_or in Hine.
    destruct Hine as [Hhere|Hlater].
    - destruct (draw_line_mask_clipped _ _ _ _ _ _ _ _ Hhere)
        as (xx & seg & He & Hrow & Hcol & Hlen & Hend).
      exists (y + r), xx, seg. cbn [List.length]. repeat split; lia || auto.
    - destruct (IH (r + 1) ltac:(lia) Hlater)
        as (yy & xx & seg & He & Hrow & Hblk & Hcol & Hlen & Hend).
      exists yy, xx, seg. cbn [List.length]. repeat split; lia || auto. }
  destruct (Hgen lines 0 ltac:(lia) Hin)
    as (yy & xx & seg & He & Hrow & Hblk & Hcol & Hlen & Hend).
  exists yy, xx, seg. repeat split; lia || auto.
Qed.

Lemma draw_lines_mask_stays_inside_witness :
  exists (yy xx : Z) (seg : string),
    AddStr 0 0 "cd" A_BOLD = AddStr yy xx seg A_BOLD /\
    0 <= yy < maxy sample_window /\
    -1 <= yy < -1 + Z.of_nat (List.length ["xy"; "abcd"]) /\
    0 <= xx < maxx sample_window /\
    0 < len seg /\ xx + len seg <= maxx sample_window.
Proof.
  apply (draw_lines_mask_stays_inside sample_window (-1) (-2)
           ["xy"; "abcd"] (fun _ _ => true) A_BOLD).
  vm_compute. left. reflexivity.
Defined.

Lemma draw_lines_from_inside (win : Window) (y x : Z) (attr : Attr)
  (visible_fn : Z -> Z -> bool) (lines : list string) :
  (forall r c : Z, visible_fn r c = true) ->
  0 <= x ->
  (forall ln : string, In ln lines -> 0 < len ln /\ x + len ln <= maxx win) ->
  forall r : nat,
    0 <= y + Z.of_nat r ->
    y + Z.of_nat r + Z.of_nat (List.length lines) <= maxy win ->
    draw_lines_from win y x visible_fn attr (Z.of_nat r) lines
    = map (fun rl => AddStr (y + Z.of_nat (fst rl)) x (snd rl) attr)
        (combine (seq r (List.length lines)) lines).
Proof.
  intros Hall Hx. induction lines as [|ln rest IH]; intros Hfit r Hr0 Hr1;
    [reflexivity|].
  cbn [draw_lines_from List.length seq combine map fst snd].
  cbn [List.length] in Hr1.
  destruct (Hfit ln (or_introl eq_refl)) as [Hpos Hend].
  assert (Hline : draw_line_mask win y x visible_fn attr (Z.of_nat r) ln
                  = [AddStr (y + Z.of_nat r) x ln attr]).
  { unfold draw_line_mask.
    replace ((0 <=? y + Z.of_nat r) && (y + Z.of_nat r <? maxy win))
      with true
      by (symmetry; apply andb_true_intro; split;
          [apply Z.leb_le | apply Z.ltb_lt]; lia).
    cbn [negb].
    replace (x <? 0) with false by (symmetry; apply Z.ltb_ge; lia).
    replace (maxx win <=? x) with false by (symmetry; apply Z.leb_gt; lia).
    rewrite mask_line_visible by (intros i; apply Hall).
    rewrite str_take_all by (unfold len in Hend, Hpos; lia).
    replace (truthy ln) with true
      by (symmetry; apply truthy_length; unfold len in Hpos; lia).
    reflexivity. }
  rewrite Hline. cbn [app]. f_equal.
  replace (Z.of_nat r + 1) with (Z.of_nat (S r)) by lia.
  apply IH.
  - intros l Hl. apply Hfit. right. exact Hl.
  - lia.
  - lia.
Qed.

Lemma max_len_le (lines : list string) (W : Z) :
  0 <= W -> (forall ln : string, In ln lines -> len ln <= W) ->
  fold_right Z.max 0 (map len lines) <= W.
Proof.
  intros H0. induction lines as [|l ls IH]; simpl; intros Hl; [exact H0|].
  pose proof (Hl l (or_introl eq_refl)) as Hhead.
  assert (Htail : fold_right Z.max 0 (map len ls) <= W)
    by (apply IH; intros ln Hin; apply Hl; right; exact Hin).
  lia.
Qed.

(** X9. A block of non-empty lines that fits into the window, drawn at the
    position [_compute_center] gives and with nothing masked, is written in
    full: line r goes to row y + r, all lines from the same column, none
    cut. *)
Theorem centered_block_drawn_in_full (win : Window) (lines : list string)
  (attr : Attr) (visible_fn : Z -> Z -> bool)
  (Hall : forall r c : Z, visible_fn r c = true)
  (Hrows : Z.of_nat (List.length lines) <= maxy win)
  (Hcols : forall ln : string, In ln lines -> 0 < len ln <= maxx win) :
  let '(y, x, _, _) := _compute_center win lines in
  _draw_lines_mask win y x lines visible_fn attr = rows_at y x attr lines.
Proof.
  assert (Hcase : lines = [] \/ 0 <= maxx win).
  { destruct lines as [|l0 ls]; [left; reflexivity | right].
    specialize (Hcols l0 (or_introl eq_refl)). lia. }
  destruct Hcase as [->|Hw0]; [reflexivity|].
  unfold _compute_center. cbv zeta.
  set (th := Z.of_nat (List.length lines)) in *.
  set (tw := fold_right Z.max 0 (map len lines)).
  set (y := Z.max 0 ((maxy win - th) / 2)).
  set (x := Z.max 0 ((maxx win - tw) / 2)).
  unfold _draw_lines_mask, rows_at.
  assert (Htw : tw <= maxx win).
  { apply max_len_le; [exact Hw0|]. intros ln Hin. apply Hcols. exact Hin. }
  assert (Hx : 0 <= x /\ x + tw <= maxx win).
  { pose proof (Z.div_mod (maxx win - tw) 2 ltac:(lia)) as Hd.
    pose proof (Z.mod_pos_bound (maxx win - tw) 2 ltac:(lia)) as Hb.
    assert (0 <= (maxx win - tw) / 2) by (apply Z.div_pos; lia).
    subst x. lia. }
  assert (Hy : 0 <= y /\ y + th <= maxy win).
  { pose proof (Z.div_mod (maxy win - th) 2 ltac:(lia)) as Hd.
    pose proof (Z.mod_pos_bound (maxy win - th) 2 ltac:(lia)) as Hb.
    assert (0 <= (maxy win - th) / 2) by (apply Z.div_pos; lia).
    subst y. lia. }
  change 0 with (Z.of_nat 0) at 1.
  apply draw_lines_from_inside.
  - exact Hall.
  - lia.
  - intros ln Hin. pose proof (Hcols ln Hin).
    pose proof (max_len_bound lines ln Hin). fold tw in H0. lia.
  - simpl. lia.
  - simpl. fold th. lia.
Qed.

Lemma centered_block_drawn_in_full_witness :
  _draw_lines_mask sample_window 10 37 ["ab"; "abcde"; "abc"]
    (fun _ _ => true) A_BOLD
  = [AddStr 10 37 "ab" A_BOLD; AddStr 11 37 "abcde" A_BOLD;
     AddStr 12 37 "abc" A_BOLD].
Proof.
  pose proof (centered_block_drawn_in_full sample_window
                ["ab"; "abcde"; "abc"] A_BOLD (fun _ _ => true)) as H.
  cbv beta iota zeta delta [_compute_center] in H.
  apply H.
  - reflexivity.
  - vm_compute. discriminate.
  - intros ln [<-|[<-|[<-|[]]]]; vm_compute; split; congruence.
Defined.

End DrawingFacts.

(** ** More on the animations *)

Section AnimationFrames.

Lemma py_int_of_integer (x : Q) (z : Z) : (x == inject_Z z)%Q -> py_int x = z.
Proof.
  unfold Qeq, py_int. simpl. intros H. rewrite Z.mul_1_r in H. rewrite H.
  apply Z.quot_mul. discriminate.
Qed.

Lemma frame_count_pos (duration : Q) (fps : Z) : 1 <= frame_count duration fps.
Proof. unfold frame_count. lia. Qed.

Lemma frame_fraction_zero (frames : Z) :
  (inject_Z (Z.of_nat 0) / inject_Z frames == 0)%Q.
Proof. unfold Qdiv. simpl. apply Qmult_0_l. Qed.

Lemma frame_fraction_one (frames : Z) :
  1 <= frames ->
  (inject_Z (Z.of_nat (Z.to_nat frames)) / inject_Z frames == 1)%Q.
Proof.
  intros Hf. rewrite Z2Nat.id by lia.
  apply Qmult_inv_r. unfold Qeq. simpl. lia.
Qed.

Lemma frame_loop_quiet (body : nat -> list Effect) (workers : nat -> bool)
  (indices : list nat) :
  (forall i : nat, workers i = false) ->
  frame_loop body workers false indices = (false, flat_map body indices).
Proof.
  intros Hq. induction indices as [|i rest IH]; [reflexivity|].
  cbn [frame_loop flat_map]. rewrite Hq. unfold interfere, is_set.
  rewrite IH. reflexivity.
Qed.

Lemma draw_lines_from_above (win : Window) (y x : Z)
  (visible_fn : Z -> Z -> bool) (attr : Attr) (lines : list string) :
  forall r : Z,
    y + r + Z.of_nat (List.length lines) <= 0 ->
    draw_lines_from win y x visible_fn attr r lines = [].
Proof.
  induction lines as [|ln rest IH]; intros r Hr; [reflexivity|].
  cbn [draw_lines_from List.length] in *.
  rewrite IH by lia. unfold draw_line_mask.
  replace (0 <=? y + r) with false by (symmetry; apply Z.leb_gt; lia).
  reflexivity.
Qed.




(** The frame count is taken on doubles: 0.58 * 50 is 28.999999999999996
    and gives 28, and the double next to 0.6 times 50 is 30. *)
Example frame_count_on_doubles :
  frame_count (58 # 100) 50 = 28 /\ frame_count (6 # 10) 50 = 30 /\
  frame_count (55 # 100) 50 = 27 /\ frame_count (1 # 1000) 50 = 1 /\
  Qred (round_double (1 # 10)) = (3602879701896397 # 36028797018963968)%Q.
Proof. vm_compute. repeat split; reflexivity. Qed.



(** X11. The slide-out starts where the block is centered, bold and with
    the visibility threshold 1, and ends with the block wholly above the
    window, dim and with the threshold 0: its last frame hands nothing to
    [addstr]. *)
Theorem slide_out_endpoints (win : Window) (lines : list string)
  (duration : Q) (fps : Z) :
  let '(y0, x0, th, _) := _compute_center win lines in
  let last := Z.to_nat (frame_count duration fps) in
  (exists vis : Q,
     slide_frame win lines duration fps 0
     = [Erase; DrawLinesMask y0 x0 lines vis A_BOLD; Refresh;
        Sleep (1 / inject_Z fps)] /\ (vis == 1)%Q) /\
  (exists vis : Q,
     slide_frame win lines duration fps last
     = [Erase; DrawLinesMask (- th - 2) x0 lines vis A_DIM; Refresh;
        Sleep (1 / inject_Z fps)] /\ (vis == 0)%Q) /\
  flat_map (addstr_calls win) (slide_frame win lines duration fps last) = [].
Proof.
  pose proof (frame_count_pos duration fps) as Hf.
  pose proof (frame_fraction_zero (frame_count duration fps)) as Ht0.
  pose proof (frame_fraction_one (frame_count duration fps) Hf) as Ht1.
  unfold slide_frame.
  pose proof (compute_center_height win lines) as Hth.
  destruct (_compute_center win lines) as [[[y0 x0] th] tw].
  cbv zeta.
  set (t0 := (inject_Z (Z.of_nat 0) / inject_Z (frame_count duration fps))%Q)
    in *.
  set (t1 := (inject_Z (Z.of_nat (Z.to_nat (frame_count duration fps)))
              / inject_Z (frame_count duration fps))%Q) in *.
  assert (He0 : (_ease_out_cubic t0 == 0)%Q).
  { apply easing_at_ends. rewrite Ht0. apply Qle_refl. }
  assert (He1 : (_ease_out_cubic t1 == 1)%Q).
  { apply easing_at_ends. rewrite Ht1. apply Qle_refl. }
  assert (Hoff0 : py_int (inject_Z (y0 + th + 2) * _ease_out_cubic t0) = 0).
  { apply py_int_of_integer. rewrite He0. apply Qmult_0_r. }
  assert (Hoff1 : py_int (inject_Z (y0 + th + 2) * _ease_out_cubic t1)
                  = y0 + th + 2).
  { apply py_int_of_integer. rewrite He1. apply Qmult_1_r. }
  rewrite Hoff0, Hoff1.
  assert (Ha0 : _attr_for_fade t0 = A_BOLD).
  { unfold _attr_for_fade.
    destruct (Qlt_le_dec t0 (33 # 100)) as [_|L]; [reflexivity | lra]. }
  assert (Ha1 : _attr_for_fade t1 = A_DIM).
  { unfold _attr_for_fade.
    destruct (Qlt_le_dec t1 (33 # 100)) as [L|_]; [lra|].
    destruct (Qlt_le_dec t1 (66 # 100)) as [L|_]; [lra | reflexivity]. }
  rewrite Ha0, Ha1.
  replace (x0 + 0 * 0) with x0 by lia.
  replace (y0 + -1 * 0) with y0 by lia.
  replace (x0 + 0 * (y0 + th + 2)) with x0 by lia.
  replace (y0 + -1 * (y0 + th + 2)) with (- th - 2) by lia.
  split; [|split].
  - eexists. split; [reflexivity|]. rewrite Ht0. reflexivity.
  - eexists. split; [reflexivity|]. rewrite Ht1. reflexivity.
  - cbn [flat_map addstr_calls app]. unfold _draw_lines_mask.
    rewrite app_nil_r. apply draw_lines_from_above. lia.
Qed.

(** X12. The bounce-in starts with the block wholly above the window, so
    that its first frame hands nothing to [addstr], and ends with the block
    at its centered position, bold and with the visibility threshold 1. *)
Theorem bounce_in_endpoints (win : Window) (lines : list string)
  (duration : Q) (fps : Z) :
  let '(y0, x0, th, _) := _compute_center win lines in
  let last := Z.to_nat (frame_count duration fps) in
  (exists (vis : Q) (attr : Attr),
     bounce_frame win lines duration fps 0
     = [Erase; DrawLinesMask (- th - 2) x0 lines vis attr; Refresh;
        Sleep (1 / inject_Z fps)]) /\
  flat_map (addstr_calls win) (bounce_frame win lines duration fps 0) = [] /\
  (exists vis : Q,
     bounce_frame win lines duration fps last
     = [Erase; DrawLinesMask y0 x0 lines vis A_BOLD; Refresh;
        Sleep (1 / inject_Z fps)] /\ (vis == 1)%Q).
Proof.
  pose proof (frame_count_pos duration fps) as Hf.
  pose proof (frame_fraction_zero (frame_count duration fps)) as Ht0.
  pose proof (frame_fraction_one (frame_count duration fps) Hf) as Ht1.
  unfold bounce_frame.
  pose proof (compute_center_height win lines) as Hth.
  destruct (_compute_center win lines) as [[[y0 x0] th] tw].
  cbv zeta.
  set (t0 := (inject_Z (Z.of_nat 0) / inject_Z (frame_count duration fps))%Q)
    in *.
  set (t1 := (inject_Z (Z.of_nat (Z.to_nat (frame_count duration fps)))
              / inject_Z (frame_count duration fps))%Q) in *.
  assert (He0 : (_ease_out_bounce t0 == 0)%Q).
  { apply easing_at_ends. rewrite Ht0. apply Qle_refl. }
  assert (He1 : (_ease_out_bounce t1 == 1)%Q).
  { apply easing_at_ends. rewrite Ht1. apply Qle_refl. }
  assert (Hy0 : py_int (inject_Z (- th - 2)
                        + inject_Z (y0 - (- th - 2)) * _ease_out_bounce t0)
                = - th - 2).
  { apply py_int_of_integer. rewrite He0. ring. }
  assert (Hy1 : py_int (inject_Z (- th - 2)
                        + inject_Z (y0 - (- th - 2)) * _ease_out_bounce t1)
                = y0).
  { apply py_int_of_integer. rewrite He1. rewrite Qmult_1_r.
    rewrite <- inject_Z_plus. f_equiv. lia. }
  rewrite Hy0, Hy1.
  assert (Ha1 : _attr_for_fade (1 - t1) = A_BOLD).
  { unfold _attr_for_fade.
    destruct (Qlt_le_dec (1 - t1) (33 # 100)) as [_|L];
      [reflexivity | lra]. }
  rewrite Ha1.
  split; [|split].
  - eexists. eexists. reflexivity.
  - cbn [flat_map addstr_calls app]. unfold _draw_lines_mask.
    rewrite app_nil_r. apply draw_lines_from_above. lia.
  - eexists. split; [reflexivity|]. rewrite Ht1. reflexivity.
Qed.

End AnimationFrames.

(** ** The error shake *)

Section ShakeFacts.

Lemma shake_offset_bounded (amplitude : Z) (i : nat) :
  0 <= amplitude ->
  let pattern := shake_pattern amplitude in
  let dx :=
    nth (Z.to_nat (Z.of_nat i mod Z.of_nat (List.length pattern))) pattern 0
  in
  - amplitude <= dx <= amplitude /\ (Z.of_nat i mod 6 = 0 -> dx = 0).
Proof.
  intros Ha. cbv zeta. unfold shake_pattern. cbn [List.length].
  change (Z.of_nat 6) with 6.
  pose proof (Z.mod_pos_bound (Z.of_nat i) 6 ltac:(lia)) as Hk.
  pose proof (Z.div_mod amplitude 2 ltac:(lia)) as Hd.
  pose proof (Z.mod_pos_bound amplitude 2 ltac:(lia)) as Hb.
  pose proof (Z.div_mod (- amplitude) 2 ltac:(lia)) as Hd'.
  pose proof (Z.mod_pos_bound (- amplitude) 2 ltac:(lia)) as Hb'.
  set (k := Z.of_nat i mod 6) in *.
  assert (Hcases : k = 0 \/ k = 1 \/ k = 2 \/ k = 3 \/ k = 4 \/ k = 5) by lia.
  destruct Hcases as [->|[->|[->|[->|[->| ->]]]]]; simpl; split; lia.
Qed.

(** X13. The error shake, for an amplitude that is not negative: every
    frame redraws the panel at a horizontal offset between minus and plus
    the amplitude and at the vertical offset 0, and the offset is 0 in each
    sixth frame from the first on.  Given no event it draws all its cycles;
    given an event that is set it draws nothing; with animations disabled
    it is one draw at offset (0, 0). *)
Theorem shake_panel_offsets (cfg : Config)
  (draw_fn : Z -> Z -> list Effect) (cycles amplitude fps : Z)
  (workers : nat -> bool) (Hamp : 0 <= amplitude) :
  (forall i : nat,
     exists dx : Z,
       shake_frame draw_fn amplitude fps i
       = [Erase] ++ draw_fn dx 0 ++ [Refresh; Sleep (1 / inject_Z fps)] /\
       - amplitude <= dx <= amplitude /\
       (Z.of_nat i mod 6 = 0 -> dx = 0)) /\
  (ANIM_ENABLED cfg = true ->
   shake_panel cfg draw_fn cycles amplitude fps None workers
   = (None,
      flat_map (shake_frame draw_fn amplitude fps) (range cycles)) /\
   shake_panel cfg draw_fn cycles amplitude fps (Some true) workers
   = (Some true, [])) /\
  (ANIM_ENABLED cfg = false ->
   forall ev : option Event,
     shake_panel cfg draw_fn cycles amplitude fps ev workers
     = (ev, draw_fn 0 0)).
Proof.
  split; [|split].
  - intros i. eexists. split; [reflexivity|].
    exact (shake_offset_bounded amplitude i Hamp).
  - intros Hon. unfold shake_panel. rewrite Hon. simpl.
    rewrite frame_loop_preset by reflexivity. auto.
  - intros Hoff ev. unfold shake_panel. rewrite Hoff. reflexivity.
Qed.

Lemma shake_panel_offsets_witness :
  (forall i : nat,
     exists dx : Z,
       shake_frame (fun dx dy => [AddStr dy dx "panel" A_NORMAL]) 3 60 i
       = [Erase] ++ [AddStr 0 dx "panel" A_NORMAL]
         ++ [Refresh; Sleep (1 / inject_Z 60)] /\
       - 3 <= dx <= 3 /\
       (Z.of_nat i mod 6 = 0 -> dx = 0)) /\
  (ANIM_ENABLED sample_config = true ->
   shake_panel sample_config (fun dx dy => [AddStr dy dx "panel" A_NORMAL])
     10 3 60 None (fun _ => false)
   = (None,
      flat_map
        (shake_frame (fun dx dy => [AddStr dy dx "panel" A_NORMAL]) 3 60)
        (range 10)) /\
   shake_panel sample_config (fun dx dy => [AddStr dy dx "panel" A_NORMAL])
     10 3 60 (Some true) (fun _ => false)
   = (Some true, [])) /\
  (ANIM_ENABLED sample_config = false ->
   forall ev : option Event,
     shake_panel sample_config
       (fun dx dy => [AddStr dy dx "panel" A_NORMAL]) 10 3 60 ev
       (fun _ => false)
     = (ev, [AddStr 0 0 "panel" A_NORMAL])).
Proof.
  apply (shake_panel_offsets sample_config
           (fun dx dy => [AddStr dy dx "panel" A_NORMAL]) 10 3 60
           (fun _ => false)).
  lia.
Defined.

End ShakeFacts.

(** ** Keys *)

Section KeyFacts.
Variable cfg : Config.

Lemma drop_last_append (s : string) (c : ascii) :
  drop_last (String.append s (String c EmptyString)) = s.
Proof.
  induction s as [|a s IH]; [reflexivity|].
  cbn [String.append drop_last]. rewrite IH.
  destruct s; reflexivity.
Qed.

Lemma append_length (s : string) (c : ascii) :
  String.length (String.append s (String c EmptyString))
  = S (String.length s).
Proof.
  induction s as [|a s IH]; [reflexivity|]. simpl. rewrite IH. reflexivity.
Qed.

(** X14. In PasswordEntry, a key from 32 to 255 other than 127 makes the
    buffer one character longer, and a backspace (263, 127 or 8) right
    after it gives back the controller as it was before the key. *)
Theorem type_then_backspace (st : TTYSafeLock.t) (ch bs : Z)
  (amb : Ambient)
  (Hmode : password_mode st = true)
  (Hch : 32 <= ch < 256) (Hdel : ch <> 127)
  (Hbs : bs = KEY_BACKSPACE \/ bs = 127 \/ bs = 8) :
  let typed := handle_input cfg st ch amb in
  let erased := handle_input cfg (fst (fst typed)) bs amb in
  password_buffer (fst (fst typed))
    = String.append (password_buffer st) (chr ch) /\
  String.length (password_buffer (fst (fst typed)))
    = S (String.length (password_buffer st)) /\
  snd (fst typed) = [] /\ snd typed = None /\
  erased = (st, [], None).
Proof.
  assert (Htyped : handle_input cfg st ch amb
                   = (with_entry st (password_mode st)
                        (String.append (password_buffer st) (chr ch))
                        (message st), [], None)).
  { unfold handle_input, handle_password_input. rewrite Hmode.
    replace (ch =? 27) with false by (symmetry; apply Z.eqb_neq; lia).
    replace (ch =? 10) with false by (symmetry; apply Z.eqb_neq; lia).
    replace (ch =? 13) with false by (symmetry; apply Z.eqb_neq; lia).
    replace (ch =? KEY_BACKSPACE) with false
      by (symmetry; apply Z.eqb_neq; unfold KEY_BACKSPACE; lia).
    replace (ch =? 127) with false by (symmetry; apply Z.eqb_neq; lia).
    replace (ch =? 8) with false by (symmetry; apply Z.eqb_neq; lia).
    replace (32 <=? ch) with true by (symmetry; apply Z.leb_le; lia).
    replace (ch <? 256) with true by (symmetry; apply Z.ltb_lt; lia).
    reflexivity. }
  cbv zeta. rewrite Htyped. cbn [fst snd].
  split; [reflexivity|].
  split; [apply append_length|].
  split; [reflexivity|]. split; [reflexivity|].
  unfold handle_input, handle_password_input. cbn [password_mode with_entry].
  rewrite Hmode.
  assert (Hbranch : (bs =? 27) = false /\ ((bs =? 10) || (bs =? 13)) = false
                    /\ ((bs =? KEY_BACKSPACE) || (bs =? 127) || (bs =? 8))
                       = true).
  { unfold KEY_BACKSPACE in *.
    destruct Hbs as [->|[->| ->]]; repeat split; reflexivity. }
  destruct Hbranch as (H27 & Henter & Hback).
  rewrite H27, Henter, Hback.
  cbn [password_mode password_buffer message with_entry].
  unfold chr. rewrite drop_last_append.
  destruct st. simpl in *. subst. reflexivity.
Qed.

(** X15. Keys that mean nothing in the current mode change nothing, draw
    nothing and raise nothing: in PasswordEntry every code below 32 or from
    256 on other than escape, enter and the backspaces, the arrow keys
    among them; in MainScreen every code other than space, left and
    right. *)
Theorem idle_keys_change_nothing (st : TTYSafeLock.t) (ch : Z)
  (amb : Ambient) :
  (password_mode st = true ->
   ch < 32 \/ 256 <= ch ->
   ch <> 27 -> ch <> 10 -> ch <> 13 -> ch <> 8 -> ch <> KEY_BACKSPACE ->
   handle_input cfg st ch amb = (st, [], None)) /\
  (password_mode st = true ->
   handle_input cfg st KEY_LEFT amb = (st, [], None) /\
   handle_input cfg st KEY_RIGHT amb = (st, [], None)) /\
  (password_mode st = false ->
   ch <> 32 -> ch <> KEY_LEFT -> ch <> KEY_RIGHT ->
   handle_input cfg st ch amb = (st, [], None)).
Proof.
  split; [|split].
  - intros Hmode Hrange H27 H10 H13 H8 Hback.
    unfold handle_input, handle_password_input. rewrite Hmode.
    replace (ch =? 27) with false by (symmetry; apply Z.eqb_neq; lia).
    replace (ch =? 10) with false by (symmetry; apply Z.eqb_neq; lia).
    replace (ch =? 13) with false by (symmetry; apply Z.eqb_neq; lia).
    replace (ch =? KEY_BACKSPACE) with false
      by (symmetry; apply Z.eqb_neq; lia).
    replace (ch =? 8) with false by (symmetry; apply Z.eqb_neq; lia).
    destruct (ch =? 127) eqn:H127; [apply Z.eqb_eq in H127; lia|].
    cbn [orb].
    destruct Hrange as [Hlow|Hhigh].
    + replace (32 <=? ch) with false by (symmetry; apply Z.leb_gt; lia).
      reflexivity.
    + replace (ch <? 256) with false by (symmetry; apply Z.ltb_ge; lia).
      rewrite andb_false_r. reflexivity.
  - intros Hmode. unfold handle_input. rewrite Hmode. split; reflexivity.
  - intros Hmode H32 Hl Hr. unfold handle_input, handle_main_input.
    rewrite Hmode.
    replace (ch =? 32) with false by (symmetry; apply Z.eqb_neq; lia).
    replace (ch =? KEY_LEFT) with false by (symmetry; apply Z.eqb_neq; lia).
    replace (ch =? KEY_RIGHT) with false
      by (symmetry; apply Z.eqb_neq; lia).
    reflexivity.
Qed.

(** X16. Entering PasswordEntry with space and leaving it with escape both
    empty the password buffer and the message and leave the session choice
    and the popup alone, whatever is on the screen and whatever the workers
    do during the animation; the unlock event is changed by nobody but a
    worker that succeeds meanwhile. *)
Theorem mode_switch_clears_entry (st : TTYSafeLock.t) (amb : Ambient) :
  let enter := fst (fst (handle_input cfg st 32 amb)) in
  let leave := fst (fst (handle_input cfg st 27 amb)) in
  (password_mode st = false ->
   password_mode enter = true /\
   password_buffer enter = "" /\ message enter = "" /\
   desktop_choices enter = desktop_choices st /\
   desktop_index enter = desktop_index st /\
   popup enter = popup st /\
   ((forall i : nat, worker_auth amb i = false) ->
    unlocked_event enter = unlocked_event st)) /\
  (password_mode st = true ->
   password_mode leave = false /\
   password_buffer leave = "" /\ message leave = "" /\
   desktop_choices leave = desktop_choices st /\
   desktop_index leave = desktop_index st /\
   popup leave = popup st /\
   ((forall i : nat, worker_auth amb i = false) ->
    unlocked_event leave = unlocked_event st)).
Proof.
  assert (Hquiet : forall (style : string) (entering : bool) (d : Q),
            (forall i : nat, worker_auth amb i = false) ->
            fst (play_anim cfg (stdscr amb) style (clock amb)
                   (unlocked_event st) (worker_auth amb) entering d 50)
            = unlocked_event st).
  { intros style entering d Hq.
    unfold play_anim, anim_slide, anim_bounce_in.
    destruct (ANIM_ENABLED cfg); [|reflexivity]. simpl.
    destruct (unlocked_event st) eqn:Hev.
    - destruct entering; simpl; rewrite frame_loop_preset; reflexivity.
    - destruct entering; simpl; rewrite frame_loop_quiet; auto. }
  cbv zeta. split; intros Hmode.
  - unfold handle_input, handle_main_input. rewrite Hmode.
    cbn [Z.eqb Pos.eqb].
    pose proof (Hquiet (ANIM_OUT_STYLE cfg) false (ANIM_DURATION_OUT cfg))
      as Hq.
    destruct (play_anim _ _ _ _ _ _ _ _ _) as [ev tr].
    cbn [fst snd] in *. repeat split; auto.
  - unfold handle_input, handle_password_input. rewrite Hmode.
    cbn [Z.eqb Pos.eqb].
    pose proof (Hquiet (ANIM_IN_STYLE cfg) true (ANIM_DURATION_IN cfg))
      as Hq.
    cbn [unlocked_event with_entry] in *.
    destruct (play_anim _ _ _ _ _ _ _ _ _) as [ev tr].
    cbn [fst snd] in *. repeat split; auto.
Qed.

End KeyFacts.

Lemma type_then_backspace_witness :
  let typed := handle_input sample_config typed_x 121 quiet in
  let erased := handle_input sample_config (fst (fst typed)) 127 quiet in
  password_buffer (fst (fst typed))
    = String.append (password_buffer typed_x) (chr 121) /\
  String.length (password_buffer (fst (fst typed)))
    = S (String.length (password_buffer typed_x)) /\
  snd (fst typed) = [] /\ snd typed = None /\
  erased = (typed_x, [], None).
Proof.
  apply (type_then_backspace sample_config typed_x 121 127 quiet); try reflexivity.
  - lia.
  - discriminate.
  - right. left. reflexivity.
Defined.

Lemma idle_keys_change_nothing_witness :
  handle_input sample_config typed_x KEY_LEFT quiet = (typed_x, [], None) /\
  handle_input sample_config (TTYSafeLock.init sample_config) 120 quiet
  = (TTYSafeLock.init sample_config, [], None).
Proof.
  destruct (idle_keys_change_nothing sample_config typed_x 120 quiet) as (_ & Harrow & _).
  destruct (idle_keys_change_nothing sample_config
              (TTYSafeLock.init sample_config) 120 quiet) as (_ & _ & Hmain).
  split.
  - exact (proj1 (Harrow eq_refl)).
  - apply Hmain; [reflexivity | | |]; discriminate.
Defined.

Lemma mode_switch_clears_entry_witness :
  password_mode (fst (fst (handle_input sample_config typed_x 27 quiet)))
  = false /\
  password_buffer (fst (fst (handle_input sample_config typed_x 27 quiet)))
  = "" /\
  password_mode
    (fst (fst (handle_input sample_config (TTYSafeLock.init sample_config)
                 32 quiet))) = true.
Proof.
  destruct (mode_switch_clears_entry sample_config typed_x quiet) as (_ & Hleave).
  destruct (mode_switch_clears_entry sample_config
              (TTYSafeLock.init sample_config) quiet)
    as (Henter & _).
  destruct (Hleave eq_refl) as (H1 & H2 & _).
  destruct (Henter eq_refl) as (H3 & _).
  auto.
Defined.

(** ** What a run does and does not *)

Section RunFacts.
Variable cfg : Config.

Lemma launches_app (tr1 tr2 : list Effect) :
  launches (tr1 ++ tr2) = launches tr1 || launches tr2.
Proof. apply existsb_app. Qed.

Lemma frame_loop_no_popen (body : nat -> list Effect)
  (workers : nat -> bool) (indices : list nat) :
  (forall i : nat, launches (body i) = false) ->
  forall ev : Event,
    launches (snd (frame_loop body workers ev indices)) = false.
Proof.
  intros Hbody. induction indices as [|i rest IH]; intros ev; [reflexivity|].
  cbn [frame_loop].
  destruct (is_set (interfere (workers i) ev)); [reflexivity|].
  specialize (IH (interfere (workers i) ev)).
  destruct (frame_loop body workers (interfere (workers i) ev) rest)
    as [ev' tr].
  cbn [snd] in *. rewrite launches_app, Hbody, IH. reflexivity.
Qed.

Lemma play_anim_no_popen (win : Window) (style : string)
  (lines : list string) (ev : Event) (workers : nat -> bool)
  (entering : bool) (duration : Q) (fps : Z) :
  launches (snd (play_anim cfg win style lines ev workers entering
                   duration fps)) = false.
Proof.
  unfold play_anim, anim_slide, anim_bounce_in.
  destruct (ANIM_ENABLED cfg); [|reflexivity]. simpl.
  destruct entering; simpl; apply frame_loop_no_popen; intros i.
  - unfold bounce_frame.
    destruct (_compute_center win lines) as [[[y0 x0] th] tw]. reflexivity.
  - unfold slide_frame.
    destruct (_compute_center win lines) as [[[y0 x0] th] tw]. reflexivity.
Qed.

Lemma play_anim_quiet (win : Window) (style : string)
  (lines : list string) (workers : nat -> bool) (entering : bool)
  (duration : Q) (fps : Z) :
  (forall i : nat, workers i = false) ->
  fst (play_anim cfg win style lines false workers entering duration fps)
  = false.
Proof.
  intros Hq. unfold play_anim, anim_slide, anim_bounce_in.
  destruct (ANIM_ENABLED cfg); [|reflexivity]. simpl.
  destruct entering; simpl; rewrite frame_loop_quiet; auto.
Qed.

(** What one key can do. *)
Lemma handle_input_outcome (st : TTYSafeLock.t) (ch : Z) (amb : Ambient) :
  let '(st', tr, exc) := handle_input cfg st ch amb in
  launches tr = false /\
  (exc = None \/ exc = Some line_447_error) /\
  popup st' = popup st /\
  ((forall s : string, verify_password cfg s = false) ->
   silent amb -> unlocked_event st = false -> unlocked_event st' = false).
Proof.
  unfold handle_input.
  destruct (password_mode st).
  - unfold handle_password_input.
    destruct (ch =? 27).
    { pose proof (play_anim_no_popen (stdscr amb) (ANIM_IN_STYLE cfg)
                    (clock amb) (unlocked_event (with_entry st false "" ""))
                    (worker_auth amb) true (ANIM_DURATION_IN cfg) 50) as Hn.
      pose proof (play_anim_quiet (stdscr amb) (ANIM_IN_STYLE cfg)
                    (clock amb) (worker_auth amb) true
                    (ANIM_DURATION_IN cfg) 50) as Hq.
      cbn [unlocked_event with_entry] in *.
      destruct (play_anim _ _ _ _ _ _ _ _ _) as [ev tr] eqn:Hp.
      cbn [fst snd] in *. split; [exact Hn|]. split; [auto|].
      split; [reflexivity|].
      intros _ Hs Hev. rewrite Hev in Hp. rewrite Hp in Hq.
      cbn [unlocked_event with_event]. apply Hq. exact Hs. }
    destruct ((ch =? 10) || (ch =? 13)).
    { destruct (verify_password cfg (password_buffer st)) eqn:Hv.
      - split; [reflexivity|]. split; [auto|]. split; [reflexivity|].
        intros Hrej. rewrite Hrej in Hv. discriminate.
      - rewrite call_shake_panel_line_447.
        split; [reflexivity|]. split; [right; reflexivity|].
        split; [reflexivity|]. intros _ _ Hev. exact Hev. }
    destruct ((ch =? KEY_BACKSPACE) || (ch =? 127) || (ch =? 8)).
    { repeat split; auto. }
    destruct ((32 <=? ch) && (ch <? 256)); repeat split; auto.
  - unfold handle_main_input.
    destruct (ch =? 32).
    { pose proof (play_anim_no_popen (stdscr amb) (ANIM_OUT_STYLE cfg)
                    (clock amb) (unlocked_event st)
                    (worker_auth amb) false (ANIM_DURATION_OUT cfg) 50)
        as Hn.
      pose proof (play_anim_quiet (stdscr amb) (ANIM_OUT_STYLE cfg)
                    (clock amb) (worker_auth amb) false
                    (ANIM_DURATION_OUT cfg) 50) as Hq.
      destruct (play_anim _ _ _ _ _ _ _ _ _) as [ev tr] eqn:Hp.
      cbn [fst snd] in *. split.
      { rewrite launches_app, Hn. reflexivity. }
      split; [auto|]. split; [reflexivity|].
      intros _ Hs Hev. rewrite Hev in Hp. rewrite Hp in Hq.
      cbn [unlocked_event with_event with_entry]. apply Hq. exact Hs. }
    destruct (ch =? KEY_LEFT); [repeat split; auto|].
    destruct (ch =? KEY_RIGHT); repeat split; auto.
Qed.

Lemma perform_no_success (acts : list Action) :
  no_success acts = true ->
  forall st : TTYSafeLock.t,
    unlocked_event (fold_left perform acts st) = unlocked_event st.
Proof.
  induction acts as [|a acts IH]; intros Hn st; [reflexivity|].
  cbn [no_success forallb] in Hn. apply andb_prop in Hn.
  destruct Hn as [Ha Hn]. cbn [fold_left].
  rewrite IH by exact Hn. destruct a; [reflexivity | discriminate].
Qed.

Lemma perform_session (acts : list Action) :
  forall st : TTYSafeLock.t,
    session_ok cfg st -> session_ok cfg (fold_left perform acts st).
Proof.
  induction acts as [|a acts IH]; intros st Hok; [exact Hok|].
  cbn [fold_left]. apply IH.
  exact (step_session cfg st _ (step_worker cfg st a) Hok).
Qed.

Lemma perform_popup (acts : list Action) :
  forall st : TTYSafeLock.t,
    popup_ok (popup st) -> popup_ok (popup (fold_left perform acts st)).
Proof.
  induction acts as [|a acts IH]; intros st Hok; [exact Hok|].
  cbn [fold_left]. apply IH.
  destruct a; [intros _; discriminate | exact Hok].
Qed.

Lemma draw_main_screen_outcome (st : TTYSafeLock.t) (lines : list string)
  (h w : Z) :
  launches (fst (draw_main_screen st lines h w)) = false /\
  (session_ok cfg st -> snd (draw_main_screen st lines h w) = None).
Proof.
  unfold draw_main_screen.
  destruct (desktop_choices st) as [|k ks] eqn:Hc; [auto|].
  destruct (list_get (k :: ks) (desktop_index st)) as [key|] eqn:Hg;
    [auto|].
  split; [reflexivity|]. intros (_ & _ & Hv). exfalso.
  rewrite Hc in Hv.
  destruct (list_get_valid (k :: ks) (desktop_index st)) as [key Hkey];
    [apply Hv; discriminate | congruence].
Qed.

Lemma render_no_popen (p : PopupManager.t) (win : Window) (a b : Q) :
  launches (snd (fst (PopupManager.render p win a b))) = false.
Proof.
  unfold PopupManager.render.
  destruct (PopupManager.message p) as [m|]; [|reflexivity].
  destruct (truthy m); [|reflexivity]. simpl.
  destruct (PopupManager.start_time p) as [t0|]; [|reflexivity].
  destruct (Qlt_le_dec 1 (a - t0)); reflexivity.
Qed.

(** The render loop, one invariant at a time. *)
Lemma run_loop_outcome (ticks : list Tick) :
  forall st : TTYSafeLock.t,
    let '(st', tr, c) := run_loop cfg st ticks in
    launches tr = false /\
    (c = Returned /\ is_set (unlocked_event st') = false ->
     exists tk : Tick, In tk ticks /\ key tk = CtrlC) /\
    (session_ok cfg st -> popup_ok (popup st) ->
     session_ok cfg st' /\
     (c = Running \/ c = Returned \/ c = Raised line_447_error)) /\
    ((forall s : string, verify_password cfg s = false) ->
     Forall calm ticks -> unlocked_event st = false ->
     unlocked_event st' = false).
Proof.
  assert (Hdone : forall (st : TTYSafeLock.t) (c : Completion)
                     (ts : list Tick),
            (c = Returned -> is_set (unlocked_event st) = true) ->
            c = Running \/ c = Returned ->
            launches [] = false /\
            (c = Returned /\ is_set (unlocked_event st) = false ->
             exists tk : Tick, In tk ts /\ key tk = CtrlC) /\
            (session_ok cfg st -> popup_ok (popup st) ->
             session_ok cfg st /\
             (c = Running \/ c = Returned \/ c = Raised line_447_error)) /\
            ((forall s : string, verify_password cfg s = false) ->
             Forall calm ts -> unlocked_event st = false ->
             unlocked_event st = false)).
  { intros st c ts Hret Hc. split; [reflexivity|]. split.
    - intros [Hr Hs]. rewrite (Hret Hr) in Hs. discriminate.
    - split.
      + intros Hok _. split; [exact Hok|]. destruct Hc; auto.
      + intros _ _ Hev. exact Hev. }
  induction ticks as [|tk rest IH]; intros st.
  { cbn [run_loop]. destruct (is_set (unlocked_event st)) eqn:Hset.
    - apply Hdone; auto.
    - apply Hdone; [discriminate | auto]. }
  cbn [run_loop]. destruct (is_set (unlocked_event st)) eqn:Hset.
  { apply Hdone; auto. }
  set (st1 := fold_left perform (worker_actions tk) st).
  assert (Hst1 : (session_ok cfg st -> session_ok cfg st1) /\
                 (popup_ok (popup st) -> popup_ok (popup st1)) /\
                 (no_success (worker_actions tk) = true ->
                  unlocked_event st1 = unlocked_event st)).
  { subst st1. split; [apply perform_session|].
    split; [apply perform_popup|]. intros Hn.
    apply perform_no_success. exact Hn. }
  destruct Hst1 as (Hs1 & Hp1 & He1).
  set (panel := if password_mode st1
                then (draw_password_panel st1 (maxy (stdscr (amb tk)))
                        (maxx (stdscr (amb tk))), None)
                else draw_main_screen st1 (clock (amb tk))
                       (maxy (stdscr (amb tk))) (maxx (stdscr (amb tk)))).
  assert (Hpanel : launches (fst panel) = false /\
                   (session_ok cfg st1 -> snd panel = None)).
  { subst panel. destruct (password_mode st1); [auto|].
    apply draw_main_screen_outcome. }
  destruct panel as [ptr pexc]. cbn [fst snd] in Hpanel.
  destruct Hpanel as [Hptr Hpexc].
  destruct pexc as [e|].
  { split; [cbn [launches existsb app is_popen orb]; exact Hptr|].
    split; [intros [H _]; discriminate|].
    split.
    - intros Hok _. specialize (Hpexc (Hs1 Hok)). discriminate.
    - intros _ Hcalm Hev. inversion Hcalm as [|? ? [Hn _] _]; subst.
      rewrite He1 by exact Hn. exact Hev. }
  pose proof (render_no_popen (popup st1) (stdscr (amb tk)) (now1 tk)
                (now2 tk)) as Hrn.
  pose proof (render_keeps_popup_ok (popup st1) (stdscr (amb tk))
                (now1 tk) (now2 tk)) as Hrok.
  destruct (PopupManager.render (popup st1) (stdscr (amb tk)) (now1 tk)
              (now2 tk)) as [[p rtr] rexc].
  cbn [fst snd] in Hrn, Hrok.
  set (st2 := with_popup st1 p).
  assert (Htr0 : launches ([Erase] ++ ptr ++ rtr ++ [Refresh]) = false).
  { rewrite !launches_app, Hptr, Hrn. reflexivity. }
  destruct rexc as [e|].
  { split; [rewrite !launches_app, Hptr, Hrn; reflexivity|].
    split; [intros [H _]; discriminate|].
    split.
    - intros Hok Hpok. destruct (Hrok (Hp1 Hpok)) as (_ & Hnone).
      discriminate.
    - intros _ Hcalm Hev. inversion Hcalm as [|? ? [Hn _] _]; subst.
      subst st2. cbn [unlocked_event with_popup].
      rewrite He1 by exact Hn. exact Hev. }
  assert (Hst2 : (session_ok cfg st -> session_ok cfg st2) /\
                 (popup_ok (popup st) -> popup_ok (popup st2)) /\
                 (no_success (worker_actions tk) = true ->
                  unlocked_event st2 = unlocked_event st)).
  { split; [exact Hs1|]. split; [|exact He1].
    intros Hpok. destruct (Hrok (Hp1 Hpok)) as (Hp & _). exact Hp. }
  destruct Hst2 as (Hs2 & Hp2 & He2).
  destruct (key tk) as [ch|] eqn:Hkey.
  2:{ split; [exact Htr0|]. split.
      - intros _. exists tk. split; [left; reflexivity | exact Hkey].
      - split.
        + intros Hok Hpok. split; [exact (Hs2 Hok) | auto].
        + intros _ Hcalm Hev. inversion Hcalm as [|? ? [Hn _] _]; subst.
          rewrite He2 by exact Hn. exact Hev. }
  destruct (ch =? -1).
  { specialize (IH st2).
    destruct (run_loop cfg st2 rest) as [[st' tr'] c].
    destruct IH as (Hl & Hc & Hinv & Hlock).
    split; [rewrite !launches_app in *; rewrite Htr0, Hl; reflexivity|].
    split.
    - intros Hret. destruct (Hc Hret) as (tk' & Hin & Hk).
      exists tk'. split; [right; exact Hin | exact Hk].
    - split.
      + intros Hok Hpok. apply Hinv; [exact (Hs2 Hok) | exact (Hp2 Hpok)].
      + intros Hrej Hcalm Hev.
        inversion Hcalm as [|? ? [Hn _] Hrest]; subst.
        apply Hlock; [exact Hrej | exact Hrest|].
        rewrite He2 by exact Hn. exact Hev. }
  pose proof (handle_input_outcome st2 ch (amb tk)) as Hh.
  pose proof (step_session cfg st2 _ (step_key cfg st2 ch (amb tk))) as Hss.
  destruct (handle_input cfg st2 ch (amb tk)) as [[st3 htr] hexc].
  cbn [fst] in Hss.
  destruct Hh as (Hhl & Hhe & Hhp & Hhlock).
  destruct hexc as [e|].
  { split; [rewrite launches_app, Htr0, Hhl; reflexivity|].
    split; [intros [H _]; discriminate|].
    split.
    - intros Hok Hpok. split; [exact (Hss (Hs2 Hok))|].
      destruct Hhe as [H|H]; [discriminate|].
      injection H as ->. auto.
    - intros Hrej Hcalm Hev.
      inversion Hcalm as [|? ? [Hn Hsil] Hrest]; subst.
      apply Hhlock; [exact Hrej | exact Hsil|].
      rewrite He2 by exact Hn. exact Hev. }
  specialize (IH st3).
  destruct (run_loop cfg st3 rest) as [[st' tr'] c].
  destruct IH as (Hl & Hc & Hinv & Hlock).
  split; [rewrite !launches_app in *; rewrite Htr0, Hhl, Hl; reflexivity|].
  split.
  - intros Hret. destruct (Hc Hret) as (tk' & Hin & Hk).
    exists tk'. split; [right; exact Hin | exact Hk].
  - split.
    + intros Hok Hpok. apply Hinv; [exact (Hss (Hs2 Hok))|].
      rewrite Hhp. exact (Hp2 Hpok).
    + intros Hrej Hcalm Hev.
      inversion Hcalm as [|? ? [Hn Hsil] Hrest]; subst.
      apply Hlock; [exact Hrej | exact Hrest|].
      apply Hhlock; [exact Hrej | exact Hsil|].
      rewrite He2 by exact Hn. exact Hev.
Qed.

(** What [render] can raise. *)
Lemma render_raises_type_error (p : PopupManager.t) (win : Window) (a b : Q)
  (e : Exc) :
  snd (PopupManager.render p win a b) = Some e ->
  exists msg : string, e = TypeError msg.
Proof.
  unfold PopupManager.render.
  destruct (PopupManager.message p) as [m|]; [|discriminate].
  destruct (truthy m); [|discriminate]. cbn [negb].
  destruct (PopupManager.start_time p) as [t0|].
  - destruct (Qlt_le_dec 1 (a - t0)); discriminate.
  - cbn [snd]. intros H. injection H as <-. eauto.
Qed.

(** The render loop never leaves through [sys.exit], and while the session
    choice is in order it never raises IndexError; the popup may be in any
    state. *)
Lemma run_loop_errors (ticks : list Tick) :
  forall st : TTYSafeLock.t,
    let '(st', tr, c) := run_loop cfg st ticks in
    (forall code : Z, c <> Raised (SystemExit code)) /\
    (session_ok cfg st ->
     session_ok cfg st' /\ forall msg : string, c <> Raised (IndexError msg)).
Proof.
  induction ticks as [|tk rest IH]; intros st.
  { cbn [run_loop]. destruct (is_set (unlocked_event st));
      (split; [discriminate|]; intros Hok; split;
       [exact Hok | discriminate]). }
  cbn [run_loop]. destruct (is_set (unlocked_event st)).
  { split; [discriminate|]. intros Hok. split; [exact Hok | discriminate]. }
  set (st1 := fold_left perform (worker_actions tk) st).
  assert (Hs1 : session_ok cfg st -> session_ok cfg st1).
  { subst st1. apply perform_session. }
  set (panel := if password_mode st1
                then (draw_password_panel st1 (maxy (stdscr (amb tk)))
                        (maxx (stdscr (amb tk))), None)
                else draw_main_screen st1 (clock (amb tk))
                       (maxy (stdscr (amb tk))) (maxx (stdscr (amb tk)))).
  assert (Hpanel : (session_ok cfg st1 -> snd panel = None) /\
                   (forall e : Exc, snd panel = Some e ->
                    exists msg : string, e = IndexError msg)).
  { subst panel. destruct (password_mode st1).
    - split; [reflexivity | discriminate].
    - split; [apply draw_main_screen_outcome|].
      unfold draw_main_screen.
      destruct (desktop_choices st1); [discriminate|].
      destruct (list_get _ _); [discriminate|].
      cbn [snd]. intros e H. injection H as <-. eauto. }
  destruct panel as [ptr pexc]. cbn [snd] in Hpanel.
  destruct Hpanel as [Hnone Hidx].
  destruct pexc as [e|].
  { destruct (Hidx e eq_refl) as [msg ->].
    split; [discriminate|]. intros Hok.
    specialize (Hnone (Hs1 Hok)). discriminate. }
  pose proof (render_raises_type_error (popup st1) (stdscr (amb tk))
                (now1 tk) (now2 tk)) as Hr.
  destruct (PopupManager.render (popup st1) (stdscr (amb tk)) (now1 tk)
              (now2 tk)) as [[p rtr] rexc].
  cbn [snd] in Hr.
  set (st2 := with_popup st1 p).
  assert (Hs2 : session_ok cfg st -> session_ok cfg st2).
  { intros Hok. exact (Hs1 Hok). }
  destruct rexc as [e|].
  { destruct (Hr e eq_refl) as [msg ->].
    split; [discriminate|]. intros Hok.
    split; [exact (Hs2 Hok) | discriminate]. }
  destruct (key tk) as [ch|].
  2:{ split; [discriminate|]. intros Hok.
      split; [exact (Hs2 Hok) | discriminate]. }
  destruct (ch =? -1).
  { specialize (IH st2).
    destruct (run_loop cfg st2 rest) as [[st' tr'] c].
    destruct IH as [Hexit Hinv].
    split; [exact Hexit|]. intros Hok. exact (Hinv (Hs2 Hok)). }
  pose proof (handle_input_outcome st2 ch (amb tk)) as Hh.
  pose proof (step_session cfg st2 _ (step_key cfg st2 ch (amb tk))) as Hss.
  destruct (handle_input cfg st2 ch (amb tk)) as [[st3 htr] hexc].
  cbn [fst] in Hss.
  destruct Hh as (_ & Hhe & _).
  destruct hexc as [e|].
  { destruct Hhe as [H|H]; [discriminate|]. injection H as ->.
    split; [discriminate|]. intros Hok.
    split; [exact (Hss (Hs2 Hok)) | discriminate]. }
  specialize (IH st3).
  destruct (run_loop cfg st3 rest) as [[st' tr'] c].
  destruct IH as [Hexit Hinv].
  split; [exact Hexit|]. intros Hok. exact (Hinv (Hss (Hs2 Hok))).
Qed.

End RunFacts.

Section RunTheorems.
Variable cfg : Config.

Lemma unlocking_outcome (st : TTYSafeLock.t) (join_raises : bool) :
  let '(tr, c) := unlocking cfg st join_raises in
  (launches tr = true ->
   is_set (unlocked_event st) = true /\ c = Raised (SystemExit 0) /\
   desktop_choices st <> [] /\ join_raises = false) /\
  (is_set (unlocked_event st) = false -> tr = [] /\ c = Returned) /\
  (is_set (unlocked_event st) = true -> join_raises = true ->
   tr = [StopWorkers] /\ c = Raised join_error) /\
  (session_ok cfg st -> is_set (unlocked_event st) = true ->
   join_raises = false -> c = Raised (SystemExit 0)).
Proof.
  unfold unlocking, stop_workers.
  destruct (is_set (unlocked_event st)) eqn:Hset.
  2:{ split; [discriminate|]. split; [auto|].
      split; discriminate. }
  destruct join_raises.
  { split; [discriminate|]. split; [discriminate|].
    split; [auto | discriminate]. }
  destruct (desktop_choices st) as [|k ks] eqn:Hc.
  { split; [discriminate|]. split; [discriminate|].
    split; [discriminate | auto]. }
  destruct (list_get (k :: ks) (desktop_index st)) as [key|] eqn:Hkey.
  - unfold launch_and_exit.
    destruct (dict_get (UNLOCK_COMMANDS cfg) key) as [cmd|] eqn:Hcmd.
    + rewrite (unlock_command_truthy cfg key cmd Hcmd).
      split; [intros _; repeat split; discriminate|].
      split; [discriminate|]. split; [discriminate | auto].
    + split; [discriminate|]. split; [discriminate|].
      split; [discriminate|].
      intros (Hkeys & _ & Hv) _ _. exfalso.
      rewrite Hc in Hv, Hkeys.
      assert (Hin : In key (dict_keys (UNLOCK_COMMANDS cfg))).
      { rewrite <- Hkeys.
        rewrite list_get_nonneg in Hkey by (apply Hv; discriminate).
        exact (nth_error_In _ _ Hkey). }
      destruct (dict_get_key _ _ Hin) as [cmd Hsome]. congruence.
  - split; [discriminate|]. split; [discriminate|].
    split; [discriminate|].
    intros (_ & _ & Hv) _ _. exfalso. rewrite Hc in Hv.
    destruct (list_get_valid (k :: ks) (desktop_index st)) as [key Hsome];
      [apply Hv; discriminate | congruence].
Qed.

(** X17. A run starts a session process only with the unlock event set: if
    the trace of [run] has a [Popen], the event is set in the final state,
    there is a session to choose, and the run ends with [sys.exit(0)]. *)
Theorem launch_requires_unlock (st : TTYSafeLock.t) (intro : Ambient)
  (ticks : list Tick) :
  let '(st', tr, c) := run cfg st intro ticks in
  launches tr = true ->
  is_set (unlocked_event st') = true /\
  c = Raised (SystemExit 0) /\
  desktop_choices st' <> [].
Proof.
  unfold run.
  pose proof (play_anim_no_popen cfg (stdscr intro) (ANIM_IN_STYLE cfg)
                (clock intro) (unlocked_event st) (worker_auth intro) true
                (ANIM_DURATION_IN cfg) 50) as Ha.
  destruct (play_anim _ _ _ _ _ _ _ _ _) as [ev atr]. cbn [snd] in Ha.
  pose proof (run_loop_outcome cfg ticks (with_event st ev)) as Hl.
  destruct (run_loop cfg (with_event st ev) ticks) as [[st' ltr] c].
  destruct Hl as (Hl & _).
  destruct c as [| |e].
  - rewrite !launches_app, Ha, Hl. simpl. discriminate.
  - pose proof (unlocking_outcome st' (fprint_join_raises intro)) as Hu.
    destruct (unlocking cfg st' (fprint_join_raises intro)) as [utr c'].
    destruct Hu as (Hu & _).
    rewrite !launches_app, Ha, Hl. simpl. intros Hlaunch.
    destruct (Hu Hlaunch) as (H1 & H2 & H3 & _). auto.
  - rewrite !launches_app, Ha, Hl. simpl. discriminate.
Qed.

(** X18. No unlock without a success: when the verifier rejects every
    password, the event is clear at the start, and no worker reports a
    success (neither between the passes of the loop nor during an
    animation), the event is clear in the final state of [run] and no
    process is started, whatever keys arrive. *)
Theorem no_unlock_without_success (st : TTYSafeLock.t) (intro : Ambient)
  (ticks : list Tick)
  (Hrej : forall s : string, verify_password cfg s = false)
  (Hlocked : unlocked_event st = false)
  (Hintro : silent intro) (Hcalm : Forall calm ticks) :
  let '(st', tr, c) := run cfg st intro ticks in
  unlocked_event st' = false /\ launches tr = false.
Proof.
  unfold run.
  pose proof (play_anim_no_popen cfg (stdscr intro) (ANIM_IN_STYLE cfg)
                (clock intro) (unlocked_event st) (worker_auth intro) true
                (ANIM_DURATION_IN cfg) 50) as Ha.
  pose proof (play_anim_quiet cfg (stdscr intro) (ANIM_IN_STYLE cfg)
                (clock intro) (worker_auth intro) true
                (ANIM_DURATION_IN cfg) 50 Hintro) as Hq.
  rewrite Hlocked in *.
  destruct (play_anim _ _ _ _ _ _ _ _ _) as [ev atr].
  cbn [fst snd] in Ha, Hq. subst ev.
  pose proof (run_loop_outcome cfg ticks (with_event st false)) as Hl.
  destruct (run_loop cfg (with_event st false) ticks) as [[st' ltr] c].
  destruct Hl as (Hl & _ & _ & Hlock).
  specialize (Hlock Hrej Hcalm eq_refl).
  destruct c as [| |e].
  - split; [exact Hlock|]. rewrite !launches_app, Ha, Hl. reflexivity.
  - pose proof (unlocking_outcome st' (fprint_join_raises intro)) as Hu.
    destruct (unlocking cfg st' (fprint_join_raises intro)) as [utr c'].
    destruct Hu as (_ & Hu & _).
    destruct (Hu Hlock) as [-> _].
    split; [exact Hlock|]. rewrite !launches_app, Ha, Hl. reflexivity.
  - split; [exact Hlock|]. rewrite !launches_app, Ha, Hl. reflexivity.
Qed.

(** X19. A run of a fresh controller never raises IndexError and never
    leaves through [sys.exit] with a code other than 0: the session index
    stays a position of the session list, and every session key has a
    command.  An exit with code 0 happens only with the unlock event set,
    and [run] returns only with the event clear, after a Ctrl-C has left the
    loop. *)
Theorem run_session_lookup_never_fails (intro : Ambient)
  (ticks : list Tick) :
  let '(st', tr, c) := run cfg (TTYSafeLock.init cfg) intro ticks in
  (forall msg : string, c <> Raised (IndexError msg)) /\
  (forall code : Z,
     c = Raised (SystemExit code) ->
     code = 0 /\ is_set (unlocked_event st') = true) /\
  (c = Returned ->
   is_set (unlocked_event st') = false /\
   exists tk : Tick, In tk ticks /\ key tk = CtrlC).
Proof.
  unfold run.
  destruct (play_anim _ _ _ _ _ _ _ _ _) as [ev atr].
  pose proof (run_loop_outcome cfg ticks
                (with_event (TTYSafeLock.init cfg) ev)) as Hl.
  pose proof (run_loop_errors cfg ticks
                (with_event (TTYSafeLock.init cfg) ev)) as He.
  destruct (run_loop cfg (with_event (TTYSafeLock.init cfg) ev) ticks)
    as [[st' ltr] c].
  destruct Hl as (_ & Hint & _).
  destruct He as [Hexit Hinv].
  destruct Hinv as [Hok Hidx].
  { exact (init_session_ok cfg). }
  destruct c as [| |e].
  - split; [discriminate|]. split; discriminate.
  - pose proof (unlocking_outcome st' (fprint_join_raises intro)) as Hu.
    destruct (unlocking cfg st' (fprint_join_raises intro)) as [utr c'].
    destruct Hu as (_ & Hclear & Hjoin & Hset).
    destruct (is_set (unlocked_event st')) eqn:Hev.
    + destruct (fprint_join_raises intro).
      * destruct (Hjoin eq_refl eq_refl) as [_ ->].
        split; [discriminate|]. split; discriminate.
      * rewrite (Hset Hok eq_refl eq_refl).
        split; [discriminate|]. split; [|discriminate].
        intros code H. injection H as <-. auto.
    + destruct (Hclear eq_refl) as [_ ->].
      split; [discriminate|]. split; [discriminate|].
      intros _. split; [reflexivity|]. apply Hint. auto.
  - split; [exact Hidx|]. split; [|discriminate].
    intros code H. exfalso. exact (Hexit code H).
Qed.

End RunTheorems.

Lemma no_unlock_without_success_witness :
  let '(st', tr, c) :=
    run strict_config (TTYSafeLock.init strict_config) quiet
      [tick_key 32; tick_key 97; tick_with (Show "hint" 0); tick_key 27] in
  unlocked_event st' = false /\ launches tr = false.
Proof.
  apply (no_unlock_without_success strict_config
           (TTYSafeLock.init strict_config) quiet
           [tick_key 32; tick_key 97; tick_with (Show "hint" 0);
            tick_key 27]).
  - reflexivity.
  - reflexivity.
  - intros i. reflexivity.
  - repeat constructor.
Defined.

Lemma launch_requires_unlock_witness :
  let '(st', tr, c) :=
    run sample_config (TTYSafeLock.init sample_config) quiet
      [tick_with (OnSuccess "face" "alice")] in
  launches tr = true /\
  is_set (unlocked_event st') = true /\
  c = Raised (SystemExit 0) /\
  desktop_choices st' <> [].
Proof.
  pose proof (launch_requires_unlock sample_config
                (TTYSafeLock.init sample_config) quiet
                [tick_with (OnSuccess "face" "alice")]) as H.
  destruct (run sample_config (TTYSafeLock.init sample_config) quiet
              [tick_with (OnSuccess "face" "alice")]) as [[st' tr] c] eqn:Hr.
  assert (Hl : launches tr = true).
  { replace tr with (snd (fst (run sample_config
                                 (TTYSafeLock.init sample_config) quiet
                                 [tick_with (OnSuccess "face" "alice")])))
      by (rewrite Hr; reflexivity).
    vm_compute. reflexivity. }
  split; [exact Hl | exact (H Hl)].
Defined.

Lemma run_session_lookup_never_fails_witness :
  let '(st', tr, c) :=
    run sample_config (TTYSafeLock.init sample_config) quiet
      [tick_key KEY_LEFT; tick_key 32; tick_key 97; tick_key 10] in
  c = Raised (SystemExit 0) /\
  ((forall msg : string, c <> Raised (IndexError msg)) /\
   (forall code : Z,
      c = Raised (SystemExit code) ->
      code = 0 /\ is_set (unlocked_event st') = true) /\
   (c = Returned ->
    is_set (unlocked_event st') = false /\
    exists tk : Tick,
      In tk [tick_key KEY_LEFT; tick_key 32; tick_key 97; tick_key 10] /\
      key tk = CtrlC)).
Proof.
  pose proof (run_session_lookup_never_fails sample_config quiet
                [tick_key KEY_LEFT; tick_key 32; tick_key 97; tick_key 10])
    as H.
  destruct (run sample_config (TTYSafeLock.init sample_config) quiet
              [tick_key KEY_LEFT; tick_key 32; tick_key 97; tick_key 10])
    as [[st' tr] c] eqn:Hr.
  split; [|exact H].
  replace c with (snd (run sample_config (TTYSafeLock.init sample_config)
                         quiet
                         [tick_key KEY_LEFT; tick_key 32; tick_key 97;
                          tick_key 10]))
    by (rewrite Hr; reflexivity).
  vm_compute. reflexivity.
Defined.

(** A Ctrl-C with the event clear: [run] returns. *)
Example run_returns_after_interrupt :
  snd (run sample_config (TTYSafeLock.init sample_config) quiet
         [tick_key 32; tick_interrupt]) = Returned.
Proof. vm_compute. reflexivity. Qed.

(** ** Where a missing session is settled *)

Section StartupFacts.
Variable cfg : Config.





End StartupFacts.


(** ** More on the workers *)

Section WorkerFacts.
Variable cfg : Config.

Lemma actions_app (tr1 tr2 : list WorkerStep) :
  actions (tr1 ++ tr2) = actions tr1 ++ actions tr2.
Proof.
  induction tr1 as [|s tr1 IH]; [reflexivity|].
  destruct s; simpl; rewrite IH; reflexivity.
Qed.

Lemma releases_app (tr1 tr2 : list WorkerStep) :
  releases (tr1 ++ tr2) = (releases tr1 + releases tr2)%nat.
Proof.
  induction tr1 as [|s tr1 IH]; [reflexivity|].
  destruct s; simpl; rewrite IH; reflexivity.
Qed.

Lemma face_body_steps (encodings : list Encoding) (w : FaceWorker.t)
  (it : FaceWorker.Iteration) :
  let '(w', tr, flow) := FaceWorker.body cfg encodings w it in
  releases tr = O /\
  FaceWorker._stop_event w' = FaceWorker._stop_event w /\
  (encodings <> [] ->
   (actions tr = [] /\ flow = Continue) \/
   (actions tr = [OnSuccess "face" (USERNAME cfg)] /\ flow = Return)).
Proof.
  unfold FaceWorker.body.
  destruct (FaceWorker.ret it); simpl; [|auto 10].
  destruct encodings as [|e0 es].
  - destruct (FaceWorker._shown w); simpl;
      (split; [reflexivity|]; split; [reflexivity|]; intros H;
       contradiction).
  - destruct (FaceWorker.encs it) as [|enc rest]; [simpl; auto 10|].
    destruct (existsb (fun b => b)
                (FaceWorker.compare_faces cfg (e0 :: es) enc));
      simpl; auto 10.
Qed.

Lemma face_loop_steps (encodings : list Encoding)
  (iters : list FaceWorker.Iteration) :
  forall w : FaceWorker.t,
    let '(_, tr, done) := FaceWorker.loop cfg encodings w iters in
    releases tr = O /\
    (encodings <> [] ->
     actions tr = [] \/
     (actions tr = [OnSuccess "face" (USERNAME cfg)] /\ done = true)).
Proof.
  induction iters as [|it rest IH]; intros w; [simpl; auto|].
  cbn [FaceWorker.loop].
  destruct (is_set _); [simpl; auto|].
  pose proof (face_body_steps encodings
                {| FaceWorker._stop_event :=
                     interfere (FaceWorker.stop_called it)
                       (FaceWorker._stop_event w);
                   FaceWorker._shown := FaceWorker._shown w |} it) as Hb.
  destruct (FaceWorker.body cfg encodings _ it) as [[w1 tr1] flow].
  destruct Hb as (Hr1 & _ & Ha1).
  destruct flow.
  - specialize (IH w1).
    destruct (FaceWorker.loop cfg encodings w1 rest) as [[w2 tr2] fin].
    destruct IH as (Hr2 & Ha2).
    split; [rewrite releases_app, Hr1, Hr2; reflexivity|].
    intros Hne. rewrite actions_app.
    destruct (Ha1 Hne) as [[Hnil _]|[_ Hf]]; [|discriminate].
    rewrite Hnil. exact (Ha2 Hne).
  - split; [exact Hr1|]. intros Hne.
    destruct (Ha1 Hne) as [[_ Hf]|[Hact _]]; [discriminate|].
    right. auto.
Qed.

(** X20. With reference faces, the face worker writes to the controller at
    most once, and then it is [on_success("face", USERNAME)]: it posts no
    popup, and after the success the loop is left.  The camera is released
    once when the worker was enabled, the camera opened and the loop is
    left, also after a success, and is not touched otherwise. *)
Theorem face_worker_single_success (encodings : list Encoding)
  (opened : bool) (w : FaceWorker.t) (iters : list FaceWorker.Iteration)
  (Hdb : encodings <> []) :
  let '(_, tr, done) := FaceWorker.run cfg encodings opened w iters in
  (actions tr = [] \/
   (actions tr = [OnSuccess "face" (USERNAME cfg)] /\ done = true)) /\
  releases tr = (if ENABLE_FACE cfg && opened && done then 1 else 0)%nat.
Proof.
  unfold FaceWorker.run.
  destruct (ENABLE_FACE cfg); simpl; [|auto].
  destruct opened; simpl; [|auto].
  pose proof (face_loop_steps encodings iters w) as Hl.
  destruct (FaceWorker.loop cfg encodings w iters) as [[w' tr] fin].
  destruct Hl as (Hr & Ha). specialize (Ha Hdb).
  split.
  - cbn [actions]. rewrite actions_app.
    replace (actions (if fin then [ReleaseCamera] else [])) with
      (@nil Action) by (destruct fin; reflexivity).
    rewrite app_nil_r. exact Ha.
  - cbn [releases]. rewrite releases_app, Hr. destruct fin; reflexivity.
Qed.

Lemma face_loop_stop (encodings : list Encoding)
  (pre post : list FaceWorker.Iteration) (it : FaceWorker.Iteration) :
  FaceWorker.stop_called it = true ->
  forall w : FaceWorker.t,
    FaceWorker.loop cfg encodings w (pre ++ it :: post)
    = FaceWorker.loop cfg encodings w (pre ++ [it]) /\
    snd (FaceWorker.loop cfg encodings w (pre ++ [it])) = true.
Proof.
  intros Hstop. induction pre as [|p pre IH]; intros w.
  - cbn [app FaceWorker.loop]. rewrite Hstop. simpl. auto.
  - cbn [app FaceWorker.loop].
    destruct (is_set _); [auto|].
    destruct (FaceWorker.body cfg encodings _ p) as [[w1 tr1] flow].
    destruct flow; [|auto].
    destruct (IH w1) as [Heq Hfin]. rewrite Heq.
    destruct (FaceWorker.loop cfg encodings w1 (pre ++ [it]))
      as [[w2 tr2] fin].
    simpl in *. auto.
Qed.

(** X21. A stop request ends the face worker in the pass that sees it:
    what the worker does is the same whatever would have come after that
    pass, and the loop is left.  A worker whose [stop] was called before
    its first pass writes nothing to the controller, whatever the camera
    delivers. *)
Theorem face_worker_stops (encodings : list Encoding) (opened : bool)
  (w : FaceWorker.t) (pre post : list FaceWorker.Iteration)
  (it : FaceWorker.Iteration)
  (Hstop : FaceWorker.stop_called it = true) :
  FaceWorker.run cfg encodings opened w (pre ++ it :: post)
  = FaceWorker.run cfg encodings opened w (pre ++ [it]) /\
  snd (FaceWorker.run cfg encodings opened w (pre ++ it :: post)) = true /\
  forall iters : list FaceWorker.Iteration,
    actions (snd (fst (FaceWorker.run cfg encodings opened
                         (FaceWorker.stop w) iters))) = [].
Proof.
  unfold FaceWorker.run.
  destruct (ENABLE_FACE cfg); simpl; [|auto].
  destruct opened; simpl; [|auto].
  destruct (face_loop_stop encodings pre post it Hstop w) as [Heq Hfin].
  rewrite Heq.
  destruct (FaceWorker.loop cfg encodings w (pre ++ [it]))
    as [[w2 tr2] fin].
  simpl in Hfin. subst fin.
  split; [reflexivity|]. split; [reflexivity|].
  intros [|it' rest]; [reflexivity|].
  cbn [FaceWorker.loop FaceWorker.stop FaceWorker._stop_event
       FaceWorker._shown].
  unfold interfere, Event_set, is_set.
  destruct (FaceWorker.stop_called it'); reflexivity.
Qed.

Lemma fingerprint_loop_writes (iters : list FingerprintWorker.Iteration) :
  forall w : FingerprintWorker.t,
    let '(w', tr, done) := FingerprintWorker.loop cfg w iters in
    let win := [OnSuccess "fingerprint" (USERNAME cfg)] in
    (FingerprintWorker._shown w = true ->
     actions tr = [] \/ (actions tr = win /\ done = true)) /\
    (FingerprintWorker._shown w = false ->
     actions tr = [] \/ (actions tr = win /\ done = true) \/
     exists t : Q,
       actions tr = [Show fingerprint_hint t] \/
       (actions tr = Show fingerprint_hint t :: win /\ done = true)).
Proof.
  induction iters as [|it rest IH]; intros w; [simpl; auto|].
  cbn [FingerprintWorker.loop].
  destruct (is_set _); [simpl; auto|].
  unfold FingerprintWorker.body. cbn [FingerprintWorker._shown].
  destruct (FingerprintWorker.verified it); [simpl; auto|].
  destruct (FingerprintWorker._shown w) eqn:Hshown; cbn [negb].
  - specialize (IH {| FingerprintWorker._stop :=
                        interfere (FingerprintWorker.stop_called it)
                          (FingerprintWorker._stop w);
                      FingerprintWorker._shown := true |}).
    destruct (FingerprintWorker.loop cfg _ rest) as [[w2 tr2] fin].
    destruct IH as (IH & _). cbn [FingerprintWorker._shown] in IH.
    split; [intros _; exact (IH eq_refl) | discriminate].
  - specialize (IH {| FingerprintWorker._stop :=
                        interfere (FingerprintWorker.stop_called it)
                          (FingerprintWorker._stop w);
                      FingerprintWorker._shown := true |}).
    destruct (FingerprintWorker.loop cfg _ rest) as [[w2 tr2] fin].
    destruct IH as (IH & _). cbn [FingerprintWorker._shown] in IH.
    split; [discriminate|]. intros _. right. right.
    exists (FingerprintWorker.now it). cbn [app actions].
    destruct (IH eq_refl) as [->|[-> ->]]; auto.
Qed.

(** X22. A run of the fingerprint worker writes to the controller in one of
    four ways: nothing, the hint popup alone, one
    [on_success("fingerprint", USERNAME)] alone, or the hint and then the
    success.  So the hint is posted at most once, the success is reported
    at most once, and after a success the loop is left.  A disabled worker
    does nothing at all. *)
Theorem fingerprint_worker_writes
  (iters : list FingerprintWorker.Iteration) :
  let '(_, tr, done) :=
    FingerprintWorker.run cfg FingerprintWorker.init iters in
  let win := [OnSuccess "fingerprint" (USERNAME cfg)] in
  (actions tr = [] \/ (actions tr = win /\ done = true) \/
   exists t : Q,
     actions tr = [Show fingerprint_hint t] \/
     (actions tr = Show fingerprint_hint t :: win /\ done = true)) /\
  (ENABLE_FINGERPRINT cfg = false -> tr = [] /\ done = true).
Proof.
  unfold FingerprintWorker.run.
  destruct (ENABLE_FINGERPRINT cfg); simpl; [|auto].
  pose proof (fingerprint_loop_writes iters FingerprintWorker.init) as Hl.
  destruct (FingerprintWorker.loop cfg FingerprintWorker.init iters)
    as [[w' tr] fin].
  destruct Hl as (_ & Hl). split; [exact (Hl eq_refl) | discriminate].
Qed.

End WorkerFacts.

Lemma face_worker_single_success_witness :
  let '(_, tr, done) :=
    FaceWorker.run lenient_config [[1%Q]] true FaceWorker.init
      [blind; known_face; sighted] in
  (actions tr = [] \/
   (actions tr = [OnSuccess "face" (USERNAME lenient_config)] /\
    done = true)) /\
  releases tr
  = (if ENABLE_FACE lenient_config && true && done then 1 else 0)%nat.
Proof.
  apply (face_worker_single_success lenient_config [[1%Q]] true
           FaceWorker.init [blind; known_face; sighted]).
  discriminate.
Defined.

Lemma face_worker_stops_witness :
  FaceWorker.run lenient_config [[1%Q]] true FaceWorker.init
    ([sighted] ++ halt :: [sighted; sighted])
  = FaceWorker.run lenient_config [[1%Q]] true FaceWorker.init
      ([sighted] ++ [halt]) /\
  snd (FaceWorker.run lenient_config [[1%Q]] true FaceWorker.init
         ([sighted] ++ halt :: [sighted; sighted])) = true /\
  forall iters : list FaceWorker.Iteration,
    actions (snd (fst (FaceWorker.run lenient_config [[1%Q]] true
                         (FaceWorker.stop FaceWorker.init) iters))) = [].
Proof.
  apply (face_worker_stops lenient_config [[1%Q]] true FaceWorker.init
           [sighted] [sighted; sighted] halt).
  reflexivity.
Defined.

(** A refused fingerprint and then an accepted one: the hint, then the
    success. *)
Example fingerprint_hint_then_success :
  actions (snd (fst (FingerprintWorker.run sample_config
                       FingerprintWorker.init
                       [refused; refused; accepted; refused])))
  = [Show fingerprint_hint 0; OnSuccess "fingerprint" "alice"].
Proof. reflexivity. Qed.

Lemma fingerprint_worker_writes_witness :
  let '(_, tr, done) :=
    FingerprintWorker.run no_session_config FingerprintWorker.init
      [refused; accepted] in
  let win := [OnSuccess "fingerprint" (USERNAME no_session_config)] in
  (actions tr = [] \/ (actions tr = win /\ done = true) \/
   exists t : Q,
     actions tr = [Show fingerprint_hint t] \/
     (actions tr = Show fingerprint_hint t :: win /\ done = true)) /\
  (ENABLE_FINGERPRINT no_session_config = false -> tr = [] /\ done = true).
Proof.
  exact (fingerprint_worker_writes no_session_config [refused; accepted]).
Defined.

(** ** Launching *)

Section LaunchFacts.
Variable cfg : Config.

Lemma dict_get_missing (d : list (string * string)) (k : string) :
  ~ In k (dict_keys d) -> dict_get d k = None.
Proof.
  induction d as [|[k' v'] d IH]; simpl; [reflexivity|].
  intros Hnot. destruct (String.eqb k' k) eqn:Hk.
  - apply String.eqb_eq in Hk. exfalso. apply Hnot. left. exact Hk.
  - apply IH. intros Hin. apply Hnot. right. exact Hin.
Qed.

(** X23. [launch_and_exit] always restores the terminal first and always
    leaves through [sys.exit].  For a key of the session table it starts
    one process, [/bin/sh -c] with the command of the key, and exits with
    0; for any other key it starts nothing, reports the key on stderr and
    exits with 1. *)
Theorem launch_and_exit_outcome (choice_key : string) :
  (In choice_key (dict_keys (UNLOCK_COMMANDS cfg)) ->
   exists cmd : string,
     dict_get (UNLOCK_COMMANDS cfg) choice_key = Some cmd /\
     cmd <> "" /\
     launch_and_exit cfg choice_key =
     ([EndWin;
       PrintOut (String.append "Authenticated. Launching: "
                   (String.append choice_key "..."));
       Popen ["/bin/sh"; "-c"; cmd]],
      SystemExit 0)) /\
  (~ In choice_key (dict_keys (UNLOCK_COMMANDS cfg)) ->
   launch_and_exit cfg choice_key =
   ([EndWin;
     PrintErr (String.append "Error: Command for '"
                 (String.append choice_key "' not found."))],
    SystemExit 1)).
Proof.
  split.
  - intros Hin. destruct (dict_get_key _ _ Hin) as [cmd Hcmd].
    pose proof (unlock_command_truthy cfg choice_key cmd Hcmd) as Ht.
    exists cmd. split; [exact Hcmd|]. split.
    + intros ->. discriminate.
    + unfold launch_and_exit. rewrite Hcmd, Ht. reflexivity.
  - intros Hnot. unfold launch_and_exit.
    rewrite (dict_get_missing _ _ Hnot). reflexivity.
Qed.

End LaunchFacts.

Lemma launch_and_exit_outcome_witness :
  (exists cmd : string,
     dict_get (UNLOCK_COMMANDS sample_config) "gnome-x11" = Some cmd /\
     cmd <> "" /\
     launch_and_exit sample_config "gnome-x11" =
     ([EndWin;
       PrintOut (String.append "Authenticated. Launching: "
                   (String.append "gnome-x11" "..."));
       Popen ["/bin/sh"; "-c"; cmd]],
      SystemExit 0)) /\
  launch_and_exit sample_config "kde" =
  ([EndWin;
    PrintErr (String.append "Error: Command for '"
                (String.append "kde" "' not found."))],
   SystemExit 1).
Proof.
  destruct (launch_and_exit_outcome sample_config "gnome-x11") as [Hin _].
  destruct (launch_and_exit_outcome sample_config "kde") as [_ Hout].
  split.
  - apply Hin. vm_compute. right. left. reflexivity.
  - apply Hout. vm_compute. intros [H|[H|[]]]; discriminate.
Defined.

(** ** Reading the configuration *)

Section ConfigFacts.

Lemma json_get_app (d : list (string * Json)) (k0 k : string) (v0 : Json) :
  json_get (d ++ [(k0, v0)]) k =
  match json_get d k with
  | Some v => Some v
  | None => if String.eqb k0 k then Some v0 else None
  end.
Proof.
  induction d as [|[k' v'] d IH]; simpl; [reflexivity|].
  destruct (String.eqb k' k); [reflexivity | exact IH].
Qed.

Lemma json_get_setdefault (d : list (string * Json)) (k0 k : string)
  (v0 : Json) :
  json_get (setdefault d k0 v0) k =
  match json_get d k with
  | Some v => Some v
  | None => if String.eqb k0 k then Some v0 else None
  end.
Proof.
  unfold setdefault. destruct (json_get d k0) as [v|] eqn:H0.
  - destruct (json_get d k) as [w|] eqn:Hk; [reflexivity|].
    destruct (String.eqb k0 k) eqn:He; [|reflexivity].
    apply String.eqb_eq in He. subst k0. congruence.
  - apply json_get_app.
Qed.

Lemma json_get_fill (items : list (string * Json)) :
  forall (config : list (string * Json)) (k : string),
    json_get (fill_defaults config items) k =
    match json_get config k with
    | Some v => Some v
    | None => json_get items k
    end.
Proof.
  induction items as [|[k0 v0] items IH]; intros config k.
  - simpl. destruct (json_get config k); reflexivity.
  - unfold fill_defaults in *. cbn [fold_left fst snd].
    rewrite IH, json_get_setdefault. cbn [json_get].
    destruct (json_get config k); [reflexivity|].
    destruct (String.eqb k0 k); reflexivity.
Qed.

Lemma fill_defaults_extends (items : list (string * Json)) :
  forall config : list (string * Json),
    exists extra : list (string * Json),
      fill_defaults config items = config ++ extra.
Proof.
  induction items as [|[k0 v0] items IH]; intros config.
  - exists []. simpl. rewrite app_nil_r. reflexivity.
  - unfold fill_defaults in *. cbn [fold_left fst snd].
    destruct (IH (setdefault config k0 v0)) as [extra He]. rewrite He.
    unfold setdefault. destruct (json_get config k0).
    + exists extra. reflexivity.
    + exists ((k0, v0) :: extra). rewrite <- app_assoc. reflexivity.
Qed.

(** X24. [load_config] on a file that holds a JSON object keeps every entry
    of the file, in place, and adds the defaults the file lacks: a key has
    the value of the file when the file has it and the default otherwise,
    so each of the thirteen settings is there.  A missing or malformed file
    gives the defaults; a file with a JSON value that is no object ends in
    AttributeError, which [load_config] does not catch. *)
Theorem load_config_fills_defaults (config : list (string * Json)) :
  (exists d extra : list (string * Json),
     load_config (Object config) = Settings d /\
     d = config ++ extra /\
     (forall k : string,
        json_get d k =
        match json_get config k with
        | Some v => Some v
        | None => json_get defaults k
        end) /\
     (forall k : string,
        In k (map fst defaults) -> json_get d k <> None)) /\
  load_config Missing = Settings defaults /\
  load_config Malformed = Settings defaults /\
  (forall v : Json, load_config (NotObject v) = AttributeError).
Proof.
  split; [|repeat split].
  destruct (fill_defaults_extends defaults config) as [extra He].
  exists (fill_defaults config defaults), extra.
  split; [reflexivity|]. split; [exact He|]. split.
  - intros k. apply json_get_fill.
  - intros k Hin. rewrite json_get_fill.
    destruct (json_get config k); [discriminate|].
    simpl in Hin.
    repeat (destruct Hin as [<-|Hin]; [discriminate|]).
    contradiction.
Qed.

Lemma load_config_fills_defaults_witness :
  load_config (Object [("shake_intensity", JInt 7); ("theme", JStr "x")])
  = Settings
      ([("shake_intensity", JInt 7); ("theme", JStr "x")]
       ++ filter (fun kv => negb (String.eqb (fst kv) "shake_intensity"))
            defaults).
Proof.
  destruct (load_config_fills_defaults
              [("shake_intensity", JInt 7); ("theme", JStr "x")])
    as ((d & extra & Hload & _) & _).
  rewrite Hload. injection Hload as <-. reflexivity.
Defined.

End ConfigFacts.

(** ** The password file *)

Section PasswordFileFacts.
Variable sha256_hex : string -> string.

Lemma hex_digit_plain (c : ascii) :
  is_hex_digit c = true ->
  is_space c = false /\ Ascii.eqb c ":"%char = false.
Proof.
  destruct c as [[] [] [] [] [] [] [] []]; vm_compute; intros H;
    try discriminate; split; reflexivity.
Qed.

Lemma rstrip_solid (s : string) : solid s = true -> rstrip s = s.
Proof.
  induction s as [|c rest IH]; [reflexivity|].
  cbn [solid rstrip]. intros H. apply andb_prop in H.
  destruct H as [Hc Hrest]. rewrite (IH Hrest).
  destruct rest; [|reflexivity].
  destruct (is_space c); [discriminate | reflexivity].
Qed.

Lemma strip_solid (s : string) : solid s = true -> strip s = s.
Proof.
  intros H. unfold strip.
  assert (Hl : lstrip s = s).
  { destruct s as [|c rest]; [reflexivity|].
    cbn [solid] in H. apply andb_prop in H. destruct H as [Hc _].
    cbn [lstrip]. destruct (is_space c); [discriminate | reflexivity]. }
  rewrite Hl. apply rstrip_solid. exact H.
Qed.

Lemma hex_solid (s : string) : is_hex s = true -> solid s = true.
Proof.
  induction s as [|c rest IH]; [reflexivity|].
  cbn [is_hex solid]. intros H. apply andb_prop in H.
  destruct H as [Hc Hrest].
  destruct (hex_digit_plain c Hc) as [Hs _]. rewrite Hs, (IH Hrest).
  reflexivity.
Qed.

Lemma solid_append (a b : string) :
  solid a = true -> solid b = true -> solid (String.append a b) = true.
Proof.
  induction a as [|c rest IH]; intros Ha Hb; [exact Hb|].
  cbn [String.append solid] in *. apply andb_prop in Ha.
  destruct Ha as [Hc Hrest]. rewrite Hc, (IH Hrest Hb). reflexivity.
Qed.

Lemma split_colon_hex (s : string) :
  is_hex s = true -> split_colon s = [s].
Proof.
  induction s as [|c rest IH]; [reflexivity|].
  cbn [is_hex split_colon]. intros H. apply andb_prop in H.
  destruct H as [Hc Hrest].
  destruct (hex_digit_plain c Hc) as [_ Hcolon].
  rewrite Hcolon, (IH Hrest). reflexivity.
Qed.

Lemma split_colon_pair (a b : string) :
  is_hex a = true -> is_hex b = true ->
  split_colon (String.append a (String.append ":" b)) = [a; b].
Proof.
  intros Ha Hb. induction a as [|c rest IH].
  - cbn [String.append split_colon]. rewrite Ascii.eqb_refl.
    rewrite (split_colon_hex b Hb). reflexivity.
  - cbn [is_hex] in Ha. apply andb_prop in Ha. destruct Ha as [Hc Hrest].
    destruct (hex_digit_plain c Hc) as [_ Hcolon].
    specialize (IH Hrest).
    cbn [String.append split_colon] in IH |- *. rewrite Hcolon, IH.
    reflexivity.
Qed.

(** X25. A password file written by [set_password] of the settings program
    (a hex salt, a colon, the hex digest of salt and password) is accepted
    by [verify_password] with the same password, and with another
    candidate exactly when the digest of salt and candidate is the same;
    PAM is not asked as long as the file is there. *)
Theorem verify_password_round_trip (salt new_pass candidate user : string)
  (pam : option (string -> string -> bool))
  (Hsalt : is_hex salt = true)
  (Hdigest : is_hex (sha256_hex (String.append salt new_pass)) = true) :
  let file := PassText (pass_file_text sha256_hex salt new_pass) in
  verify_password_file sha256_hex file pam user new_pass = true /\
  (verify_password_file sha256_hex file pam user candidate = true <->
   sha256_hex (String.append salt candidate)
   = sha256_hex (String.append salt new_pass)).
Proof.
  cbv zeta. unfold verify_password_file, pass_file_text.
  rewrite strip_solid.
  2:{ apply solid_append; [apply hex_solid; exact Hsalt|].
      apply (solid_append ":"); [reflexivity|].
      apply hex_solid. exact Hdigest. }
  rewrite (split_colon_pair _ _ Hsalt Hdigest).
  split; [apply String.eqb_refl | apply String.eqb_eq].
Qed.

Lemma split_colon_length (s : string) :
  List.length (split_colon s) = S (colons s).
Proof.
  induction s as [|c rest IH]; [reflexivity|].
  cbn [split_colon colons].
  destruct (Ascii.eqb c ":"%char); [simpl; rewrite IH; reflexivity|].
  destruct (split_colon rest) as [|h t]; [discriminate|].
  simpl in *. exact IH.
Qed.

(** X26. [verify_password] fails closed: a password file that cannot be
    read, or whose text, once stripped, does not have exactly one colon,
    accepts no password; with no password file and no PAM binding nothing
    is accepted either, and with a PAM binding the answer is PAM's. *)
Theorem verify_password_fails_closed (content user password : string)
  (pam : option (string -> string -> bool)) :
  verify_password_file sha256_hex Unreadable pam user password = false /\
  (colons (strip content) <> 1%nat ->
   verify_password_file sha256_hex (PassText content) pam user password
   = false) /\
  verify_password_file sha256_hex NoPassFile None user password = false /\
  (forall auth : string -> string -> bool,
     verify_password_file sha256_hex NoPassFile (Some auth) user password
     = auth user password).
Proof.
  split; [reflexivity|]. split; [|split; [reflexivity | reflexivity]].
  intros Hc. unfold verify_password_file.
  pose proof (split_colon_length (strip content)) as Hl.
  destruct (split_colon (strip content)) as [|a [|b [|c rest]]];
    try reflexivity.
  simpl in Hl. exfalso. apply Hc. lia.
Qed.

End PasswordFileFacts.

Lemma verify_password_round_trip_witness :
  let file := PassText (pass_file_text toy_hash "5f" "secret") in
  verify_password_file toy_hash file None "alice" "secret" = true /\
  (verify_password_file toy_hash file None "alice" "guess" = true <->
   toy_hash (String.append "5f" "guess")
   = toy_hash (String.append "5f" "secret")).
Proof.
  apply (verify_password_round_trip toy_hash "5f" "secret" "guess" "alice"
           None); reflexivity.
Defined.

Lemma verify_password_fails_closed_witness :
  verify_password_file toy_hash (PassText "5f:ab:cd") None "alice" "secret"
  = false /\
  verify_password_file toy_hash (PassText "  5fab ") None "alice" "secret"
  = false.
Proof.
  destruct (verify_password_fails_closed toy_hash "5f:ab:cd" "alice"
              "secret" None) as (_ & H2 & _).
  destruct (verify_password_fails_closed toy_hash "  5fab " "alice"
              "secret" None) as (_ & H0 & _).
  split; [apply H2 | apply H0]; vm_compute; discriminate.
Defined.

(** ** The big clock *)

Section ClockFacts.

Lemma append_len (a b : string) :
  String.length (String.append a b)
  = (String.length a + String.length b)%nat.
Proof.
  induction a as [|c rest IH]; [reflexivity|]. simpl. rewrite IH.
  reflexivity.
Qed.

Lemma big_glyph_shape (ch : ascii) :
  exists r0 r1 r2 r3 r4 : string,
    big_glyph ch = [r0; r1; r2; r3; r4] /\
    Forall (fun r => String.length r = 5%nat) [r0; r1; r2; r3; r4].
Proof.
  destruct ch as [[] [] [] [] [] [] [] []];
    do 5 eexists; (split; [reflexivity | repeat constructor]).
Qed.

Lemma render_onto_shape (timestr : string) :
  forall (l0 l1 l2 l3 l4 : string) (n : nat),
    Forall (fun l => String.length l = n) [l0; l1; l2; l3; l4] ->
    List.length (render_onto [l0; l1; l2; l3; l4] timestr) = 5%nat /\
    Forall (fun l => String.length l = (n + 7 * String.length timestr)%nat)
      (render_onto [l0; l1; l2; l3; l4] timestr).
Proof.
  induction timestr as [|ch rest IH]; intros l0 l1 l2 l3 l4 n Hn.
  - simpl. split; [reflexivity|].
    eapply Forall_impl; [|exact Hn]. simpl. intros l Hl. lia.
  - cbn [render_onto].
    destruct (big_glyph_shape ch) as (r0 & r1 & r2 & r3 & r4 & Hg & Hr).
    rewrite Hg. cbn [add_parts].
    assert (Hstep : Forall (fun l => String.length l = (n + 7)%nat)
              [String.append l0 (String.append r0 "  ");
               String.append l1 (String.append r1 "  ");
               String.append l2 (String.append r2 "  ");
               String.append l3 (String.append r3 "  ");
               String.append l4 (String.append r4 "  ")]).
    { inversion Hn as [|? ? H0 Hn1]; subst.
      inversion Hn1 as [|? ? H1 Hn2]; subst.
      inversion Hn2 as [|? ? H2 Hn3]; subst.
      inversion Hn3 as [|? ? H3 Hn4]; subst.
      inversion Hn4 as [|? ? H4 _]; subst.
      inversion Hr as [|? ? G0 Hr1]; subst.
      inversion Hr1 as [|? ? G1 Hr2]; subst.
      inversion Hr2 as [|? ? G2 Hr3]; subst.
      inversion Hr3 as [|? ? G3 Hr4]; subst.
      inversion Hr4 as [|? ? G4 _]; subst.
      repeat constructor; rewrite !append_len; simpl; lia. }
    destruct (IH _ _ _ _ _ _ Hstep) as [Hlen Hall].
    split; [exact Hlen|].
    eapply Forall_impl; [|exact Hall]. simpl. intros l Hl. lia.
Qed.

(** X27. [render_big_time] gives five rows for every text, all of the same
    width: seven columns for each character, known or not.  So the block
    that [_compute_center] centers for a clock text is 5 rows high and 7
    times the length of the text wide. *)
Theorem render_big_time_shape (timestr : string) (win : Window) :
  List.length (render_big_time timestr) = 5%nat /\
  Forall (fun l => len l = 7 * len timestr) (render_big_time timestr) /\
  (let '(_, _, text_h, text_w) :=
     _compute_center win (render_big_time timestr) in
   text_h = 5 /\ text_w = 7 * len timestr).
Proof.
  unfold render_big_time. cbn [repeat].
  destruct (render_onto_shape timestr "" "" "" "" "" 0) as [Hlen Hall].
  { repeat constructor. }
  split; [exact Hlen|].
  assert (Hrows : Forall (fun l => len l = 7 * len timestr)
                    (render_onto [""; ""; ""; ""; ""] timestr)).
  { eapply Forall_impl; [|exact Hall]. cbv beta. intros l Hl.
    unfold len. rewrite Hl. lia. }
  split; [exact Hrows|].
  unfold _compute_center. cbv zeta. rewrite Hlen.
  split; [reflexivity|].
  destruct (render_onto [""; ""; ""; ""; ""] timestr)
    as [|a [|b [|c [|d [|e [|f rest]]]]]]; try discriminate.
  inversion Hrows as [|? ? Ha H1]; subst.
  inversion H1 as [|? ? Hb H2]; subst.
  inversion H2 as [|? ? Hc H3]; subst.
  inversion H3 as [|? ? Hd H4]; subst.
  inversion H4 as [|? ? He _]; subst.
  cbn [map fold_right]. unfold len in *. lia.
Qed.

(** A clock text with an unknown character: blanks in its place. *)
Example render_big_time_sample :
  render_big_time "1:x4" =
  ["  #                  #  #   ";
   " ##      #           #  #   ";
   "  #                  #####  ";
   "  #      #              #   ";
   " ###                    #   "].
Proof. reflexivity. Qed.

End ClockFacts.

(** ** Where the animations put the block *)

Section FramePositions.

Lemma quot_parts (n : Z) (d : positive) :
  exists q r : Z,
    Z.quot n (Z.pos d) = q /\ n = Z.pos d * q + r /\
    ((0 <= n /\ 0 <= r < Z.pos d) \/ (n < 0 /\ - Z.pos d < r <= 0)).
Proof.
  exists (Z.quot n (Z.pos d)), (Z.rem n (Z.pos d)).
  split; [reflexivity|]. split; [apply Z.quot_rem'|].
  destruct (Z_le_gt_dec 0 n) as [Hn|Hn].
  - left. split; [exact Hn|]. apply Z.rem_bound_pos; lia.
  - right. split; [lia|]. apply Z.rem_bound_pos_neg; lia.
Qed.

Lemma py_int_between (x : Q) (a b : Z) :
  (inject_Z a <= x)%Q -> (x <= inject_Z b)%Q -> a <= py_int x <= b.
Proof.
  unfold Qle, py_int. destruct x as [n d]. simpl.
  rewrite !Z.mul_1_r. intros Ha Hb.
  destruct (quot_parts n d) as (q & r & -> & Hn & Hr).
  destruct Hr as [[H0 Hr]|[H0 Hr]]; nia.
Qed.

Lemma py_int_monotone (x y : Q) : (x <= y)%Q -> py_int x <= py_int y.
Proof.
  unfold Qle, py_int. destruct x as [n d], y as [m e]. simpl. intros Hxy.
  destruct (quot_parts n d) as (q & r & -> & Hn & Hr).
  destruct (quot_parts m e) as (p & s & -> & Hm & Hs).
  destruct (Z_le_gt_dec q p) as [Hle|Hgt]; [exact Hle | exfalso].
  set (D := Z.pos d) in *. set (E := Z.pos e) in *.
  assert (HD : 0 < D) by (subst D; lia).
  assert (HE : 0 < E) by (subst E; lia).
  assert (Hq : D * E <= D * E * (q - p)) by nia.
  assert (Hdiff : D * E * (q - p) <= s * D - r * E) by nia.
  destruct Hr as [[H0 Hr]|[H0 Hr]]; destruct Hs as [[H1 Hs]|[H1 Hs]].
  - assert (0 <= r * E) by nia. assert (s * D < E * D) by nia. nia.
  - assert (0 <= r * E) by nia. assert (s * D <= 0) by nia. nia.
  - assert (Hq0 : q <= 0) by nia. assert (Hp0 : 0 <= p) by nia. lia.
  - assert (- (D * E) < r * E) by nia. assert (s * D <= 0) by nia. nia.
Qed.

Lemma scaled_between (d e : Q) :
  (0 <= d)%Q -> (0 <= e)%Q -> (e <= 1)%Q ->
  (inject_Z 0 <= d * e)%Q /\ (d * e <= d)%Q.
Proof.
  intros Hd He0 He1. change (inject_Z 0) with 0%Q. split; nra.
Qed.

Lemma scaled_monotone (d a b : Q) :
  (0 <= d)%Q -> (a <= b)%Q -> (d * a <= d * b)%Q.
Proof. intros Hd Hab. nra. Qed.

Lemma compute_center_nonneg (win : Window) (lines : list string) :
  let '(y, x, text_h, _) := _compute_center win lines in
  0 <= y /\ 0 <= x /\ 0 <= text_h.
Proof. unfold _compute_center. cbv zeta. lia. Qed.

Lemma frame_fraction_monotone (frames : Z) (i j : nat) :
  1 <= frames -> (i <= j)%nat ->
  (inject_Z (Z.of_nat i) / inject_Z frames
   <= inject_Z (Z.of_nat j) / inject_Z frames)%Q.
Proof.
  intros Hf Hij. unfold Qdiv. apply Qmult_le_compat_r.
  - rewrite <- Zle_Qle. lia.
  - apply Qinv_le_0_compat. rewrite <- (Zle_Qle 0). lia.
Qed.

(** X28. Every frame of both animations keeps the block in its column and
    between the row above the window where it is out of sight and the row
    where it is centered; the bounce, which could overshoot, never puts it
    lower than centered.  In the slide-out a later frame is never lower
    than an earlier one. *)
Theorem animation_rows_bounded (win : Window) (lines : list string)
  (duration : Q) (fps : Z) (i j : nat) (Hij : (i <= j)%nat) :
  let '(y0, x0, th, _) := _compute_center win lines in
  exists ys_i ys_j yb : Z,
    frame_position (slide_frame win lines duration fps i)
      = Some (ys_i, x0) /\
    frame_position (slide_frame win lines duration fps j)
      = Some (ys_j, x0) /\
    frame_position (bounce_frame win lines duration fps i)
      = Some (yb, x0) /\
    - th - 2 <= ys_j /\ ys_j <= ys_i /\ ys_i <= y0 /\
    - th - 2 <= yb <= y0.
Proof.
  pose proof (frame_count_pos duration fps) as Hf.
  pose proof (frame_fraction_monotone (frame_count duration fps) i j Hf Hij)
    as Ht.
  pose proof (compute_center_nonneg win lines) as Hc.
  unfold slide_frame, bounce_frame.
  destruct (_compute_center win lines) as [[[y0 x0] th] tw].
  destruct Hc as (Hy0 & Hx0 & Hth).
  cbv zeta. cbn [frame_position].
  set (ti := (inject_Z (Z.of_nat i) / inject_Z (frame_count duration fps))%Q)
    in *.
  set (tj := (inject_Z (Z.of_nat j) / inject_Z (frame_count duration fps))%Q)
    in *.
  pose proof (cubic_unit_interval ti) as [Hi0 Hi1].
  pose proof (cubic_unit_interval tj) as [Hj0 Hj1].
  pose proof (cubic_mono ti tj Ht) as Hmono.
  pose proof (bounce_unit_interval ti) as [Hb0 Hb1].
  set (dist := y0 + th + 2).
  assert (Hdist : (0 <= inject_Z dist)%Q)
    by (rewrite <- (Zle_Qle 0); subst dist; lia).
  assert (Hoi : 0 <= py_int (inject_Z dist * _ease_out_cubic ti) <= dist).
  { apply py_int_between; apply scaled_between; assumption. }
  assert (Hoj : 0 <= py_int (inject_Z dist * _ease_out_cubic tj) <= dist).
  { apply py_int_between; apply scaled_between; assumption. }
  assert (Hoij : py_int (inject_Z dist * _ease_out_cubic ti)
                 <= py_int (inject_Z dist * _ease_out_cubic tj)).
  { apply py_int_monotone. apply scaled_monotone; assumption. }
  assert (Hspan : (0 <= inject_Z (y0 - (- th - 2)))%Q)
    by (rewrite <- (Zle_Qle 0); lia).
  assert (Hyb : - th - 2
                <= py_int (inject_Z (- th - 2)
                           + inject_Z (y0 - (- th - 2))
                             * _ease_out_bounce ti)
                <= y0).
  { destruct (scaled_between (inject_Z (y0 - (- th - 2)))
                (_ease_out_bounce ti) Hspan Hb0 Hb1) as [Hlo Hhi].
    change (inject_Z 0) with 0%Q in Hlo.
    apply py_int_between; [lra|].
    assert (Hsum : (inject_Z y0
                    == inject_Z (- th - 2) + inject_Z (y0 - (- th - 2)))%Q).
    { rewrite <- inject_Z_plus. f_equiv. lia. }
    rewrite Hsum. lra. }
  eexists. eexists. eexists.
  split; [f_equal; f_equal; lia|].
  split; [f_equal; f_equal; lia|].
  split; [reflexivity|].
  subst dist. lia.
Qed.

End FramePositions.

Lemma animation_rows_bounded_witness :
  let '(y0, x0, th, _) := _compute_center sample_window ["12:34"] in
  exists ys_i ys_j yb : Z,
    frame_position (slide_frame sample_window ["12:34"] (55 # 100) 50 2)
      = Some (ys_i, x0) /\
    frame_position (slide_frame sample_window ["12:34"] (55 # 100) 50 5)
      = Some (ys_j, x0) /\
    frame_position (bounce_frame sample_window ["12:34"] (55 # 100) 50 2)
      = Some (yb, x0) /\
    - th - 2 <= ys_j /\ ys_j <= ys_i /\ ys_i <= y0 /\
    - th - 2 <= yb <= y0.
Proof.
  apply (animation_rows_bounded sample_window ["12:34"] (55 # 100) 50 2 5).
  lia.
Defined.

(** ** The order of stopping and launching *)

Section LaunchOrder.
Variable cfg : Config.

Lemma unlocking_launch (st : TTYSafeLock.t) (join_raises : bool) :
  launches (fst (unlocking cfg st join_raises)) = true ->
  join_raises = false /\
  exists key cmd : string,
    list_get (desktop_choices st) (desktop_index st) = Some key /\
    dict_get (UNLOCK_COMMANDS cfg) key = Some cmd /\
    fst (unlocking cfg st join_raises) =
    [StopWorkers; EndWin;
     PrintOut (String.append "Authenticated. Launching: "
                 (String.append key "..."));
     Popen ["/bin/sh"; "-c"; cmd]].
Proof.
  unfold unlocking, stop_workers.
  destruct (is_set (unlocked_event st)); [|discriminate].
  destruct join_raises; [discriminate|].
  destruct (desktop_choices st) as [|k ks]; [discriminate|].
  destruct (list_get (k :: ks) (desktop_index st)) as [key|];
    [|discriminate].
  unfold launch_and_exit.
  destruct (dict_get (UNLOCK_COMMANDS cfg) key) as [cmd|] eqn:Hcmd;
    [|discriminate].
  rewrite (unlock_command_truthy cfg key cmd Hcmd). intros _.
  split; [reflexivity|]. exists key, cmd. auto.
Qed.

(** X29. [run] starts a session process only past the joins of
    [stop_workers]: when the trace has a [Popen], the join of the
    fingerprint thread has not raised, and the trace ends with setting the
    stop flags, restoring the terminal, the "Authenticated" line and
    [/bin/sh -c] with the command of the session the index points at, with
    no process started before.  When that join raises, the run starts no
    process and does not leave through [sys.exit]. *)
Theorem launch_only_past_the_join (st : TTYSafeLock.t)
  (intro : Ambient) (ticks : list Tick) :
  let '(st', tr, c) := run cfg st intro ticks in
  (launches tr = true ->
   fprint_join_raises intro = false /\
   exists (before : list Effect) (key cmd : string),
     tr = before ++
          [StopWorkers; EndWin;
           PrintOut (String.append "Authenticated. Launching: "
                       (String.append key "..."));
           Popen ["/bin/sh"; "-c"; cmd]] /\
     launches before = false /\
     list_get (desktop_choices st') (desktop_index st') = Some key /\
     dict_get (UNLOCK_COMMANDS cfg) key = Some cmd) /\
  (fprint_join_raises intro = true ->
   launches tr = false /\
   (forall code : Z, c <> Raised (SystemExit code)) /\
   (is_set (unlocked_event st') = true -> c <> Returned)).
Proof.
  unfold run.
  pose proof (play_anim_no_popen cfg (stdscr intro) (ANIM_IN_STYLE cfg)
                (clock intro) (unlocked_event st) (worker_auth intro) true
                (ANIM_DURATION_IN cfg) 50) as Ha.
  destruct (play_anim _ _ _ _ _ _ _ _ _) as [ev atr]. cbn [snd] in Ha.
  pose proof (run_loop_outcome cfg ticks (with_event st ev)) as Hl.
  pose proof (run_loop_errors cfg ticks (with_event st ev)) as He.
  destruct (run_loop cfg (with_event st ev) ticks) as [[st' ltr] c].
  destruct Hl as (Hl & _). destruct He as (Hexit & _).
  destruct c as [| |e].
  - split.
    + rewrite !launches_app, Ha, Hl. simpl. discriminate.
    + intros _. rewrite !launches_app, Ha, Hl.
      split; [reflexivity|].
      split; [discriminate | intros _; discriminate].
  - pose proof (unlocking_launch st' (fprint_join_raises intro)) as Hu.
    pose proof (unlocking_outcome cfg st' (fprint_join_raises intro)) as Ho.
    destruct (unlocking cfg st' (fprint_join_raises intro)) as [utr c'].
    cbn [fst] in Hu. destruct Ho as (_ & Hclear & Hjoin & _).
    split.
    + rewrite !launches_app, Ha, Hl. simpl. intros Hlaunch.
      destruct (Hu Hlaunch) as (Hj & key & cmd & Hkey & Hcmd & ->).
      split; [exact Hj|].
      exists ([CursSet 0; StartWorkers] ++ atr ++ ltr), key, cmd.
      split; [rewrite <- !app_assoc; reflexivity|].
      split; [rewrite !launches_app, Ha, Hl; reflexivity|]. auto.
    + intros Hj. rewrite !launches_app, Ha, Hl.
      destruct (is_set (unlocked_event st')) eqn:Hev.
      * destruct (Hjoin eq_refl Hj) as [-> ->].
        split; [reflexivity|].
        split; [discriminate | intros _; discriminate].
      * destruct (Hclear eq_refl) as [-> ->].
        split; [reflexivity|]. split; discriminate.
  - split.
    + rewrite !launches_app, Ha, Hl. simpl. discriminate.
    + intros _. rewrite !launches_app, Ha, Hl.
      split; [reflexivity|].
      split; [exact Hexit | intros _; discriminate].
Qed.

End LaunchOrder.

Lemma launch_only_past_the_join_witness :
  let '(st', tr, c) :=
    run x11_config (TTYSafeLock.init x11_config) quiet
      [tick_key 32; tick_key 97; tick_key 10] in
  launches tr = true /\
  fprint_join_raises quiet = false /\
  exists (before : list Effect) (key cmd : string),
    tr = before ++
         [StopWorkers; EndWin;
          PrintOut (String.append "Authenticated. Launching: "
                      (String.append key "..."));
          Popen ["/bin/sh"; "-c"; cmd]] /\
    launches before = false /\
    list_get (desktop_choices st') (desktop_index st') = Some key /\
    dict_get (UNLOCK_COMMANDS x11_config) key = Some cmd.
Proof.
  pose proof (launch_only_past_the_join x11_config
                (TTYSafeLock.init x11_config) quiet
                [tick_key 32; tick_key 97; tick_key 10]) as H.
  destruct (run x11_config (TTYSafeLock.init x11_config) quiet
              [tick_key 32; tick_key 97; tick_key 10])
    as [[st' tr] c] eqn:Hr.
  assert (Hl : launches tr = true).
  { replace tr with (snd (fst (run x11_config (TTYSafeLock.init x11_config)
                                 quiet
                                 [tick_key 32; tick_key 97; tick_key 10])))
      by (rewrite Hr; reflexivity).
    vm_compute. reflexivity. }
  split; [exact Hl|]. exact (proj1 H Hl).
Defined.

(** A face unlock when the fingerprint thread has ended: the join raises,
    and nothing is launched. *)
Example join_error_after_unlock :
  let '(_, tr, c) :=
    run sample_config (TTYSafeLock.init sample_config)
      fingerprint_thread_over [tick_with (OnSuccess "face" "alice")] in
  c = Raised join_error /\ launches tr = false /\
  main sample_config fingerprint_thread_over
    [tick_with (OnSuccess "face" "alice")]
  = (tr ++ [EndWin; EndWin;
            PrintErr "An unexpected error occurred: 'Event' object is not callable"],
     Some 0).
Proof. vm_compute. repeat split; reflexivity. Qed.
